(** * Daegu crime dashboard (app2.py): weighted risk scoring, ranking and loading

    A shallow embedding of the computational parts of [app2.py]:
    the weight normalisation and the weighted risk / safety / net scores of
    tab 1, the ranking tables of tabs 1 and 2, the three data loaders with
    their error handling, and the rank columns of the correlation tab.

    Numbers.  The script computes on Python floats and pandas [float64]
    columns.  The embedding is written over an arithmetic interface
    [Arith]; its instance [binary64] is IEEE-754 double precision as
    specified by [SpecFloat] (round to nearest even, signed zeros,
    infinities, NaN), which is what the program executes.

    Library calls whose algorithm is not part of the script
    ([DataFrame.sort_values], [Series.rank], [merge], the readers) are
    modelled by their documented contract and are marked as such;
    [Series.corr] and the plotting calls are not modelled. *)

From Stdlib Require Import ZArith Lia List Bool String Ascii.
From Stdlib Require Import SpecFloat Permutation Sorted.
From stdpp Require Import base option list.
Import ListNotations.

Local Open Scope string_scope.
Local Open Scope Z_scope.

(* ===================================================================== *)
(** * Exceptions *)
(* ===================================================================== *)

Module Py.

Inductive exn : Type :=
| KeyError (key : string)
| TypeError
| IndexError
| ValueError
| AttributeError
| FileNotFoundError (path : string)
| OtherError (cls : string).   (* an exception of a class the script does not name *)

Inductive result (A : Type) : Type :=
| Ok (a : A)
| Raise (e : exn).
Arguments Ok {A} a.
Arguments Raise {A} e.

Definition bind {A B} (r : result A) (k : A -> result B) : result B :=
  match r with
  | Ok a => k a
  | Raise e => Raise e
  end.

Definition is_ok {A} (r : result A) : bool :=
  match r with Ok _ => true | Raise _ => false end.

(** Left-to-right iteration that stops at the first exception. *)
Fixpoint foldM {A B} (f : A -> B -> result A) (acc : A) (l : list B) : result A :=
  match l with
  | [] => Ok acc
  | b :: l' => bind (f acc b) (fun acc' => foldM f acc' l')
  end.

End Py.
Import Py.

#[export] Instance result_bind : MBind result := fun A B k r => bind r k.
#[export] Instance result_ret : MRet result := @Ok.

(* ===================================================================== *)
(** * Arithmetic interface and binary64 *)
(* ===================================================================== *)

Class Arith (num : Type) : Type := {
  of_Z : Z -> num;                (* an integer literal or value *)
  fadd : num -> num -> num;       (* x + y *)
  fsub : num -> num -> num;       (* x - y *)
  fmul : num -> num -> num;       (* x * y *)
  fdiv : num -> num -> num;       (* x / y, only used with y > 0 *)
  flt : num -> num -> bool;       (* x < y *)
  fle : num -> num -> bool;       (* x <= y *)
  isna : num -> bool              (* pandas isna *)
}.

Definition zero {num} `{Arith num} : num := of_Z 0.

(** A decimal literal such as [0.05], written [dec 5 100]: the number
    nearest to 5/100 that the arithmetic can represent. *)
Definition dec {num} `{Arith num} (n d : Z) : num := fdiv (of_Z n) (of_Z d).

(** ** IEEE-754 binary64 *)

Module B64.

Definition prec : Z := 53.
Definition emax : Z := 1024.

Definition is_nan (x : spec_float) : bool :=
  match x with S754_nan => true | _ => false end.

Definition is_finite (x : spec_float) : bool :=
  match x with S754_zero _ | S754_finite _ _ _ => true | _ => false end.

Definition is_inf (x : spec_float) : bool :=
  match x with S754_infinity _ => true | _ => false end.

Definition is_zero (x : spec_float) : bool :=
  match x with S754_zero _ => true | _ => false end.

Definition of_Z (z : Z) : spec_float := binary_normalize prec emax z 0 false.

Definition valid (x : spec_float) : bool := valid_binary prec emax x.

Definition one : spec_float := of_Z 1.

(** The integer side of [binary_round_aux], used to reason about it:
    the number of binary digits of a mantissa, the exponent function of the
    format, one alignment step (a right shift down to the format's
    exponent), and the packing of the final mantissa and exponent. *)
Definition dg (z : Z) : Z := Zdigits2 z.

Definition fexp64 (e : Z) : Z := Z.max (e - 53) (-1074).

Definition shift_m (m e : Z) : Z * Z :=
  let n := fexp64 (dg m + e) - e in
  if 0 <? n then (m / 2 ^ n, e + n) else (m, e).

Definition pack (s : bool) (me : Z * Z) : spec_float :=
  match fst me with
  | Z0 => S754_zero s
  | Zpos p => if snd me <=? 971 then S754_finite s p (snd me) else S754_infinity s
  | Zneg _ => S754_nan
  end.

Definition canon (m e : Z) : Prop := fexp64 (dg m + e) = e.

(** Zero of either sign, a positive finite number or plus infinity. *)
Definition nonneg (x : spec_float) : bool :=
  match x with
  | S754_zero _ => true
  | S754_infinity s | S754_finite s _ _ => negb s
  | S754_nan => false
  end.

(** A raw weight as a slider gives it: a binary64 value, finite, [0 <= w]. *)
Definition weight_ok (w : spec_float) : Prop :=
  valid w = true /\ is_finite w = true /\ SFleb (S754_zero false) w = true.

(** A partial sum of such weights: plus zero, plus infinity, or a positive
    finite binary64 value. *)
Definition partial_sum (s : spec_float) : Prop :=
  valid s = true /\
  match s with
  | S754_zero sg | S754_infinity sg | S754_finite sg _ _ => sg = false
  | S754_nan => False
  end.

(** The place of a value in the order of the values: its class (minus
    infinity, negative, zero, positive, plus infinity), then exponent and
    mantissa, both negated for a negative number; the comparison
    [SFcompare] makes, as a lexicographic order on triples. *)
Definition key (x : spec_float) : Z * Z * Z :=
  match x with
  | S754_zero _ => (0, 0, 0)
  | S754_infinity s => (if s then -2 else 2, 0, 0)
  | S754_finite s m e => if s then (-1, - e, - Zpos m) else (1, e, Zpos m)
  | S754_nan => (0, 0, 0)
  end.

Definition key_lt (a b : Z * Z * Z) : Prop :=
  let '(c1, e1, m1) := a in
  let '(c2, e2, m2) := b in
  c1 < c2 \/ c1 = c2 /\ (e1 < e2 \/ e1 = e2 /\ m1 < m2).

Definition not_nan (x : spec_float) : Prop := is_nan x = false.







End B64.

#[export] Instance binary64 : Arith spec_float := {
  of_Z := B64.of_Z;
  fadd := SFadd B64.prec B64.emax;
  fsub := SFsub B64.prec B64.emax;
  fmul := SFmul B64.prec B64.emax;
  fdiv := SFdiv B64.prec B64.emax;
  flt := SFltb;
  fle := SFleb;
  isna := B64.is_nan
}.

(* ===================================================================== *)
(** * The part of pandas the script uses *)
(* ===================================================================== *)

Module Pandas.
Section Frames.
Context {num : Type} `{Arith num}.

(** A column is a [float64] array or an [object] array of strings.  In an
    object column [None] is a cell that is not a string: NaN as read from
    the file, the integer 0 once [fillna(0)] has run. *)
Inductive column : Type :=
| NumCol (s : list num)
| StrCol (s : list (option string)).

(** Columns in their order; names are looked up from the left. *)
Definition DataFrame : Type := list (string * column).

Definition col_len (c : column) : nat :=
  match c with NumCol s => length s | StrCol s => length s end.

Definition columns (df : DataFrame) : list string := map fst df.

Definition nrows (df : DataFrame) : nat :=
  match df with [] => 0%nat | (_, c) :: _ => col_len c end.

(** [df.empty] *)
Definition empty (df : DataFrame) : bool :=
  match df with [] => true | _ => Nat.eqb (nrows df) 0 end.

Definition wf_frame (df : DataFrame) : Prop :=
  forall name c, In (name, c) df -> col_len c = nrows df.

Fixpoint get (df : DataFrame) (name : string) : option column :=
  match df with
  | [] => None
  | (n, c) :: df' => if String.eqb n name then Some c else get df' name
  end.

(** [df[name]] *)
Definition getitem (df : DataFrame) (name : string) : result column :=
  match get df name with
  | Some c => Ok c
  | None => Raise (KeyError name)
  end.

(** [df[name] = c]: replaces the column in place, or appends it. *)
Fixpoint setitem (df : DataFrame) (name : string) (c : column) : DataFrame :=
  match df with
  | [] => [(name, c)]
  | (n, c0) :: df' =>
      if String.eqb n name then (n, c) :: df' else (n, c0) :: setitem df' name c
  end.

(** A column used in float arithmetic; text cannot be multiplied by a
    float or subtracted. *)
Definition numeric (df : DataFrame) (name : string) : result (list num) :=
  c ← getitem df name;
  match c with
  | NumCol s => Ok s
  | StrCol _ => Raise TypeError
  end.

(** [df[[n1, n2, ...]]] *)
Fixpoint select_columns (df : DataFrame) (names : list string) : result DataFrame :=
  match names with
  | [] => Ok []
  | n :: names' =>
      c ← getitem df n;
      rest ← select_columns df names';
      Ok ((n, c) :: rest)
  end.

(** [s.fillna(0)] on one cell and on a float column. *)
Definition fillna0 (x : num) : num := if isna x then zero else x.

Definition fillna_series (s : list num) : list num := map fillna0 s.

(** [df.fillna(0)] *)
Definition fillna_column (c : column) : column :=
  match c with
  | NumCol s => NumCol (fillna_series s)
  | StrCol s => StrCol s
  end.

Definition fillna_frame (df : DataFrame) : DataFrame :=
  map (fun nc => (fst nc, fillna_column (snd nc))) df.

(** Rows picked by position, in the given order. *)
Definition take_at {A} (idx : list nat) (l : list A) : list A :=
  omap (fun i => l !! i) idx.

Definition take_column (idx : list nat) (c : column) : column :=
  match c with
  | NumCol s => NumCol (take_at idx s)
  | StrCol s => StrCol (take_at idx s)
  end.

Definition take_rows (idx : list nat) (df : DataFrame) : DataFrame :=
  map (fun nc => (fst nc, take_column idx (snd nc))) df.

(** Positions of the cells that satisfy a mask. *)
Fixpoint positions_from {A} (p : A -> bool) (l : list A) (i : nat) : list nat :=
  match l with
  | [] => []
  | x :: l' => if p x then i :: positions_from p l' (S i) else positions_from p l' (S i)
  end.

Definition positions {A} (p : A -> bool) (l : list A) : list nat :=
  positions_from p l 0.

(** What Python's [sum] and the operators see: a scalar or a Series.
    A scalar operand is broadcast over the Series. *)
Inductive value : Type :=
| Scalar (x : num)
| Ser (s : list num).

Definition add_value (a b : value) : value :=
  match a, b with
  | Scalar x, Scalar y => Scalar (fadd x y)
  | Scalar x, Ser s => Ser (map (fun v => fadd x v) s)
  | Ser s, Scalar y => Ser (map (fun v => fadd v y) s)
  | Ser s, Ser t => Ser (zip_with fadd s t)
  end.

(** A value that fits a frame of [n] rows, and the column it becomes. *)
Definition value_rows (n : nat) (v : value) : Prop :=
  match v with
  | Scalar _ => True
  | Ser s => length s = n
  end.

Definition series_of (n : nat) (v : value) : list num :=
  match v with
  | Scalar x => replicate n x
  | Ser s => s
  end.

(** [df[name] = v] with a scalar or a Series on the right. *)
Definition assign (df : DataFrame) (name : string) (v : value) : DataFrame :=
  setitem df name
    (NumCol match v with
            | Scalar x => replicate (nrows df) x
            | Ser s => s
            end).

(** ** [sort_values]

    Modelled from the documented contract of
    [DataFrame.sort_values(by=..., ascending=...)] with the default
    [kind='quicksort'] and [na_position='last']: the rows are permuted, the
    values of the key column that are not NaN come first in the requested
    order, the NaN rows come last.  The default sort kind does not promise
    an order among rows with equal keys, and neither does this contract. *)

Fixpoint ordered (ascending : bool) (l : list num) : bool :=
  match l with
  | [] => true
  | x :: l' =>
      if isna x then forallb isna l'
      else match l' with
           | [] => true
           | y :: _ =>
               (isna y || (if ascending then fle x y else fle y x))
               && ordered ascending l'
           end
  end.

Definition sort_values (df : DataFrame) (by_ : string) (ascending : bool)
    (out : DataFrame) : Prop :=
  exists idx key,
    Permutation idx (seq 0 (nrows df)) /\
    out = take_rows idx df /\
    numeric out by_ = Ok key /\
    ordered ascending key = true.

(** ** Reading, selecting and joining *)

(** [pd.read_csv], [pd.read_excel]: the table in the file, or
    [FileNotFoundError] when there is no such file (both open the path
    themselves). *)
Definition read (file : option DataFrame) (path : string) : result DataFrame :=
  match file with
  | Some df => Ok df
  | None => Raise (FileNotFoundError path)
  end.

(** [gpd.read_file]: the table in the file.  For a path that does not exist
    geopandas passes on the exception of the engine it reads with, which
    the script does not choose; [missing path] stands for that exception. *)
Definition read_file (missing : string -> exn) (file : option DataFrame)
    (path : string) : result DataFrame :=
  match file with
  | Some df => Ok df
  | None => Raise (missing path)
  end.

(** [df.iloc[:, [i, j, ...]]] *)
Fixpoint iloc_columns (df : DataFrame) (pos : list nat) : result DataFrame :=
  match pos with
  | [] => Ok []
  | i :: pos' =>
      match df !! i with
      | Some nc => rest ← iloc_columns df pos'; Ok (nc :: rest)
      | None => Raise IndexError
      end
  end.

Definition is_missing_at (c : column) (i : nat) : bool :=
  match c with
  | NumCol s => match s !! i with Some x => isna x | None => false end
  | StrCol s => match s !! i with Some None => true | _ => false end
  end.

(** [df.dropna()]: the rows without a missing cell. *)
Definition dropna (df : DataFrame) : DataFrame :=
  take_rows
    (List.filter (fun i => forallb (fun nc => negb (is_missing_at (snd nc) i)) df)
                 (seq 0 (nrows df)))
    df.

Fixpoint lookup_name (mapping : list (string * string)) (name : string) : string :=
  match mapping with
  | [] => name
  | (old, new) :: mapping' =>
      if String.eqb old name then new else lookup_name mapping' name
  end.

(** [df.rename(columns=mapping)] *)
Definition rename (df : DataFrame) (mapping : list (string * string)) : DataFrame :=
  map (fun nc => (lookup_name mapping (fst nc), snd nc)) df.

(** [df.rename(columns={df.columns[0]: new})] *)
Definition rename_first (df : DataFrame) (new : string) : result DataFrame :=
  match df with
  | [] => Raise IndexError
  | (old, _) :: _ => Ok (rename df [(old, new)])
  end.

(** [pd.to_numeric]: [read_csv] has already parsed every column of
    numbers, so an object column that still holds text is not numeric. *)
Definition to_numeric (c : column) : result (list num) :=
  match c with
  | NumCol s => Ok s
  | StrCol [] => Ok []
  | StrCol _ => Raise ValueError
  end.

(** [column != v] for a string [v]; a cell that is not a string differs. *)
Definition ne_str (c : column) (v : string) : list bool :=
  match c with
  | StrCol s => map (fun x => match x with
                              | Some y => negb (String.eqb y v)
                              | None => true
                              end) s
  | NumCol s => map (fun _ => true) s
  end.

(** [column >= v] for a string [v]: strings compare in code-point order;
    a cell that is not a string cannot be compared with one. *)
Definition ge_str (c : column) (v : string) : result (list bool) :=
  match c with
  | StrCol s =>
      if forallb (fun x => match x with Some _ => true | None => false end) s
      then Ok (map (fun x => match x with
                             | Some y => negb (String.ltb y v)
                             | None => false
                             end) s)
      else Raise TypeError
  | NumCol [] => Ok []
  | NumCol _ => Raise TypeError
  end.

(** [df[mask]] *)
Definition boolean_index (df : DataFrame) (mask : list bool) : DataFrame :=
  take_rows (positions (fun b : bool => b) mask) df.

(** [s.str.split().str[-1]]: the last whitespace-delimited token of every
    string, NaN where there is none.  A string holds the bytes of its UTF-8
    encoding.  Whitespace is what Python's [str.split()] splits on, the
    code points for which [str.isspace()] holds: U+0009 to U+000D, U+001C
    to U+0020, U+0085, U+00A0, U+1680, U+2000 to U+200A, U+2028, U+2029,
    U+202F, U+205F and U+3000. *)
Definition is_space (a : ascii) : bool :=
  let n := nat_of_ascii a in
  ((9 <=? n)%nat && (n <=? 13)%nat) || ((28 <=? n)%nat && (n <=? 32)%nat).

Definition byte (a : ascii) : N := N_of_ascii a.

(** The number of bytes of the whitespace character that [s] starts with,
    0 when it starts with none. *)
Definition space_width (s : string) : nat :=
  match s with
  | EmptyString => 0
  | String a s1 =>
      if is_space a then 1
      else
        match s1 with
        | EmptyString => 0
        | String b s2 =>
            if (byte a =? 194)%N then
              (* U+0085, U+00A0 *)
              if (byte b =? 133)%N || (byte b =? 160)%N then 2 else 0
            else
              match s2 with
              | EmptyString => 0
              | String c _ =>
                  if (byte a =? 225)%N then
                    (* U+1680 *)
                    if (byte b =? 154)%N && (byte c =? 128)%N then 3 else 0
                  else if (byte a =? 226)%N then
                    if (byte b =? 128)%N then
                      (* U+2000 to U+200A, U+2028, U+2029, U+202F *)
                      if ((128 <=? byte c)%N && (byte c <=? 138)%N)
                         || (byte c =? 168)%N || (byte c =? 169)%N
                         || (byte c =? 175)%N
                      then 3 else 0
                    else
                      (* U+205F *)
                      if (byte b =? 129)%N && (byte c =? 159)%N then 3 else 0
                  else if (byte a =? 227)%N then
                    (* U+3000 *)
                    if (byte b =? 128)%N && (byte c =? 128)%N then 3 else 0
                  else 0
              end
        end
  end%nat.

(** The tokens of [s]; [cur] is the token being read, [skip] the number of
    bytes left of a whitespace character of several bytes. *)
Fixpoint tokens (s : string) (cur : string) (skip : nat) : list string :=
  match s with
  | EmptyString => if String.eqb cur "" then [] else [cur]
  | String a s' =>
      match skip with
      | S n => tokens s' cur n
      | O =>
          match space_width s with
          | O => tokens s' (cur ++ String a "") 0
          | S n =>
              if String.eqb cur "" then tokens s' "" n else cur :: tokens s' "" n
          end
      end
  end.

Definition last_token (s : string) : option string :=
  List.last (map Some (tokens s "" 0)) None.

Definition str_split_last (c : column) : result (list (option string)) :=
  match c with
  | StrCol s => Ok (map (fun x => match x with
                                  | Some y => last_token y
                                  | None => None
                                  end) s)
  | NumCol _ => Raise AttributeError
  end.

(** [left.merge(right, left_on=..., right_on=..., how='inner')], which is
    also [pd.merge(left, right, on=...)] when both names are the same.
    Rows pair up when their keys are equal, in the order of the left rows;
    a key cell that is not a string pairs with nothing; columns of the same
    name on both sides get the suffixes [_x] and [_y]. *)
Definition key_eq (a b : column) : result (nat -> nat -> bool) :=
  match a, b with
  | StrCol s, StrCol t =>
      Ok (fun i j => match s !! i, t !! j with
                     | Some (Some x), Some (Some y) => String.eqb x y
                     | _, _ => false
                     end)
  | NumCol s, NumCol t =>
      Ok (fun i j => match s !! i, t !! j with
                     | Some x, Some y =>
                         (isna x && isna y) || (fle x y && fle y x)
                     | _, _ => false
                     end)
  | _, _ => Raise ValueError
  end.

Definition drop_column (df : DataFrame) (name : string) : DataFrame :=
  List.filter (fun nc => negb (String.eqb (fst nc) name)) df.

Definition merge (left right : DataFrame) (left_on right_on : string)
    : result DataFrame :=
  lk ← getitem left left_on;
  rk ← getitem right right_on;
  eq ← key_eq lk rk;
  let pairs :=
    flat_map (fun i => map (fun j => (i, j))
                           (List.filter (eq i) (seq 0 (nrows right))))
             (seq 0 (nrows left)) in
  let right' := if String.eqb left_on right_on
                then drop_column right right_on else right in
  let clash n := existsb (String.eqb n) (columns left)
                 && existsb (String.eqb n) (columns right') in
  Ok (app
        (map (fun nc => (if clash (fst nc) then (fst nc ++ "_x")%string else fst nc,
                         take_column (map fst pairs) (snd nc))) left)
        (map (fun nc => (if clash (fst nc) then (fst nc ++ "_y")%string else fst nc,
                         take_column (map snd pairs) (snd nc))) right')).

(** ** [rank]

    Modelled from the documented contract of
    [Series.rank(method='min', ascending=False)]: the values are put in
    descending order, equal values form a group, and every member of a
    group gets the position (from 1) of the first member of its group. *)

Definition tie (x y : num) : bool := negb (flt x y) && negb (flt y x).

Fixpoint insert_desc (x : num) (l : list num) : list num :=
  match l with
  | [] => [x]
  | y :: l' => if flt y x then x :: y :: l' else y :: insert_desc x l'
  end.

Definition sort_desc (s : list num) : list num := fold_right insert_desc [] s.

(** No value is smaller than one that comes after it. *)
Definition desc_sorted (l : list num) : Prop :=
  StronglySorted (fun a b => flt a b = false) l.

Fixpoint first_position (x : num) (l : list num) : nat :=
  match l with
  | [] => 0%nat
  | y :: l' => if tie x y then 0%nat else S (first_position x l')
  end.

Definition rank_min_desc (s : list num) : list Z :=
  map (fun x => Z.of_nat (S (first_position x (sort_desc s)))) s.

(** [.astype(int)] on the ranks: the rank of a NaN is NaN, which cannot be
    converted to an integer. *)
Definition rank_as_int (s : list num) : result (list Z) :=
  if existsb isna s then Raise ValueError else Ok (rank_min_desc s).

(** How many values of [s] are greater than [x], and how many equal it. *)
Definition count_greater (x : num) (s : list num) : nat :=
  length (filter (fun y => flt x y = true) s).

Definition count_tied (x : num) (s : list num) : nat :=
  length (filter (fun y => tie x y = true) s).

(** [r] ranks [s] from the largest value, ties taking the smallest rank of
    their group: the largest value has rank 1, equal values have equal
    ranks, a greater value has a smaller rank, and below a group of [k]
    equal values of rank [ri] the ranks start again at [ri + k]. *)
Definition min_rank_desc (s : list num) (r : list Z) : Prop :=
  length r = length s /\
  forall i x ri, s !! i = Some x -> r !! i = Some ri ->
    ri = 1 + Z.of_nat (count_greater x s) /\
    (Forall (fun y => flt x y = false) s -> ri = 1) /\
    forall j y rj, s !! j = Some y -> r !! j = Some rj ->
      (tie x y = true -> rj = ri) /\
      (flt x y = true -> rj < ri) /\
      (flt y x = true -> ri + Z.of_nat (count_tied x s) <= rj).

(** One table that meets the contract of [sort_values], built by
    insertion on (position, value) pairs with the NaN rows put last; it
    shows that the contract can be met for every key column. *)
Definition in_order (ascending : bool) (x y : num) : bool :=
  if ascending then fle x y else fle y x.

Fixpoint insert_pair (ascending : bool) (p : nat * num) (l : list (nat * num))
    : list (nat * num) :=
  match l with
  | [] => [p]
  | q :: l' =>
      if in_order ascending (snd p) (snd q) then p :: q :: l'
      else q :: insert_pair ascending p l'
  end.

Definition sort_pairs (ascending : bool) (l : list (nat * num)) : list (nat * num) :=
  fold_right (insert_pair ascending) [] l.

Definition enumerate (key : list num) : list (nat * num) :=
  zip (seq 0 (length key)) key.

Definition argsort (ascending : bool) (key : list num) : list nat :=
  app (map fst (sort_pairs ascending
                  (List.filter (fun p => negb (isna (snd p))) (enumerate key))))
      (map fst (List.filter (fun p => isna (snd p)) (enumerate key))).

End Frames.
End Pandas.
Import Pandas.

(* ===================================================================== *)
(** * app2.py: variables and tab 1 (net risk score) *)
(* ===================================================================== *)

Module App.
Section Scoring.
Context {num : Type} `{Arith num}.

(** A Python [dict] from factor name to weight, in insertion order. *)
Definition dict : Type := list (string * num).

Definition values (d : dict) : list num := map snd d.

Fixpoint dict_get (d : dict) (k : string) : option num :=
  match d with
  | [] => None
  | (k0, v) :: d' => if String.eqb k0 k then Some v else dict_get d' k
  end.

(** [d[k] = v] *)
Fixpoint dict_set (d : dict) (k : string) (v : num) : dict :=
  match d with
  | [] => [(k, v)]
  | (k0, v0) :: d' =>
      if String.eqb k0 k then (k0, v) :: d' else (k0, v0) :: dict_set d' k v
  end.

(** Python's [sum]: starts from the integer 0 and adds from the left.
    This is the builtin as the language reference describes it and as
    CPython up to 3.11 computes it on floats; from 3.12 on CPython carries a
    compensation term along when the items are floats, see
    [sum_compensated] below.  The sum of Series in [weighted_sum] goes
    through [+] item by item in every version. *)
Definition sum (l : list num) : num := fold_left fadd l zero.

Definition risk_factors : list string :=
  ["유흥업소 수"; "초등학교 수"; "중,고등학교 수"; "요리 주점";
   "등록인구"; "여성비율"; "외국인비율"].

Definition safety_factors : list string :=
  ["치안기관"; "어린이용 CCTV 수"; "안전비상벨 수"; "기타 CCTV 수";
   "시설물 CCTV 수"; "가로등 수"; "보안등 수"; "생활방범 CCTV 수"].

Definition initial_risk_weights : dict :=
  [("유흥업소 수", dec 5 100); ("초등학교 수", dec 4 100);
   ("중,고등학교 수", dec 3 100); ("요리 주점", dec 2 100);
   ("등록인구", dec 50 100); ("여성비율", dec 10 100);
   ("외국인비율", dec 5 100)].

Definition initial_safety_weights : dict :=
  [("치안기관", dec 25 100); ("어린이용 CCTV 수", dec 20 100);
   ("안전비상벨 수", dec 20 100); ("기타 CCTV 수", dec 5 100);
   ("시설물 CCTV 수", dec 10 100); ("가로등 수", dec 6 100);
   ("보안등 수", dec 6 100); ("생활방범 CCTV 수", dec 40 100)].

(** [st.session_state] *)
Record session_state : Type := {
  risk_weights : dict;
  safety_weights : dict
}.

(** [st.slider(label, 0.0, 0.5, value, 0.01, key=...)]: the position the
    user has set for this key, else [value].  Streamlit keeps the position
    inside the slider's range. *)
Definition slider (widgets : string -> option num) (key : string) (value : num) : num :=
  match widgets key with
  | Some v => v
  | None => value
  end.

(** [for factor in factors: weights[factor] = st.slider(...)] *)
Definition sliders (widgets : string -> option num) (prefix : string)
    (factors : list string) (weights : dict) : dict :=
  fold_left
    (fun w factor =>
       dict_set w factor
         (slider widgets (prefix ++ factor)
            (match dict_get w factor with Some v => v | None => dec 1 10 end)))
    factors weights.

Definition col_sidebar (widgets : string -> option num) (st : option session_state)
    : session_state :=
  let st0 := match st with
             | Some s => s
             | None => {| risk_weights := initial_risk_weights;
                          safety_weights := initial_safety_weights |}
             end in
  {| risk_weights := sliders widgets "risk_" risk_factors (risk_weights st0);
     safety_weights := sliders widgets "safety_" safety_factors (safety_weights st0) |}.

(** [{k: v / total if total > 0 else 0 for k, v in weights.items()}]
    with [total = sum(weights.values())]. *)
Definition norm_weights (weights : dict) : dict :=
  let total := sum (values weights) in
  map (fun kv => (fst kv, if flt zero total then fdiv (snd kv) total else zero))
      weights.

Definition norm_risk_weights (st : session_state) : dict :=
  norm_weights (risk_weights st).

Definition norm_safety_weights (st : session_state) : dict :=
  norm_weights (safety_weights st).

(** Every raw weight of a mapping multiplied by the constant [c]. *)
Definition scale_weights (c : num) (weights : dict) : dict :=
  map (fun kv => (fst kv, fmul (snd kv) c)) weights.

(** One term of the generator: [gdf[factor].fillna(0) * weight]. *)
Definition term (gdf : DataFrame) (factor : string) (weight : num) : result (list num) :=
  s ← numeric gdf factor;
  Ok (map (fun x => fmul x weight) (fillna_series s)).

(** [sum(gdf[factor].fillna(0) * weight for factor, weight in norm.items())] *)
Definition weighted_sum (gdf : DataFrame) (norm : dict) : result value :=
  foldM (fun acc kv => t ← term gdf (fst kv) (snd kv); Ok (add_value acc (Ser t)))
        (Scalar zero) norm.

(** The three assignments of tab 1. *)
Definition scores (gdf : DataFrame) (st : session_state) : result DataFrame :=
  risk ← weighted_sum gdf (norm_risk_weights st);
  let gdf1 := assign gdf "총위험도" risk in
  safety ← weighted_sum gdf1 (norm_safety_weights st);
  let gdf2 := assign gdf1 "총안전도" safety in
  a ← numeric gdf2 "총위험도";
  b ← numeric gdf2 "총안전도";
  Ok (setitem gdf2 "순위험도" (NumCol (zip_with fsub a b))).

(** The score columns of one district (row [i]) of a frame. *)
Definition cell (df : DataFrame) (name : string) (i : nat) : option num :=
  match numeric df name with
  | Ok s => s !! i
  | Raise _ => None
  end.

(** ** The ranking tables of tab 1 and tab 2 *)

(** Tab 1: [display_df = gdf[[...]]], sorted by the net score from the
    highest when the checkbox [sort_enabled] is ticked, shown as it is
    otherwise.  [shown] is a table that [st.dataframe] may receive. *)
Definition tab1_columns : list string :=
  ["행정동"; "순위험도"; "총위험도"; "총안전도"].

Definition tab1_ranking (sort_enabled : bool) (gdf shown : DataFrame) : Prop :=
  exists display_df,
    select_columns gdf tab1_columns = Ok display_df /\
    if sort_enabled then sort_values display_df "순위험도" false shown
    else shown = display_df.

(** Tab 2: [gdf[selected_column] = gdf[selected_column].fillna(0)], then
    [gdf[['행정동', selected_column]].sort_values(by=selected_column,
    ascending=False)].  There is no checkbox in this tab. *)
Definition tab2_fillna (gdf : DataFrame) (selected_column : string) : result DataFrame :=
  c ← getitem gdf selected_column;
  Ok (setitem gdf selected_column (fillna_column c)).

Definition tab2_display (gdf : DataFrame) (selected_column : string) : result DataFrame :=
  gdf' ← tab2_fillna gdf selected_column;
  select_columns gdf' ["행정동"; selected_column].

Definition tab2_ranking (selected_column : string) (gdf shown : DataFrame) : Prop :=
  exists display_df,
    tab2_display gdf selected_column = Ok display_df /\
    sort_values display_df selected_column false shown.

(** The two ranking tables under one name: the net-score ranking of tab 1
    and the ranking by a selected factor of tab 2, with the state of the
    checkbox of tab 1. *)
Inductive ranking_view : Type :=
| NetScore
| Factor (selected_column : string).

Definition ranking (v : ranking_view) (sort_enabled : bool) (gdf shown : DataFrame) : Prop :=
  match v with
  | NetScore => tab1_ranking sort_enabled gdf shown
  | Factor c => tab2_ranking c gdf shown
  end.

(** The table of a view in the frame's own row order. *)
Definition natural_order (v : ranking_view) (gdf : DataFrame) : result DataFrame :=
  match v with
  | NetScore => select_columns gdf tab1_columns
  | Factor c => tab2_display gdf c
  end.

(** [shown] holds the rows of [df], each once, in some order. *)
Definition rows_permuted (df shown : DataFrame (num := num)) : Prop :=
  exists idx, Permutation idx (seq 0 (nrows df)) /\ shown = take_rows idx df.

(** Every value is at least the next one; a NaN is followed by NaN only. *)
Definition descending_nan_last (key : list num) : Prop :=
  forall i x y, key !! i = Some x -> key !! S i = Some y ->
    (isna x = true -> isna y = true) /\
    (isna y = false -> isna x = false /\ fle y x = true).

Definition descending (key : list num) : Prop :=
  forall i x y, key !! i = Some x -> key !! S i = Some y -> fle y x = true.

End Scoring.
End App.
Import App.

(** The builtin [sum] on floats in CPython 3.12 and later (Neumaier's
    compensated summation): the running total [s] is the same sequence of
    additions as in [sum], the rounding error of each addition is collected
    in [c], and [c] is added at the end when it is finite and not zero. *)
Definition compensated_step
    (sc : spec_float * spec_float) (x : spec_float) : spec_float * spec_float :=
  let t := fadd (fst sc) x in
  let e := if SFleb (SFabs x) (SFabs (fst sc))
           then fadd (fsub (fst sc) t) x
           else fadd (fsub x t) (fst sc) in
  (t, fadd (snd sc) e).

Definition sum_compensated (l : list spec_float) : spec_float :=
  let sc := fold_left compensated_step l (zero, zero) in
  if negb (B64.is_zero (snd sc)) && B64.is_finite (snd sc)
  then fadd (fst sc) (snd sc)
  else fst sc.

(* ===================================================================== *)
(** * app2.py: the loaders and the script from top to bottom *)
(* ===================================================================== *)

Module Script.

(** What the script writes on the page, in order. *)
Inductive message : Type :=
| MascotNotFound            (* the mascot image file is not there *)
| DataFileError (e : exn)   (* [load_data]: "데이터 파일 로딩 오류: {e}..." *)
| MapWithoutAdmNm           (* [load_data]: no ['adm_nm'] column in the map *)
| TrendFileError (e : exn)  (* [load_trend_data] *)
| DashboardUnavailable      (* "대시보드 데이터를 불러올 수 없습니다..." *)
| TrendUnavailable          (* "범죄 동향 데이터를 불러올 수 없습니다" *)
| CorrFileNotFound.         (* [load_correlation_data] *)

Inductive part : Type :=
| Mascot | Tab1 | Tab2 | Tab3 | Tab4 | OverviewText | OverviewCharts | CorrTab.

Inductive element : Type :=
| st_error (m : message)
| st_warning (m : message)
| drawn (p : part).          (* the modelled steps of this part have run to their end *)

(** A step of the script: what it has written, and its value or the
    exception that stopped it.  An exception that nothing catches stops
    the script: what was written stays, nothing more is written. *)
Definition ui (A : Type) : Type := (list element * result A)%type.

Definition ret {A} (a : A) : ui A := ([], Ok a).

Definition lift {A} (r : result A) : ui A := ([], r).

Definition emit (e : element) : ui unit := ([e], Ok tt).

Definition ui_bind {A B} (m : ui A) (k : A -> ui B) : ui B :=
  match m with
  | (log, Ok a) => let (log', r) := k a in (app log log', r)
  | (log, Raise e) => (log, Raise e)
  end.

(** [try: body  except FileNotFoundError as e: handler(e)] *)
Definition try_except_file_not_found {A} (body : ui A) (handler : exn -> ui A) : ui A :=
  match body with
  | (log, Raise (FileNotFoundError path)) =>
      let (log', r) := handler (FileNotFoundError path) in (app log log', r)
  | _ => body
  end.

End Script.

Notation "'let*' x ':=' m 'in' k" := (Script.ui_bind m (fun x => k))
  (at level 10, x name, m at level 100, k at level 200, only parsing).

Module Loaders.
Import Script.
Section Run.
Context {num : Type} `{Arith num}.

(** The files next to the script, [None] when a file is not there, and
    the exception that the installed geopandas raises for a path that does
    not exist. *)
Record Files : Type := {
  mascot_png : option unit;                 (* 대구경찰마스코트.png *)
  daegu_crime_data_csv : option (DataFrame (num := num)); (* daegu_crime_data.csv *)
  daegu_map_geojson : option (DataFrame (num := num));    (* daegu_map.geojson *)
  trend_xlsx : option (DataFrame (num := num));           (* 범죄율 증감.xlsx *)
  corr_csv : option (DataFrame (num := num));             (* 인구수범죄수상관관계.csv *)
  read_file_missing : string -> exn
}.

(** The state of the widgets: slider positions by key, the checkbox of
    tab 1, the two select boxes. *)
Record Widgets : Type := {
  slider_positions : string -> option num;
  sort_enabled : bool;
  individual_selection : option string;
  sort_corr : option string
}.

Definition mascot (fs : Files) : ui unit :=
  try_except_file_not_found
    (let* _ := lift (match mascot_png fs with
                     | Some _ => Ok tt
                     | None => Raise (FileNotFoundError "대구경찰마스코트.png")
                     end) in
     emit (drawn Mascot))
    (fun _ => emit (st_warning MascotNotFound)).

Definition load_data (fs : Files) : ui (option DataFrame) :=
  try_except_file_not_found
    (let* crime_data := lift (read (daegu_crime_data_csv fs) "daegu_crime_data.csv") in
     let crime_data := fillna_frame crime_data in
     let* dong := lift (getitem crime_data "행정동") in
     let crime_data := boolean_index crime_data (ne_str dong "소계") in
     let* daegu_map :=
       lift (read_file (read_file_missing fs) (daegu_map_geojson fs)
                       "daegu_map.geojson") in
     if existsb (String.eqb "adm_nm") (columns daegu_map) then
       let* adm_nm := lift (getitem daegu_map "adm_nm") in
       let* key := lift (str_split_last adm_nm) in
       let daegu_map := setitem daegu_map "행정동_키" (StrCol key) in
       let* merged_data := lift (merge daegu_map crime_data "행정동_키" "행정동") in
       ret (Some merged_data)
     else
       let* _ := emit (st_error MapWithoutAdmNm) in
       ret None)
    (fun e =>
       let* _ := emit (st_error (DataFileError e)) in
       ret None).

Definition load_trend_data (fs : Files) : ui (option DataFrame) :=
  try_except_file_not_found
    (let* trend_df := lift (read (trend_xlsx fs) "범죄율 증감.xlsx") in
     let* trend_df := lift (rename_first trend_df "분기") in
     ret (Some trend_df))
    (fun e =>
       let* _ := emit (st_error (TrendFileError e)) in
       ret None).

(** One rank column: [df[name].rank(method='min', ascending=False).astype(int)]. *)
Definition rank_column (df : DataFrame) (name : string) : result column :=
  s ← numeric df name;
  r ← rank_as_int s;
  Ok (NumCol (map of_Z r)).

Definition load_correlation_data (fs : Files) : ui DataFrame :=
  try_except_file_not_found
    (let* df := lift (read (corr_csv fs) "인구수범죄수상관관계.csv") in
     let* crime_df := lift (iloc_columns df [0; 1]%nat) in
     let crime_df := rename (dropna crime_df)
                            [("지역", "지역"); ("범죄발생수", "범죄발생수")] in
     let* pop_df := lift (iloc_columns df [3; 4]%nat) in
     let pop_df := rename (dropna pop_df)
                          [("지역.1", "지역"); ("인구수", "인구수")] in
     let* crime := lift (c ← getitem crime_df "범죄발생수"; to_numeric c) in
     let crime_df := setitem crime_df "범죄발생수" (NumCol crime) in
     let* pop := lift (c ← getitem pop_df "인구수"; to_numeric c) in
     let pop_df := setitem pop_df "인구수" (NumCol pop) in
     let* merged_df := lift (merge crime_df pop_df "지역" "지역") in
     let* crime_rank := lift (rank_column merged_df "범죄발생수") in
     let merged_df := setitem merged_df "범죄발생수 순위" crime_rank in
     let* pop_rank := lift (rank_column merged_df "인구수") in
     let merged_df := setitem merged_df "인구수 순위" pop_rank in
     ret merged_df)
    (fun _ =>
       let* _ := emit (st_error CorrFileNotFound) in
       ret []).

(** Tab 1: sliders, the three score columns, the ranking table, the
    correlation with the crime count.  These are the steps of the tab on
    the table; the plotting calls between them ([px.choropleth_mapbox],
    [Styler.format], [px.scatter] with its OLS trend line) are library
    code that is not modelled and that can raise on its own (the OLS fit
    does on an infinite score), so [drawn Tab1] marks that the table steps
    have passed, not that the charts are on the page.  The same holds for
    [drawn Tab2]. *)
Definition tab1 (w : Widgets) (st : option session_state) (gdf : DataFrame)
    : ui DataFrame :=
  let st := col_sidebar (slider_positions w) st in
  let* gdf := lift (scores gdf st) in
  let* _ := lift (select_columns gdf tab1_columns) in
  let* _ := lift (numeric gdf "범죄발생수(유동인구기준)") in
  let* _ := emit (drawn Tab1) in
  ret gdf.

(** Tab 2: the selected factor, first option by default. *)
Definition selected_column (w : Widgets) : string :=
  match individual_selection w with
  | Some c => c
  | None => "치안기관"
  end.

Definition tab2 (w : Widgets) (gdf : DataFrame) : ui DataFrame :=
  let* gdf := lift (tab2_fillna gdf (selected_column w)) in
  let* _ := lift (select_columns gdf ["행정동"; selected_column w]) in
  let* _ := lift (numeric gdf (selected_column w)) in
  let* _ := emit (drawn Tab2) in
  ret gdf.

(** The overview tab: text, then two line charts of the trend table. *)
Definition require_column (df : DataFrame (num := num)) (name : string) : result unit :=
  match get df name with
  | Some _ => Ok tt
  | None => Raise ValueError
  end.

Definition tab_overview (trend_df : option DataFrame) : ui unit :=
  let* _ := emit (drawn OverviewText) in
  match trend_df with
  | Some trend_df =>
      let* _ := lift (require_column trend_df "전년동분기 대비 발생건수 증감(건)") in
      let* quarter := lift (getitem trend_df "분기") in
      let* mask := lift (ge_str quarter "2024 2분기") in
      let trend_df_filtered := boolean_index trend_df mask in
      let* _ := lift (require_column trend_df_filtered "발생건수대비 검거건수(%)") in
      emit (drawn OverviewCharts)
  | None => emit (st_error TrendUnavailable)
  end.

Definition corr_columns : list string :=
  ["지역"; "인구수"; "인구수 순위"; "범죄발생수"; "범죄발생수 순위"].

Definition tab_corr (fs : Files) (w : Widgets) : ui unit :=
  let* corr_df := load_correlation_data fs in
  if negb (empty corr_df) then
    let* _ := lift (select_columns corr_df corr_columns) in
    emit (drawn CorrTab)
  else ret tt.

(** The script, top to bottom. *)
Definition dashboard (w : Widgets) (st : option session_state)
    (gdf : option DataFrame) : ui unit :=
  match gdf with
  | Some g =>
      if negb (empty g) then
        let* g := tab1 w st g in
        let* _ := tab2 w g in
        let* _ := emit (drawn Tab3) in
        emit (drawn Tab4)
      else emit (st_error DashboardUnavailable)
  | None => emit (st_error DashboardUnavailable)
  end.

Definition script (fs : Files) (w : Widgets) (st : option session_state) : ui unit :=
  let* _ := mascot fs in
  let* gdf := load_data fs in
  let* trend_df := load_trend_data fs in
  let* _ := dashboard w st gdf in
  let* _ := tab_overview trend_df in
  tab_corr fs w.

End Run.
End Loaders.
Import Script Loaders.

(* ===================================================================== *)
(** * app2.py: names for further parts of the script *)
(* ===================================================================== *)

Module Views.

(** [selectable_columns = safety_factors + risk_factors], the options of
    the select box of tab 2. *)
Definition selectable_columns : list string := (safety_factors ++ risk_factors)%list.

(** A quarter label that is not before ["2024 2분기"] in code-point order:
    the test [trend_df['분기'] >= '2024 2분기'] on one cell that holds text. *)
Definition from_2024_q2 (x : option string) : bool :=
  match x with
  | Some y => negb (String.ltb y "2024 2분기")
  | None => false
  end.

Section Defs.
Context {num : Type} `{Arith num}.

(** [name in df.columns] *)
Definition has_column (df : DataFrame (num := num)) (name : string) : bool :=
  existsb (String.eqb name) (columns df).

(** [weights.get(factor, 0.1)] *)
Definition get_or_default (weights : dict (num := num)) (factor : string) : num :=
  match dict_get weights factor with Some v => v | None => dec 1 10 end.

(** A weight inside the range of the sliders, [0.0 <= v <= 0.5];
    [st.slider] refuses a default that is outside. *)
Definition in_slider_range (v : num) : bool := fle zero v && fle v (dec 5 10).

(** The weights a run of the sidebar starts from: those of the session,
    or the initial ones when the session holds none yet. *)
Definition previous_state (st : option (session_state (num := num)))
    : session_state :=
  match st with
  | Some s => s
  | None => {| risk_weights := initial_risk_weights;
               safety_weights := initial_safety_weights |}
  end.

(** The terms that Python's [sum] adds up for one district (row [i]): for
    every factor of the mapping, in its order, the factor value with NaN
    read as 0, times the weight. *)
Definition row_terms (gdf : DataFrame (num := num)) (norm : dict (num := num))
    (i : nat) : list num :=
  omap (fun kv => (fun x => fmul (fillna0 x) (snd kv)) <$> cell gdf (fst kv) i) norm.

(** [trend_df_filtered = trend_df[trend_df['분기'] >= '2024 2분기']] *)
Definition trend_df_filtered (trend_df : DataFrame (num := num)) : result DataFrame :=
  quarter ← getitem trend_df "분기";
  mask ← ge_str quarter "2024 2분기";
  Ok (boolean_index trend_df mask).

(** The layout of 인구수범죄수상관관계.csv that [load_correlation_data]
    reads, by position and then by name: region and crime count, a spare
    column, region and population. *)
Definition corr_layout (df : DataFrame (num := num)) : Prop :=
  exists region crime spare region1 pop rest,
    df = ("지역", StrCol region) :: ("범죄발생수", NumCol crime) :: spare
         :: ("지역.1", StrCol region1) :: ("인구수", NumCol pop) :: rest.

(** The table of the correlation tab:
    [corr_df[[...]].sort_values(by=sort_by).reset_index(drop=True)]
    ([reset_index] renumbers the rows and leaves the cells as they are).
    [shown] is a table that [st.dataframe] may receive. *)
Definition corr_display (sort_by : string) (corr_df shown : DataFrame (num := num))
    : Prop :=
  exists display_df,
    select_columns corr_df corr_columns = Ok display_df /\
    sort_values display_df sort_by true shown.

End Defs.
End Views.
Import Views.

(* ===================================================================== *)
(** * Concrete tables and weights used in examples *)
(* ===================================================================== *)

Module Examples.

Definition A_B : column (num := spec_float) := StrCol [Some "A"; Some "B"].

(** Two districts and one safety factor, in increasing order of the factor. *)
Definition factor_gdf : DataFrame (num := spec_float) :=
  [("행정동", A_B); ("치안기관", NumCol [of_Z 1; of_Z 2])].

Definition factor_sorted : DataFrame (num := spec_float) :=
  [("행정동", StrCol [Some "B"; Some "A"]); ("치안기관", NumCol [of_Z 2; of_Z 1])].

(** The end-to-end example of the specification: districts A and B, two
    risk factors with raw weight 1 each, no safety factor. *)
Definition spec_gdf : DataFrame (num := spec_float) :=
  [("행정동", A_B);
   ("risk1", NumCol [of_Z 10; of_Z 0]);
   ("risk2", NumCol [of_Z 0; of_Z 10])].

Definition spec_state : session_state (num := spec_float) :=
  {| risk_weights := [("risk1", of_Z 1); ("risk2", of_Z 1)];
     safety_weights := [] |}.

(** The weights the script starts from. *)
Definition initial_state : session_state (num := spec_float) :=
  {| risk_weights := initial_risk_weights;
     safety_weights := initial_safety_weights |}.

(** One district whose population figure is infinite, and the risk
    sliders of that factor at 0. *)
Definition inf_gdf : DataFrame (num := spec_float) :=
  [("행정동", StrCol [Some "A"]); ("등록인구", NumCol [S754_infinity false])].

Definition zero_weights : dict (num := spec_float) := [("등록인구", zero)].

(** One district with a missing value. *)
Definition nan_gdf : DataFrame (num := spec_float) :=
  [("행정동", A_B); ("risk1", NumCol [S754_nan; of_Z 4])].

Definition half_weight : dict (num := spec_float) := [("risk1", dec 1 2)].

(** A finite population column for the zero-weight case. *)
Definition pop_gdf : DataFrame (num := spec_float) :=
  [("행정동", A_B); ("등록인구", NumCol [of_Z 7; S754_nan])].

(** Two districts, the population of the first one infinite. *)
Definition mixed_gdf : DataFrame (num := spec_float) :=
  [("행정동", A_B); ("등록인구", NumCol [S754_infinity false; of_Z 7])].


(** geopandas reading with pyogrio, its default engine: a path that does
    not exist is reported as pyogrio's [DataSourceError]. *)
Definition pyogrio_missing (path : string) : exn := OtherError "DataSourceError".

(** No file at all next to the script. *)
Definition no_files : Files (num := spec_float) :=
  {| mascot_png := None; daegu_crime_data_csv := None;
     daegu_map_geojson := None; trend_xlsx := None; corr_csv := None;
     read_file_missing := pyogrio_missing |}.

Definition no_widgets : Widgets (num := spec_float) :=
  {| slider_positions := fun _ => None; sort_enabled := false;
     individual_selection := None; sort_corr := None |}.

(** The correlation file: crime counts of a, b, c, d, an empty column,
    populations of b, a, d, c (the last one missing). *)
Definition corr_table : DataFrame (num := spec_float) :=
  [("지역", StrCol [Some "a"; Some "b"; Some "c"; Some "d"]);
   ("범죄발생수", NumCol [of_Z 5; of_Z 7; of_Z 7; of_Z 1]);
   ("Unnamed: 2", StrCol [None; None; None; None]);
   ("지역.1", StrCol [Some "b"; Some "a"; Some "d"; Some "c"]);
   ("인구수", NumCol [of_Z 50; of_Z 10; of_Z 50; S754_nan])].

Definition trend_table : DataFrame (num := spec_float) :=
  [("Unnamed: 0", StrCol [Some "2024 1분기"; Some "2024 2분기"]);
   ("전년동분기 대비 발생건수 증감(건)", NumCol [of_Z 12; of_Z 30]);
   ("발생건수대비 검거건수(%)", NumCol [of_Z 75; of_Z 72])].

(** The crime file has lost its ['행정동'] column; every other file is
    in place. *)
Definition no_dong_files : Files (num := spec_float) :=
  {| mascot_png := Some tt;
     daegu_crime_data_csv := Some [("등록인구", NumCol [of_Z 7])];
     daegu_map_geojson := Some [("adm_nm", StrCol [Some "대구광역시 중구 동인동"])];
     trend_xlsx := Some trend_table;
     corr_csv := Some corr_table;
     read_file_missing := pyogrio_missing |}.

(** The map file is not there; every other file is in place. *)
Definition no_map_files : Files (num := spec_float) :=
  {| mascot_png := Some tt;
     daegu_crime_data_csv :=
       Some [("행정동", StrCol [Some "동인동"]); ("등록인구", NumCol [of_Z 7])];
     daegu_map_geojson := None;
     trend_xlsx := Some trend_table;
     corr_csv := Some corr_table;
     read_file_missing := pyogrio_missing |}.

Definition corr_files : Files (num := spec_float) :=
  {| mascot_png := None; daegu_crime_data_csv := None;
     daegu_map_geojson := None; trend_xlsx := None;
     corr_csv := Some corr_table;
     read_file_missing := pyogrio_missing |}.

Definition corr_merged : DataFrame (num := spec_float) :=
  Eval vm_compute in
    match load_correlation_data corr_files with
    | (_, Ok df) => df
    | (_, Raise _) => []
    end.

End Examples.

(** Further tables and weights, for the statements about the rest of the
    script. *)
Module MoreExamples.
Import Examples.

(** The districts A and B of [spec_gdf] with their three score columns. *)
Definition spec_scored : DataFrame (num := spec_float) :=
  Eval vm_compute in
    match scores spec_gdf spec_state with
    | Ok df => df
    | Raise _ => []
    end.

(** A risk weight for a factor that [spec_gdf] does not have. *)
Definition missing_state : session_state (num := spec_float) :=
  {| risk_weights := [("risk1", of_Z 1); ("population", of_Z 1)];
     safety_weights := [] |}.

(** Two districts with every factor column of the script and the crime
    count. *)
Definition full_gdf : DataFrame (num := spec_float) :=
  Eval vm_compute in
    ("행정동", A_B) :: ("범죄발생수(유동인구기준)", NumCol [of_Z 3; of_Z 1])
    :: map (fun f => (f, NumCol [of_Z 1; of_Z 2])) selectable_columns.

(** A crime file with one district and the subtotal row, and a map with
    that district. *)
Definition daegu_files : Files (num := spec_float) :=
  {| mascot_png := Some tt;
     daegu_crime_data_csv :=
       Some [("행정동", StrCol [Some "동인동"; Some "소계"]);
             ("등록인구", NumCol [of_Z 7; of_Z 99])];
     daegu_map_geojson := Some [("adm_nm", StrCol [Some "대구광역시 중구 동인동"])];
     trend_xlsx := Some trend_table;
     corr_csv := Some corr_table;
     read_file_missing := pyogrio_missing |}.

Definition daegu_merged : DataFrame (num := spec_float) :=
  Eval vm_compute in
    match load_data daegu_files with
    | (_, Ok (Some df)) => df
    | _ => []
    end.

(** The crime file names a district that the map does not have. *)
Definition mismatch_crime : DataFrame (num := spec_float) :=
  [("행정동", StrCol [Some "삼덕동"]); ("등록인구", NumCol [of_Z 7])].

Definition mismatch_map : DataFrame (num := spec_float) :=
  [("adm_nm", StrCol [Some "대구광역시 중구 동인동"])].

Definition mismatch_files : Files (num := spec_float) :=
  {| mascot_png := Some tt;
     daegu_crime_data_csv := Some mismatch_crime;
     daegu_map_geojson := Some mismatch_map;
     trend_xlsx := Some trend_table;
     corr_csv := Some corr_table;
     read_file_missing := pyogrio_missing |}.

(** [trend_table] as [load_trend_data] returns it. *)
Definition trend_loaded : DataFrame (num := spec_float) :=
  Eval vm_compute in rename trend_table [("Unnamed: 0", "분기")].

(** A correlation file that has lost its population columns. *)
Definition narrow_table : DataFrame (num := spec_float) :=
  [("지역", StrCol [Some "a"]); ("범죄발생수", NumCol [of_Z 5])].

Definition narrow_files : Files (num := spec_float) :=
  {| mascot_png := None; daegu_crime_data_csv := None;
     daegu_map_geojson := None; trend_xlsx := None;
     corr_csv := Some narrow_table;
     read_file_missing := pyogrio_missing |}.

(** The correlation table of [corr_merged] as shown when it is sorted by
    the population rank. *)
Definition corr_shown : DataFrame (num := spec_float) :=
  Eval vm_compute in
    match select_columns corr_merged corr_columns with
    | Ok display_df =>
        match numeric display_df "인구수 순위" with
        | Ok key => take_rows (argsort true key) display_df
        | Raise _ => []
        end
    | Raise _ => []
    end.

End MoreExamples.

(* ===================================================================== *)
(** * Proofs *)
(* ===================================================================== *)

(** ** Frames: reading back what was assigned *)

Section FrameLemmas.
Context {num : Type} `{Arith num}.
Implicit Types (df gdf : DataFrame (num := num)) (c : column (num := num)).

Lemma get_setitem_eq df name c : get (setitem df name c) name = Some c.
Proof.
  induction df as [|[n c0] df IH]; simpl.
  - now rewrite String.eqb_refl.
  - destruct (String.eqb n name) eqn:E; simpl; rewrite E; auto.
Qed.

Lemma get_setitem_ne df name name' c :
  name <> name' -> get (setitem df name c) name' = get df name'.
Proof.
  intros Hne. induction df as [|[n c0] df IH]; simpl.
  - destruct (String.eqb name name') eqn:E; auto.
    apply String.eqb_eq in E. contradiction.
  - destruct (String.eqb n name) eqn:E; simpl.
    + apply String.eqb_eq in E. subst n.
      destruct (String.eqb name name') eqn:E'; auto.
      apply String.eqb_eq in E'. contradiction.
    + now rewrite IH.
Qed.

Lemma nrows_setitem df name c :
  col_len c = nrows df -> nrows (setitem df name c) = nrows df.
Proof.
  destruct df as [|[n c0] df]; simpl; auto.
  destruct (String.eqb n name); simpl; auto.
Qed.

Lemma In_setitem df name c n' c' :
  In (n', c') (setitem df name c) -> (n', c') = (name, c) \/ In (n', c') df.
Proof.
  induction df as [|[n c0] df IH]; simpl.
  - intros [Heq|[]]. left. now symmetry.
  - destruct (String.eqb n name) eqn:E.
    + apply String.eqb_eq in E. subst n.
      intros [Heq|Hin]; [left; now symmetry|right; now right].
    + intros [Heq|Hin]; [right; now left|].
      destruct (IH Hin) as [Heq|Hin']; [now left|right; now right].
Qed.

Lemma wf_setitem df name c :
  wf_frame df -> col_len c = nrows df -> wf_frame (setitem df name c).
Proof.
  intros Hwf Hc n' c' Hin. rewrite nrows_setitem by assumption.
  apply In_setitem in Hin as [[= -> ->]|Hin]; [assumption|].
  now apply (Hwf n' c').
Qed.

Lemma numeric_get df name s :
  numeric df name = Ok s <-> get df name = Some (NumCol s).
Proof.
  unfold numeric, getitem. destruct (get df name) as [[s'|s']|]; simpl;
    split; intros Heq; try discriminate; now inversion Heq.
Qed.

Lemma get_In df name c : get df name = Some c -> In (name, c) df.
Proof.
  induction df as [|[n c0] df IH]; simpl; [discriminate|].
  destruct (String.eqb n name) eqn:E.
  - apply String.eqb_eq in E. intros [= <-]. left. now subst.
  - intros Hg. right. auto.
Qed.

Lemma wf_numeric_length df name s :
  wf_frame df -> numeric df name = Ok s -> length s = nrows df.
Proof.
  intros Hwf Hn. apply numeric_get, get_In in Hn. now apply Hwf in Hn.
Qed.

End FrameLemmas.

(** ** The weighted sum always has the shape of the frame *)

Section ScoreLemmas.
Context {num : Type} `{Arith num}.
Implicit Types (df gdf : DataFrame (num := num)) (d norm : dict (num := num)).
Implicit Types (v acc : value (num := num)).

Lemma series_of_length n v : value_rows n v -> length (series_of n v) = n.
Proof. destruct v; simpl; [intros _; apply length_replicate|auto]. Qed.

Lemma norm_weights_keys d : map fst (norm_weights d) = map fst d.
Proof. unfold norm_weights. rewrite map_map. reflexivity. Qed.

Lemma term_ok gdf factor weight s :
  numeric gdf factor = Ok s ->
  term gdf factor weight = Ok (map (fun x => fmul x weight) (fillna_series s)).
Proof. unfold term. intros ->. reflexivity. Qed.

Lemma add_value_rows n acc t :
  value_rows n acc -> length t = n -> value_rows n (add_value acc (Ser t)).
Proof.
  destruct acc as [x|s]; simpl; intros Hacc Ht.
  - now rewrite length_map.
  - rewrite length_zip_with. lia.
Qed.

Lemma foldM_weighted_ok gdf norm acc :
  wf_frame gdf ->
  (forall f, In f (map fst norm) -> exists s, get gdf f = Some (NumCol s)) ->
  value_rows (nrows gdf) acc ->
  exists v,
    foldM (fun acc kv => t ← term gdf (fst kv) (snd kv); Ok (add_value acc (Ser t)))
          acc norm = Ok v
    /\ value_rows (nrows gdf) v.
Proof.
  intros Hwf. revert acc. induction norm as [|[k w] norm IH]; intros acc Hcols Hacc.
  - exists acc. split; [reflexivity|assumption].
  - destruct (Hcols k) as [s Hs]; [now left|].
    apply numeric_get in Hs. simpl.
    rewrite (term_ok _ _ _ _ Hs). simpl.
    apply IH.
    + intros f Hf. apply Hcols. now right.
    + apply add_value_rows; [assumption|].
      unfold fillna_series. rewrite !length_map.
      now apply wf_numeric_length with (name := k).
Qed.

Lemma weighted_sum_ok gdf norm :
  wf_frame gdf ->
  (forall f, In f (map fst norm) -> exists s, get gdf f = Some (NumCol s)) ->
  exists v, weighted_sum gdf norm = Ok v /\ value_rows (nrows gdf) v.
Proof.
  intros Hwf Hcols. unfold weighted_sum.
  now apply foldM_weighted_ok.
Qed.

Lemma assign_get gdf name v :
  get (assign gdf name v) name = Some (NumCol (series_of (nrows gdf) v)).
Proof. unfold assign. rewrite get_setitem_eq. now destruct v. Qed.

Lemma assign_wf gdf name v :
  wf_frame gdf -> value_rows (nrows gdf) v -> wf_frame (assign gdf name v).
Proof.
  intros Hwf Hv. unfold assign. apply wf_setitem; [assumption|].
  destruct v; simpl in *; [apply length_replicate|assumption].
Qed.

Lemma assign_nrows gdf name v :
  value_rows (nrows gdf) v -> nrows (assign gdf name v) = nrows gdf.
Proof.
  intros Hv. unfold assign. apply nrows_setitem.
  destruct v; simpl in *; [apply length_replicate|assumption].
Qed.

Lemma assign_keeps_numeric gdf name v f :
  (exists s, get gdf f = Some (NumCol s)) ->
  exists s, get (assign gdf name v) f = Some (NumCol s).
Proof.
  intros [s Hs]. destruct (String.eqb name f) eqn:E.
  - apply String.eqb_eq in E. subst f. rewrite assign_get. eauto.
  - apply String.eqb_neq in E. unfold assign.
    rewrite get_setitem_ne by assumption. eauto.
Qed.

(** What [scores] returns, column by column. *)
Lemma scores_columns gdf st :
  wf_frame gdf ->
  (forall f, In f (map fst (risk_weights st) ++ map fst (safety_weights st)) ->
             exists s, get gdf f = Some (NumCol s)) ->
  exists risk safety gdf',
    weighted_sum gdf (norm_risk_weights st) = Ok risk /\
    weighted_sum (assign gdf "총위험도" risk) (norm_safety_weights st) = Ok safety /\
    scores gdf st = Ok gdf' /\
    let a := series_of (nrows gdf) risk in
    let b := series_of (nrows gdf) safety in
    length a = nrows gdf /\ length b = nrows gdf /\
    numeric gdf' "총위험도" = Ok a /\
    numeric gdf' "총안전도" = Ok b /\
    numeric gdf' "순위험도" = Ok (zip_with fsub a b).
Proof.
  intros Hwf Hcols.
  destruct (weighted_sum_ok gdf (norm_risk_weights st) Hwf) as (risk & Hrisk & Hrows).
  { intros f Hf. apply Hcols, in_or_app. left.
    unfold norm_risk_weights in Hf. now rewrite norm_weights_keys in Hf. }
  set (gdf1 := assign gdf "총위험도" risk).
  assert (Hwf1 : wf_frame gdf1) by now apply assign_wf.
  assert (Hn1 : nrows gdf1 = nrows gdf) by now apply assign_nrows.
  destruct (weighted_sum_ok gdf1 (norm_safety_weights st) Hwf1) as (safety & Hsafety & Hrows2).
  { intros f Hf. apply assign_keeps_numeric, Hcols, in_or_app. right.
    unfold norm_safety_weights in Hf. now rewrite norm_weights_keys in Hf. }
  set (gdf2 := assign gdf1 "총안전도" safety).
  assert (Ha : numeric gdf2 "총위험도" = Ok (series_of (nrows gdf) risk)).
  { apply numeric_get. unfold gdf2, assign at 1.
    rewrite get_setitem_ne by (intros Heq; discriminate Heq).
    apply assign_get. }
  assert (Hb : numeric gdf2 "총안전도" = Ok (series_of (nrows gdf) safety)).
  { apply numeric_get. unfold gdf2. rewrite assign_get. now rewrite Hn1. }
  exists risk, safety. eexists. split; [exact Hrisk|]. split; [exact Hsafety|].
  split.
  { unfold scores. rewrite Hrisk. simpl. fold gdf1. rewrite Hsafety. simpl.
    fold gdf2. rewrite Ha, Hb. simpl. reflexivity. }
  simpl. rewrite Hn1 in Hrows2.
  repeat split.
  - now apply series_of_length.
  - now apply series_of_length.
  - apply numeric_get. rewrite get_setitem_ne by (intros Heq; discriminate Heq).
    now apply numeric_get.
  - apply numeric_get. rewrite get_setitem_ne by (intros Heq; discriminate Heq).
    now apply numeric_get.
  - apply numeric_get. apply get_setitem_eq.
Qed.

End ScoreLemmas.

(** C1.  Net score = total risk - total safety.  For every frame whose
    factor columns exist and every pair of weight mappings, [scores]
    returns a frame, and in every row of it the net-score cell is exactly
    the total-risk cell minus the total-safety cell. *)
Theorem net_score_is_risk_minus_safety
    {num : Type} `{Arith num} (gdf : DataFrame) (st : session_state) :
  wf_frame gdf ->
  (forall f, In f (map fst (risk_weights st) ++ map fst (safety_weights st)) ->
             exists s, get gdf f = Some (NumCol s)) ->
  exists gdf',
    scores gdf st = Ok gdf' /\
    forall i, (i < nrows gdf)%nat ->
      exists r s,
        cell gdf' "총위험도" i = Some r /\
        cell gdf' "총안전도" i = Some s /\
        cell gdf' "순위험도" i = Some (fsub r s).
Proof.
  intros Hwf Hcols.
  destruct (scores_columns gdf st Hwf Hcols)
    as (risk & safety & gdf' & _ & _ & Hscores & Hla & Hlb & Ha & Hb & Hnet).
  exists gdf'. split; [assumption|]. intros i Hi.
  destruct (lookup_lt_is_Some_2 (series_of (nrows gdf) risk) i) as [r Hr]; [lia|].
  destruct (lookup_lt_is_Some_2 (series_of (nrows gdf) safety) i) as [s Hs]; [lia|].
  exists r, s. unfold cell. rewrite Ha, Hb, Hnet.
  repeat split; [assumption|assumption|].
  rewrite lookup_zip_with, Hr, Hs. reflexivity.
Qed.

(** ** Normalised weights, key by key *)

Section NormLemmas.
Context {num : Type} `{Arith num}.
Implicit Types (d : dict (num := num)).

Lemma dict_get_map_values (g : num -> num) d f :
  dict_get (map (fun kv => (fst kv, g (snd kv))) d) f = g <$> dict_get d f.
Proof.
  induction d as [|[k v] d IH]; simpl; [reflexivity|].
  destruct (String.eqb k f); [reflexivity|exact IH].
Qed.

Lemma dict_get_norm_weights d f :
  dict_get (norm_weights d) f =
  (fun v => if flt zero (sum (values d)) then fdiv v (sum (values d)) else zero)
    <$> dict_get d f.
Proof.
  unfold norm_weights.
  exact (dict_get_map_values
           (fun v => if flt zero (sum (values d))
                     then fdiv v (sum (values d)) else zero) d f).
Qed.

Lemma norm_weights_positive d f :
  flt zero (sum (values d)) = true ->
  dict_get (norm_weights d) f = (fun v => fdiv v (sum (values d))) <$> dict_get d f.
Proof. intros Hpos. rewrite dict_get_norm_weights, Hpos. reflexivity. Qed.

End NormLemmas.

(** C2.  Normalisation divides by the mapping's own sum.  When the raw
    risk weights sum to a positive value every factor's normalised risk
    weight is its raw weight divided by the sum of the raw risk weights, and
    likewise for the safety weights with the sum of the raw safety weights;
    neither normalised mapping depends on the other raw mapping. *)
Theorem norm_weights_own_sum
    {num : Type} `{Arith num} (st : session_state) :
  (flt zero (sum (values (risk_weights st))) = true ->
   forall f, dict_get (norm_risk_weights st) f =
             (fun v => fdiv v (sum (values (risk_weights st))))
               <$> dict_get (risk_weights st) f) /\
  (flt zero (sum (values (safety_weights st))) = true ->
   forall f, dict_get (norm_safety_weights st) f =
             (fun v => fdiv v (sum (values (safety_weights st))))
               <$> dict_get (safety_weights st) f) /\
  (forall safety',
     norm_risk_weights {| risk_weights := risk_weights st;
                          safety_weights := safety' |} = norm_risk_weights st) /\
  (forall risk',
     norm_safety_weights {| risk_weights := risk';
                            safety_weights := safety_weights st |}
     = norm_safety_weights st).
Proof.
  repeat split.
  - intros Hpos f. now apply norm_weights_positive.
  - intros Hpos f. now apply norm_weights_positive.
Qed.

(** ** Missing values *)

Section FillnaLemmas.
Context {num : Type} `{Arith num}.
Hypothesis zero_not_na : isna (zero (num := num)) = false.
Implicit Types (gdf : DataFrame (num := num)).

Lemma fillna0_idem x : fillna0 (fillna0 x) = fillna0 x.
Proof.
  unfold fillna0. destruct (isna x) eqn:E.
  - now rewrite zero_not_na.
  - now rewrite E.
Qed.

Lemma fillna_series_idem s : fillna_series (fillna_series s) = fillna_series s.
Proof.
  unfold fillna_series. rewrite map_map. apply map_ext. intros x. apply fillna0_idem.
Qed.

Lemma get_fillna_frame gdf f : get (fillna_frame gdf) f = fillna_column <$> get gdf f.
Proof.
  induction gdf as [|[n c] gdf IH]; simpl; [reflexivity|].
  destruct (String.eqb n f); [reflexivity|exact IH].
Qed.

Lemma term_fillna_frame gdf f w : term (fillna_frame gdf) f w = term gdf f w.
Proof.
  unfold term, numeric, getitem. rewrite get_fillna_frame.
  destruct (get gdf f) as [[s|s]|]; simpl; try reflexivity.
  now rewrite fillna_series_idem.
Qed.

Lemma weighted_sum_fillna_frame gdf norm :
  weighted_sum (fillna_frame gdf) norm = weighted_sum gdf norm.
Proof.
  unfold weighted_sum. generalize (Scalar (zero (num := num))) as acc.
  induction norm as [|[k w] norm IH]; intros acc; simpl; [reflexivity|].
  rewrite term_fillna_frame. destruct (term gdf k w); simpl; [apply IH|reflexivity].
Qed.

Lemma term_na_cell gdf f w s i x :
  numeric gdf f = Ok s -> s !! i = Some x -> isna x = true ->
  exists t, term gdf f w = Ok t /\ t !! i = Some (fmul zero w).
Proof.
  intros Hs Hi Hx.
  exists (map (fun x => fmul x w) (fillna_series s)).
  split; [now apply term_ok|].
  unfold fillna_series. rewrite !list_lookup_fmap, Hi. simpl.
  unfold fillna0. now rewrite Hx.
Qed.

End FillnaLemmas.

(** ** binary64: zero times a finite number, zero plus zero *)

Module B64Facts.

Lemma zero_is : zero (num := spec_float) = S754_zero false.
Proof. reflexivity. Qed.

Lemma mul_zero_finite w :
  B64.is_finite w = true -> exists sg, fmul (zero (num := spec_float)) w = S754_zero sg.
Proof. destruct w; simpl; intros Hw; try discriminate; eauto. Qed.

End B64Facts.

(** C6.  A missing (NaN) factor value counts as 0.  On binary64, for every
    frame whose factor columns exist and every weight mapping, the weighted
    sum raises nothing and is the same as on the frame in which every NaN
    has been replaced by 0; the term of a NaN cell is [0 * weight], which is
    a zero for every finite weight. *)
Theorem missing_value_counts_as_zero
    (gdf : DataFrame (num := spec_float)) (norm : dict (num := spec_float)) :
  wf_frame gdf ->
  (forall f, In f (map fst norm) -> exists s, get gdf f = Some (NumCol s)) ->
  (exists v, weighted_sum gdf norm = Ok v) /\
  weighted_sum gdf norm = weighted_sum (fillna_frame gdf) norm /\
  (forall f w s i x,
     In (f, w) norm -> numeric gdf f = Ok s -> s !! i = Some x -> isna x = true ->
     exists t, term gdf f w = Ok t /\ t !! i = Some (fmul zero w) /\
               (B64.is_finite w = true -> exists sg, t !! i = Some (S754_zero sg))).
Proof.
  intros Hwf Hcols. split; [|split].
  - destruct (weighted_sum_ok gdf norm Hwf Hcols) as (v & Hv & _). eauto.
  - symmetry. now apply weighted_sum_fillna_frame.
  - intros f w s i x _ Hs Hi Hx.
    destruct (term_na_cell gdf f w s i x Hs Hi Hx) as (t & Ht & Hti).
    exists t. repeat split; [assumption|assumption|].
    intros Hw. destruct (B64Facts.mul_zero_finite w Hw) as [sg Hsg].
    exists sg. now rewrite Hti, Hsg.
Qed.

(** ** One district of the weighted sum *)

Section RowFormula.
Context {num : Type} `{Arith num}.
Implicit Types (gdf : DataFrame (num := num)) (norm : dict (num := num)).
Implicit Types (acc : value (num := num)).

Lemma series_of_add n acc (t : list num) i a x :
  value_rows n acc -> length t = n ->
  series_of n acc !! i = Some a -> t !! i = Some x ->
  series_of n (add_value acc (Ser t)) !! i = Some (fadd a x).
Proof.
  intros Hacc Ht Ha Hx. destruct acc as [y|s]; simpl in *.
  - apply lookup_replicate in Ha as [-> _].
    now rewrite list_lookup_fmap, Hx.
  - now rewrite lookup_zip_with, Ha, Hx.
Qed.

Lemma foldM_row gdf norm acc i a :
  wf_frame gdf ->
  (forall f, In f (map fst norm) -> exists s, get gdf f = Some (NumCol s)) ->
  value_rows (nrows gdf) acc -> (i < nrows gdf)%nat ->
  series_of (nrows gdf) acc !! i = Some a ->
  exists v,
    foldM (fun acc kv => t ← term gdf (fst kv) (snd kv); Ok (add_value acc (Ser t)))
          acc norm = Ok v /\
    value_rows (nrows gdf) v /\
    series_of (nrows gdf) v !! i = Some (fold_left fadd (row_terms gdf norm i) a).
Proof.
  intros Hwf. revert acc a.
  induction norm as [|[k w] norm IH]; intros acc a Hcols Hacc Hi Ha.
  - exists acc. auto.
  - destruct (Hcols k) as [s Hs]; [now left|].
    apply numeric_get in Hs.
    pose proof (wf_numeric_length gdf k s Hwf Hs) as Hlen.
    destruct (lookup_lt_is_Some_2 s i) as [x Hx]; [lia|].
    cbn [foldM fst snd]. rewrite (term_ok _ _ _ _ Hs). cbn [bind mbind result_bind].
    set (t := map (fun x0 => fmul x0 w) (fillna_series s)).
    assert (Htl : length t = nrows gdf).
    { unfold t, fillna_series. now rewrite !length_map. }
    assert (Hti : t !! i = Some (fmul (fillna0 x) w)).
    { unfold t, fillna_series. now rewrite !list_lookup_fmap, Hx. }
    destruct (IH (add_value acc (Ser t)) (fadd a (fmul (fillna0 x) w)))
      as (v & Hv & Hrows & Hvi).
    + intros f Hf. apply Hcols. now right.
    + now apply add_value_rows.
    + exact Hi.
    + now apply series_of_add.
    + exists v. split; [exact Hv|]. split; [exact Hrows|].
      rewrite Hvi. unfold row_terms at 2. cbn [omap list_omap fst snd].
      unfold cell at 1. rewrite Hs, Hx. reflexivity.
Qed.

Lemma weighted_sum_row gdf norm i :
  wf_frame gdf ->
  (forall f, In f (map fst norm) -> exists s, get gdf f = Some (NumCol s)) ->
  (i < nrows gdf)%nat ->
  exists v,
    weighted_sum gdf norm = Ok v /\
    series_of (nrows gdf) v !! i = Some (sum (row_terms gdf norm i)).
Proof.
  intros Hwf Hcols Hi.
  destruct (foldM_row gdf norm (Scalar zero) i zero Hwf Hcols I Hi)
    as (v & Hv & _ & Hvi).
  - simpl. now apply lookup_replicate_2.
  - exists v. split; assumption.
Qed.

Lemma row_terms_ext gdf1 gdf2 norm i :
  (forall f, In f (map fst norm) -> get gdf1 f = get gdf2 f) ->
  row_terms gdf1 norm i = row_terms gdf2 norm i.
Proof.
  induction norm as [|[k w] norm IH]; intros Hg; [reflexivity|].
  unfold row_terms in *. cbn [omap list_omap fst snd].
  assert (Hc : cell gdf1 k i = cell gdf2 k i).
  { unfold cell, numeric, getitem. now rewrite (Hg k) by now left. }
  rewrite Hc, IH; [reflexivity|]. intros f Hf. apply Hg. now right.
Qed.

Lemma weighted_sum_value_rows gdf norm v :
  wf_frame gdf ->
  (forall f, In f (map fst norm) -> exists s, get gdf f = Some (NumCol s)) ->
  weighted_sum gdf norm = Ok v -> value_rows (nrows gdf) v.
Proof.
  intros Hwf Hcols Hv.
  destruct (weighted_sum_ok gdf norm Hwf Hcols) as (v' & Hv' & Hrows).
  rewrite Hv in Hv'. now injection Hv' as ->.
Qed.

End RowFormula.

(** ** All raw weights zero (binary64) *)

Section ZeroWeights.
Local Abbreviation num := spec_float.
Local Abbreviation pzero := (S754_zero false).
Implicit Types (gdf : DataFrame (num := num)) (d : dict (num := num)).

Lemma eqb_zero_is_zero w : SFeqb w zero = true -> B64.is_zero w = true.
Proof. destruct w as [s|[]| |[] m e]; try reflexivity; discriminate. Qed.

Lemma sum_zeros (l : list num) :
  Forall (fun w => B64.is_zero w = true) l -> fold_left fadd l pzero = pzero.
Proof.
  induction 1 as [|w l Hw _ IH]; simpl; [reflexivity|].
  destruct w as [[]| | |]; try discriminate; exact IH.
Qed.

Lemma norm_weights_all_zero d :
  (forall f w, In (f, w) d -> SFeqb w zero = true) ->
  norm_weights d = map (fun kv => (fst kv, zero)) d.
Proof.
  intros Hz. unfold norm_weights, sum.
  rewrite B64Facts.zero_is, sum_zeros; [reflexivity|].
  unfold values. apply List.Forall_forall. intros w Hw.
  apply in_map_iff in Hw as ([f w'] & <- & Hin).
  apply eqb_zero_is_zero. eauto.
Qed.

Lemma term_cell_zero (x : num) :
  B64.is_inf x = false -> B64.is_zero (fmul (fillna0 x) pzero) = true.
Proof. destruct x; simpl; intros Hx; try discriminate; reflexivity. Qed.

(** The terms of one district under zero weights are zeros, unless a
    factor value of that district is infinite. *)
Lemma row_terms_zero gdf d i :
  (forall f x, In f (map fst d) -> cell gdf f i = Some x -> B64.is_inf x = false) ->
  Forall (fun t => B64.is_zero t = true)
         (row_terms gdf (map (fun kv => (fst kv, pzero)) d) i).
Proof.
  induction d as [|[k w] d IH]; intros Hfin; [constructor|].
  unfold row_terms in *. cbn [map omap list_omap fst snd].
  assert (Hrest : forall f x, In f (map fst d) -> cell gdf f i = Some x ->
                              B64.is_inf x = false).
  { intros f x Hf. apply Hfin. now right. }
  destruct (cell gdf k i) as [x|] eqn:Hx; cbn [fmap option_fmap option_map].
  - constructor; [|now apply IH].
    apply term_cell_zero. apply (Hfin k x); [now left|exact Hx].
  - now apply IH.
Qed.

End ZeroWeights.

(** C3 (as amended).  When every raw weight of a mapping is zero the
    normalised weights are all 0 and nothing is raised; and in every frame
    that has the factor columns, the weighted sum is 0 for every district
    whose factor values in that category are finite or missing, whatever
    the values of the other districts are. *)
Theorem zero_weights_contribute_zero
    (gdf : DataFrame (num := spec_float)) (weights : dict (num := spec_float)) :
  (forall f w, In (f, w) weights -> SFeqb w zero = true) ->
  norm_weights weights = map (fun kv => (fst kv, zero)) weights /\
  (wf_frame gdf ->
   (forall f, In f (map fst weights) -> exists s, get gdf f = Some (NumCol s)) ->
   exists v,
     weighted_sum gdf (norm_weights weights) = Ok v /\
     forall name i, (i < nrows gdf)%nat ->
       (forall f x, In f (map fst weights) -> cell gdf f i = Some x ->
                    B64.is_inf x = false) ->
       cell (assign gdf name v) name i = Some zero).
Proof.
  intros Hz. split; [now apply norm_weights_all_zero|].
  intros Hwf Hcols. rewrite norm_weights_all_zero by assumption.
  set (norm := map (fun kv => (fst kv, zero)) weights).
  assert (Hcols' : forall f, In f (map fst norm) ->
                             exists s, get gdf f = Some (NumCol s)).
  { intros f Hf. unfold norm in Hf. rewrite map_map in Hf. now apply Hcols. }
  destruct (weighted_sum_ok gdf norm Hwf Hcols') as (v & Hv & Hrows).
  exists v. split; [exact Hv|]. intros name i Hi Hfin.
  destruct (weighted_sum_row gdf norm i Hwf Hcols' Hi) as (v' & Hv' & Hvi).
  rewrite Hv in Hv'. injection Hv' as <-.
  unfold cell. rewrite (proj2 (numeric_get _ _ _) (assign_get gdf name v)).
  change (match v with Scalar x => replicate (nrows gdf) x | Ser s => s end)
    with (series_of (nrows gdf) v).
  rewrite Hvi. f_equal. unfold sum. rewrite B64Facts.zero_is.
  apply sum_zeros. unfold norm. rewrite B64Facts.zero_is.
  now apply row_terms_zero.
Qed.

(** ** binary64: rounding, addition of non-negative numbers, quotients *)

Module B64Round.
Import B64.

Lemma fexp_eq e : fexp 53 1024 e = fexp64 e.
Proof. reflexivity. Qed.

Lemma digits2_size p : digits2_pos p = Pos.size p.
Proof. induction p; simpl; congruence. Qed.

Lemma dg_pos p : dg (Zpos p) = Z.log2 (Zpos p) + 1.
Proof.
  unfold dg. simpl. rewrite digits2_size.
  destruct p; simpl; rewrite ?Pos2Z.inj_succ; lia.
Qed.

Lemma dg_0 : dg 0 = 0.
Proof. reflexivity. Qed.

Lemma dg_log2 z : 0 < z -> dg z = Z.log2 z + 1.
Proof. destruct z; try lia. intros _. apply dg_pos. Qed.

Lemma dg_nonneg z : 0 <= dg z.
Proof. destruct z; simpl; lia. Qed.

Lemma dg_bounds z : 0 < z -> 2 ^ (dg z - 1) <= z < 2 ^ dg z.
Proof.
  intros Hz. rewrite dg_log2 by assumption.
  replace (Z.log2 z + 1 - 1) with (Z.log2 z) by lia.
  apply Z.log2_spec. assumption.
Qed.

Lemma dg_le_mono a b : 0 <= a <= b -> dg a <= dg b.
Proof.
  intros [Ha Hab]. destruct (Z.eq_dec a 0) as [->|Hne].
  - apply dg_nonneg.
  - rewrite !dg_log2 by lia. pose proof (Z.log2_le_mono a b Hab). lia.
Qed.

Lemma dg_upper z k : 0 <= k -> 0 <= z < 2 ^ k -> dg z <= k.
Proof.
  intros Hk [Hz Hlt]. destruct (Z.eq_dec z 0) as [->|Hne]; [simpl; lia|].
  rewrite dg_log2 by lia.
  assert (Z.log2 z < k) by (apply Z.log2_lt_pow2; lia). lia.
Qed.

Lemma dg_lower z k : 0 <= k -> 2 ^ k <= z -> k + 1 <= dg z.
Proof.
  intros Hk Hle. assert (0 < z) by (pose proof (Z.pow_pos_nonneg 2 k); lia).
  rewrite dg_log2 by lia.
  assert (k <= Z.log2 z) by (apply Z.log2_le_pow2; lia). lia.
Qed.

Lemma dg_mul_pow2 z n : 0 < z -> 0 <= n -> dg (z * 2 ^ n) = dg z + n.
Proof.
  intros Hz Hn. assert (0 < 2 ^ n) by (apply Z.pow_pos_nonneg; lia).
  rewrite !dg_log2 by nia. rewrite Z.log2_mul_pow2 by lia. lia.
Qed.

Lemma dg_div_pow2 z n : 0 < z -> 0 <= n -> 0 < z / 2 ^ n -> dg (z / 2 ^ n) = dg z - n.
Proof.
  intros Hz Hn Hq. rewrite !dg_log2 by lia.
  rewrite <- Z.shiftr_div_pow2 by lia. rewrite Z.log2_shiftr by lia.
  assert (n <= Z.log2 z).
  { destruct (Z.le_gt_cases n (Z.log2 z)); [assumption|].
    assert (z < 2 ^ n).
    { apply Z.log2_lt_pow2; lia. }
    rewrite Z.div_small in Hq by lia. lia. }
  lia.
Qed.

(** Right shifts of the rounding record, on the mantissa *)
Lemma shr_1_m r : 0 <= shr_m r -> shr_m (shr_1 r) = shr_m r / 2.
Proof.
  destruct r as [m rb sb]. simpl. intros Hm.
  destruct m as [|p|p]; try lia; [reflexivity|].
  destruct p; simpl.
  - rewrite Pos2Z.inj_xI. apply Z.div_unique with (r := 1); lia.
  - rewrite Pos2Z.inj_xO. apply Z.div_unique with (r := 0); lia.
  - reflexivity.
Qed.

Lemma iter_pos_shr_m p r :
  0 <= shr_m r -> shr_m (SpecFloat.iter_pos shr_1 p r) = shr_m r / 2 ^ Zpos p.
Proof.
  revert r. induction p as [p IH|p IH|]; intros r Hr; simpl SpecFloat.iter_pos.
  - assert (H1 : 0 <= shr_m (shr_1 r)) by (rewrite shr_1_m by lia; apply Z.div_pos; lia).
    assert (H2 : 0 <= shr_m (SpecFloat.iter_pos shr_1 p (shr_1 r)))
      by (rewrite IH by lia; apply Z.div_pos; [lia|apply Z.pow_pos_nonneg; lia]).
    rewrite IH by assumption. rewrite IH by assumption. rewrite shr_1_m by assumption.
    assert (0 < 2 ^ Zpos p) by (apply Z.pow_pos_nonneg; lia).
    rewrite !Z.div_div by lia.
    f_equal. rewrite Pos2Z.inj_xI.
    rewrite Z.pow_add_r, Z.pow_mul_r by lia.
    change (2 ^ 2) with 4. change (2 ^ 1) with 2.
    replace (4 ^ Zpos p) with (2 ^ Zpos p * 2 ^ Zpos p); [lia|].
    rewrite <- Z.pow_add_r by lia. replace (Zpos p + Zpos p) with (2 * Zpos p) by lia.
    rewrite Z.pow_mul_r by lia. reflexivity.
  - assert (H2 : 0 <= shr_m (SpecFloat.iter_pos shr_1 p r))
      by (rewrite IH by lia; apply Z.div_pos; [lia|apply Z.pow_pos_nonneg; lia]).
    rewrite IH by assumption. rewrite IH by assumption.
    assert (0 < 2 ^ Zpos p) by (apply Z.pow_pos_nonneg; lia).
    rewrite !Z.div_div by lia.
    f_equal. rewrite Pos2Z.inj_xO.
    rewrite <- Z.pow_add_r by lia. f_equal. lia.
  - rewrite shr_1_m by assumption. reflexivity.
Qed.


Lemma shr_record_of_loc_m m l : shr_m (shr_record_of_loc m l) = m.
Proof. destruct l as [|[]]; reflexivity. Qed.

Lemma shr_fexp_shift m e l :
  0 <= m ->
  (shr_m (fst (shr_fexp 53 1024 m e l)), snd (shr_fexp 53 1024 m e l)) = shift_m m e.
Proof.
  intros Hm. unfold shr_fexp, shift_m, shr. rewrite fexp_eq. fold (dg m).
  destruct (fexp64 (dg m + e) - e) as [|p|p] eqn:En; simpl.
  - now rewrite shr_record_of_loc_m.
  - rewrite iter_pos_shr_m by (rewrite shr_record_of_loc_m; assumption).
    now rewrite shr_record_of_loc_m.
  - now rewrite shr_record_of_loc_m.
Qed.


Lemma round_nearest_even_cases m l :
  round_nearest_even m l = m \/ round_nearest_even m l = m + 1.
Proof. destruct l as [|[]]; simpl; auto. destruct (Z.even m); auto. Qed.

Lemma shift_m_nonneg m e : 0 <= m -> 0 <= fst (shift_m m e).
Proof.
  intros Hm. unfold shift_m. destruct (0 <? _) eqn:E; simpl; [|assumption].
  apply Z.div_pos; [assumption|]. apply Z.pow_pos_nonneg; lia.
Qed.

Lemma bra_spec s m e l :
  0 <= m ->
  exists mr,
    (mr = fst (shift_m m e) \/ mr = fst (shift_m m e) + 1) /\
    (l = loc_Exact -> snd (shift_m m e) = e -> mr = m) /\
    binary_round_aux 53 1024 s m e l = pack s (shift_m mr (snd (shift_m m e))).
Proof.
  intros Hm. unfold binary_round_aux.
  pose proof (shr_fexp_shift m e l Hm) as H1.
  destruct (shr_fexp 53 1024 m e l) as [mrs' e'] eqn:E1. simpl in H1.
  set (mr := round_nearest_even (shr_m mrs') (loc_of_shr_record mrs')).
  assert (Hmr : mr = shr_m mrs' \/ mr = shr_m mrs' + 1) by apply round_nearest_even_cases.
  assert (Hmr0 : 0 <= mr).
  { pose proof (shift_m_nonneg m e Hm). rewrite <- H1 in H. simpl in H. lia. }
  pose proof (shr_fexp_shift mr e' loc_Exact Hmr0) as H2.
  destruct (shr_fexp 53 1024 mr e' loc_Exact) as [mrs'' e''] eqn:E2. simpl in H2.
  exists mr. rewrite <- H1. simpl. split; [assumption|]. split.
  - intros -> He. unfold shr_fexp, shr in E1.
    assert (e' = e) by congruence. subst e'.
    destruct (fexp 53 1024 (Zdigits2 m + e) - e) as [|p|p] eqn:En;
      inversion E1; subst; try reflexivity.
    lia.
  - rewrite <- H2. unfold pack. simpl.
    destruct (shr_m mrs''); reflexivity.
Qed.


Lemma pow2_pos n : 0 <= n -> 0 < 2 ^ n.
Proof. intros. apply Z.pow_pos_nonneg; lia. Qed.

Lemma pow2_add a b : 0 <= a -> 0 <= b -> 2 ^ (a + b) = 2 ^ a * 2 ^ b.
Proof. intros. apply Z.pow_add_r; lia. Qed.

Lemma pow2_le a b : 0 <= a <= b -> 2 ^ a <= 2 ^ b.
Proof. intros. apply Z.pow_le_mono_r; lia. Qed.

Lemma pow2_lt a b : 0 <= a < b -> 2 ^ a < 2 ^ b.
Proof. intros. apply Z.pow_lt_mono_r; lia. Qed.

Lemma fexp64_mono a b : a <= b -> fexp64 a <= fexp64 b.
Proof. unfold fexp64. lia. Qed.

Lemma fexp64_ge e : -1074 <= fexp64 e.
Proof. unfold fexp64. lia. Qed.

(** first alignment step *)
Lemma shift_m_first m e :
  0 < m -> e <= fexp64 (dg m + e) ->
  snd (shift_m m e) = fexp64 (dg m + e) /\
  fst (shift_m m e) = m / 2 ^ (fexp64 (dg m + e) - e) /\
  0 <= fst (shift_m m e) < 2 ^ 53 /\
  (0 < fst (shift_m m e) -> dg (fst (shift_m m e)) + snd (shift_m m e) = dg m + e) /\
  (fst (shift_m m e) = 0 -> fexp64 (dg m + e) = -1074).
Proof.
  intros Hm He. unfold shift_m.
  set (E := fexp64 (dg m + e)) in *.
  pose proof (dg_bounds m Hm) as [Hlo Hhi].
  assert (Hn : dg m - 53 <= E - e) by (unfold E, fexp64; lia).
  assert (Hdg : 0 < dg m) by (pose proof (dg_lower m 0 ltac:(lia) ltac:(simpl; lia)); lia).
  assert (Hq : m / 2 ^ (E - e) < 2 ^ 53).
  { apply Z.div_lt_upper_bound; [apply pow2_pos; lia|].
    rewrite <- pow2_add by lia.
    eapply Z.lt_le_trans; [exact Hhi|]. apply pow2_le. lia. }
  assert (Hq0 : 0 <= m / 2 ^ (E - e)) by (apply Z.div_pos; [lia|apply pow2_pos; lia]).
  assert (Hz : m / 2 ^ (E - e) = 0 -> E = -1074).
  { intros H0. pose proof (pow2_pos (E - e) ltac:(lia)) as Hp.
    apply Z.div_small_iff in H0; [|lia].
    assert (dg m <= E - e) by (apply dg_upper; lia).
    unfold E, fexp64 in *. lia. }
  destruct (0 <? E - e) eqn:En; simpl.
  - apply Z.ltb_lt in En. replace (e + (E - e)) with E by lia.
    repeat split; try lia.
    intros Hpos. rewrite dg_div_pow2 by lia. lia.
  - apply Z.ltb_ge in En. assert (E = e) by lia.
    replace (E - e) with 0 in * by lia. rewrite Z.pow_0_r, Z.div_1_r in *.
    repeat split; try lia.
Qed.

(** second step: after rounding, at most one more shift *)
Lemma shift_m_second mr e1 :
  -1074 <= e1 -> 0 <= mr <= 9007199254740992 ->
  shift_m mr e1 = if mr =? 9007199254740992 then (4503599627370496, e1 + 1) else (mr, e1).
Proof.
  intros He [H0 H1]. unfold shift_m.
  destruct (mr =? 9007199254740992) eqn:Eq.
  - apply Z.eqb_eq in Eq. subst mr.
    change (dg 9007199254740992) with 54. unfold fexp64.
    replace (Z.max (54 + e1 - 53) (-1074) - e1) with 1 by lia. reflexivity.
  - apply Z.eqb_neq in Eq.
    assert (dg mr <= 53) by (apply dg_upper; [lia|change (2 ^ 53) with 9007199254740992; lia]).
    assert (fexp64 (dg mr + e1) - e1 <= 0) by (unfold fexp64; lia).
    destruct (0 <? _) eqn:En; [apply Z.ltb_lt in En; lia|reflexivity].
Qed.


Lemma valid_finite s m e :
  valid_binary 53 1024 (S754_finite s m e) = true <-> canon (Zpos m) e /\ e <= 971.
Proof.
  unfold valid_binary, bounded, canonical_mantissa, canon. rewrite fexp_eq.
  change (Zpos (digits2_pos m)) with (dg (Zpos m)).
  rewrite andb_true_iff, Z.eqb_eq, Z.leb_le. reflexivity.
Qed.

Lemma canon_facts m e : 0 < m -> canon m e -> dg m <= 53 /\ -1074 <= e /\ (-1074 < e -> dg m = 53).
Proof. unfold canon, fexp64. lia. Qed.

(** The outcome of rounding a positive integer mantissa that needs no left shift. *)
Lemma round_outcome s m e mr :
  0 < m -> e <= fexp64 (dg m + e) ->
  (mr = fst (shift_m m e) \/ mr = fst (shift_m m e) + 1) ->
  let E := fexp64 (dg m + e) in
  let r := pack s (shift_m mr E) in
  valid_binary 53 1024 r = true /\
  (r = S754_zero s /\ mr = 0 \/
   r = S754_infinity s /\ 0 < mr \/
   exists p e2, r = S754_finite s p e2 /\ 0 < mr /\
                (e2 = E /\ Zpos p = mr \/ E < e2)).
Proof.
  intros Hm He Hmr E r.
  destruct (shift_m_first m e Hm He) as (Hs & _ & Hb & Hdg & Hz).
  fold E in Hs, Hz. change (2 ^ 53) with 9007199254740992 in Hb.
  assert (HE : -1074 <= E) by apply fexp64_ge.
  assert (Hr : 0 <= mr <= 9007199254740992) by lia.
  unfold r. rewrite (shift_m_second mr E HE Hr).
  destruct (mr =? 9007199254740992) eqn:Eq.
  - apply Z.eqb_eq in Eq. unfold pack. cbn [fst snd].
    destruct (E + 1 <=? 971) eqn:El.
    + apply Z.leb_le in El. split.
      * apply valid_finite. split; [|assumption]. unfold canon.
        change (dg 4503599627370496) with 53. unfold fexp64. lia.
      * right. right. do 2 eexists. split; [reflexivity|]. split; [lia|].
        right. lia.
    + split; [reflexivity|]. right. left. split; [reflexivity|lia].
  - apply Z.eqb_neq in Eq. unfold pack. cbn [fst snd].
    destruct mr as [|p|p] eqn:Emr; try lia.
    + split; [reflexivity|]. left. split; reflexivity.
    + destruct (E <=? 971) eqn:El.
      * apply Z.leb_le in El. split.
        -- apply valid_finite. split; [|assumption]. unfold canon.
           assert (Hup : dg (Zpos p) <= 53)
             by (apply dg_upper; [lia|change (2 ^ 53) with 9007199254740992; lia]).
           assert (Hlow : E <= fexp64 (dg (Zpos p) + E)).
           { destruct (Z.eq_dec (fst (shift_m m e)) 0) as [H0|H0].
             - rewrite (Hz H0). apply fexp64_ge.
             - assert (H1 : 0 < fst (shift_m m e)) by lia.
               specialize (Hdg H1). rewrite Hs in Hdg.
               assert (dg (fst (shift_m m e)) <= dg (Zpos p)) by (apply dg_le_mono; lia).
               unfold E at 1. rewrite <- Hdg. apply fexp64_mono. lia. }
           unfold fexp64 in *. lia.
        -- right. right. do 2 eexists. split; [reflexivity|]. split; [lia|].
           left. split; reflexivity.
      * split; [reflexivity|]. right. left. split; [reflexivity|lia].
Qed.


Lemma pos_iter_xO m d : Zpos (Pos.iter xO m d) = Zpos m * 2 ^ Zpos d.
Proof.
  induction d as [|d IH] using Pos.peano_ind.
  - simpl. lia.
  - rewrite Pos.iter_succ, Pos2Z.inj_xO, IH, Pos2Z.inj_succ.
    rewrite Z.pow_succ_r by lia. lia.
Qed.

Lemma shl_align_val mx ex ez :
  ez <= ex -> Zpos (fst (shl_align mx ex ez)) = Zpos mx * 2 ^ (ex - ez).
Proof.
  intros Hle. unfold shl_align.
  destruct (ez - ex) as [|d|d] eqn:Ed; cbn [fst].
  - replace (ex - ez) with 0 by lia. rewrite Z.pow_0_r. lia.
  - lia.
  - rewrite pos_iter_xO. f_equal. f_equal. lia.
Qed.

Lemma shl_align_none m e t : e <= t -> shl_align m e t = (m, e).
Proof.
  intros Hle. unfold shl_align. destruct (t - e) eqn:Ed; try reflexivity. lia.
Qed.

Lemma SFleb_pos_finite mx ex p e2 :
  (ex < e2 \/ ex = e2 /\ Zpos mx <= Zpos p) ->
  SFleb (S754_finite false mx ex) (S754_finite false p e2) = true.
Proof.
  intros Hc. unfold SFleb, SFcompare.
  destruct (Z.compare_spec ex e2) as [Heq|Hlt|Hgt]; try reflexivity; [|lia].
  destruct Hc as [Hc|[_ Hc]]; [lia|].
  change (Pos.compare_cont Eq mx p) with (Pos.compare mx p).
  destruct (Pos.compare_spec mx p); try reflexivity. lia.
Qed.

Lemma SFleb_pos_finite_inv mx ex p e2 :
  SFleb (S754_finite false mx ex) (S754_finite false p e2) = true ->
  ex < e2 \/ ex = e2 /\ Zpos mx <= Zpos p.
Proof.
  unfold SFleb, SFcompare.
  destruct (Z.compare_spec ex e2) as [Heq|Hlt|Hgt]; try discriminate; [|lia].
  change (Pos.compare_cont Eq mx p) with (Pos.compare mx p).
  destruct (Pos.compare_spec mx p); try discriminate; lia.
Qed.

(** x + y for positive finite x, y: the result is valid, not smaller than x. *)
Lemma add_pos_ge mx ex my ey :
  valid_binary 53 1024 (S754_finite false mx ex) = true ->
  valid_binary 53 1024 (S754_finite false my ey) = true ->
  let r := SFadd 53 1024 (S754_finite false mx ex) (S754_finite false my ey) in
  valid_binary 53 1024 r = true /\
  SFleb (S754_finite false mx ex) r = true /\
  (r = S754_infinity false \/ exists p e2, r = S754_finite false p e2).
Proof.
  intros Hx Hy r.
  apply valid_finite in Hx as [Hcx Hbx]. apply valid_finite in Hy as [Hcy Hby].
  destruct (canon_facts _ _ (Pos2Z.is_pos mx) Hcx) as (Hdx & Hex & _).
  destruct (canon_facts _ _ (Pos2Z.is_pos my) Hcy) as (Hdy & Hey & _).
  set (ez := Z.min ex ey).
  assert (Hzx : ez <= ex) by (unfold ez; lia).
  assert (Hzy : ez <= ey) by (unfold ez; lia).
  pose proof (shl_align_val mx ex ez Hzx) as Hax.
  pose proof (shl_align_val my ey ez Hzy) as Hay.
  set (ax := fst (shl_align mx ex ez)) in *.
  set (ay := fst (shl_align my ey ez)) in *.
  assert (Hr : r = binary_round 53 1024 false (ax + ay) ez) by reflexivity.
  set (M := Zpos (ax + ay)).
  assert (HM : M = Zpos mx * 2 ^ (ex - ez) + Zpos my * 2 ^ (ey - ez))
    by (unfold M; rewrite Pos2Z.inj_add; lia).
  assert (Hpx : 0 < 2 ^ (ex - ez)) by (apply pow2_pos; lia).
  assert (Hpy : 0 < 2 ^ (ey - ez)) by (apply pow2_pos; lia).
  assert (HMx : Zpos mx * 2 ^ (ex - ez) <= M) by nia.
  assert (Hdg : dg (Zpos mx) + ex <= dg M + ez).
  { assert (dg (Zpos mx * 2 ^ (ex - ez)) <= dg M) by (apply dg_le_mono; nia).
    rewrite dg_mul_pow2 in H by lia. lia. }
  assert (HE : ex <= fexp64 (dg M + ez)).
  { unfold canon in Hcx. rewrite <- Hcx at 1. now apply fexp64_mono. }
  assert (He : ez <= fexp64 (dg M + ez)) by lia.
  unfold binary_round in Hr. rewrite fexp_eq in Hr.
  change (Zpos (digits2_pos (ax + ay))) with (dg M) in Hr.
  rewrite (shl_align_none _ _ _ He) in Hr.
  destruct (bra_spec false M ez loc_Exact ltac:(lia)) as (mr & Hmr & _ & Hbra).
  fold M in Hr. rewrite Hbra in Hr.
  destruct (shift_m_first M ez ltac:(lia) He) as (Hs & Hm1 & Hb1 & _ & Hz1).
  rewrite Hs in Hr.
  destruct (round_outcome false M ez mr ltac:(lia) He Hmr) as (Hv & Hshape).
  rewrite <- Hr in Hv, Hshape.
  assert (Hm1x : fexp64 (dg M + ez) = ex -> Zpos mx <= fst (shift_m M ez)).
  { intros HEx. rewrite Hm1, HEx.
    apply Z.div_le_lower_bound; [assumption|]. lia. }
  split; [assumption|].
  destruct Hshape as [[Hr0 Hmr0]|[[Hri _]|(p & e2 & Hrf & Hmrp & Hcase)]].
  - exfalso. assert (H0 : fst (shift_m M ez) = 0) by lia.
    specialize (Hz1 H0). assert (fexp64 (dg M + ez) = ex) by lia.
    specialize (Hm1x H). lia.
  - rewrite Hri. split; [reflexivity|now left].
  - rewrite Hrf. split; [|right; eauto].
    apply SFleb_pos_finite.
    destruct Hcase as [[He2 Hp]|Hlt]; [|lia].
    destruct (Z.eq_dec (fexp64 (dg M + ez)) ex) as [HEx|HEx]; [|lia].
    right. specialize (Hm1x HEx). lia.
Qed.

Lemma SFadd_pos_comm mx ex my ey :
  SFadd 53 1024 (S754_finite false mx ex) (S754_finite false my ey)
  = SFadd 53 1024 (S754_finite false my ey) (S754_finite false mx ex).
Proof.
  unfold SFadd. rewrite (Z.min_comm ey ex). simpl cond_Zopp. rewrite Z.add_comm. reflexivity.
Qed.

Lemma shiftl_cases s m :
  0 <= s ->
  match s with
  | Zpos _ => Z.shiftl m s
  | Z0 => m
  | Zneg _ => 0
  end = m * 2 ^ s.
Proof.
  intros Hs. destruct s as [|p|p]; try lia.
  apply Z.shiftl_mul_pow2. lia.
Qed.

Lemma SFdiv_pos_unfold mx ex my ey :
  let e' := Z.min (fexp64 (dg (Zpos mx) + ex - (dg (Zpos my) + ey))) (ex - ey) in
  let s := ex - ey - e' in
  SFdiv 53 1024 (S754_finite false mx ex) (S754_finite false my ey)
  = binary_round_aux 53 1024 false ((Zpos mx * 2 ^ s) / Zpos my) e'
      (new_location (Zpos my) ((Zpos mx * 2 ^ s) mod Zpos my)).
Proof.
  intros e' s. unfold SFdiv, SFdiv_core_binary. rewrite fexp_eq.
  change (Zdigits2 (Zpos mx)) with (dg (Zpos mx)).
  change (Zdigits2 (Zpos my)) with (dg (Zpos my)).
  fold e'. fold s.
  assert (Hs : 0 <= s) by (unfold s, e'; lia).
  rewrite (shiftl_cases s (Zpos mx) Hs). unfold Z.div, Z.modulo.
  destruct (Z.div_eucl (Zpos mx * 2 ^ s) (Zpos my)) as [q r]. reflexivity.
Qed.

Lemma new_location_0 n : new_location n 0 = loc_Exact.
Proof.
  unfold new_location, new_location_even, new_location_odd.
  destruct (Z.even n); reflexivity.
Qed.

Lemma div_self mx ex :
  SFdiv 53 1024 (S754_finite false mx ex) (S754_finite false mx ex) = B64.one.
Proof.
  rewrite SFdiv_pos_unfold.
  replace (dg (Zpos mx) + ex - (dg (Zpos mx) + ex)) with 0 by lia.
  replace (ex - ex) with 0 by lia.
  change (Z.min (fexp64 0) 0) with (-53).
  change (0 - -53) with 53.
  rewrite Z.mul_comm, Z.div_mul, Z.mod_mul by lia.
  rewrite new_location_0. reflexivity.
Qed.

(** A mantissa that stays below one at exponent [e] does so after alignment. *)
Lemma shift_m_below_one m e :
  e <= -53 -> 0 <= m < 2 ^ (- e) ->
  snd (shift_m m e) <= -53 /\
  0 <= fst (shift_m m e) < 2 ^ (- snd (shift_m m e)).
Proof.
  intros He [Hm0 Hm1]. unfold shift_m.
  assert (Hd : dg m <= - e) by (apply dg_upper; lia).
  assert (HE : fexp64 (dg m + e) <= -53) by (unfold fexp64; lia).
  destruct (0 <? fexp64 (dg m + e) - e) eqn:En; cbn [fst snd].
  - apply Z.ltb_lt in En.
    replace (e + (fexp64 (dg m + e) - e)) with (fexp64 (dg m + e)) by lia.
    set (E := fexp64 (dg m + e)) in *.
    assert (Hp : 0 < 2 ^ (E - e)) by (apply pow2_pos; lia).
    split; [assumption|]. split; [apply Z.div_pos; lia|].
    apply Z.div_lt_upper_bound; [assumption|].
    rewrite <- pow2_add by lia. replace (E - e + - E) with (- e) by lia. assumption.
  - split; [assumption|]. lia.
Qed.

Lemma shift_m_at_most_one m e :
  e <= -52 -> 0 <= m <= 2 ^ (- e) ->
  snd (shift_m m e) <= -52 /\
  0 <= fst (shift_m m e) <= 2 ^ (- snd (shift_m m e)).
Proof.
  intros He [Hm0 Hm1]. unfold shift_m.
  assert (Hd : dg m <= - e + 1).
  { apply dg_upper; [lia|]. split; [assumption|].
    eapply Z.le_lt_trans; [exact Hm1|]. apply pow2_lt. lia. }
  assert (HE : fexp64 (dg m + e) <= -52) by (unfold fexp64; lia).
  destruct (0 <? fexp64 (dg m + e) - e) eqn:En; cbn [fst snd].
  - apply Z.ltb_lt in En.
    replace (e + (fexp64 (dg m + e) - e)) with (fexp64 (dg m + e)) by lia.
    set (E := fexp64 (dg m + e)) in *.
    assert (Hp : 0 < 2 ^ (E - e)) by (apply pow2_pos; lia).
    split; [assumption|]. split; [apply Z.div_pos; lia|].
    apply Z.div_le_upper_bound; [assumption|].
    rewrite <- pow2_add by lia. replace (E - e + - E) with (- e) by lia. assumption.
  - split; [assumption|]. lia.
Qed.

Lemma pack_at_most_one m2 e2 :
  e2 <= -52 -> 0 <= m2 <= 2 ^ (- e2) ->
  SFleb (S754_zero false) (pack false (m2, e2)) = true /\
  SFleb (pack false (m2, e2)) B64.one = true.
Proof.
  intros He [H0 H1]. unfold pack. cbn [fst snd].
  destruct m2 as [|p|p]; try lia.
  - split; reflexivity.
  - assert (Hle : (e2 <=? 971) = true) by (apply Z.leb_le; lia).
    rewrite Hle. split; [reflexivity|].
    change B64.one with (S754_finite false 4503599627370496 (-52)).
    apply SFleb_pos_finite.
    destruct (Z.eq_dec e2 (-52)) as [->|Hne]; [|lia].
    right. split; [reflexivity|]. exact H1.
Qed.

Lemma div_pos_lt mx ex my ey :
  canon (Zpos mx) ex -> canon (Zpos my) ey ->
  (ex < ey \/ ex = ey /\ Zpos mx < Zpos my) ->
  let r := SFdiv 53 1024 (S754_finite false mx ex) (S754_finite false my ey) in
  SFleb (S754_zero false) r = true /\ SFleb r B64.one = true.
Proof.
  intros Hcx Hcy Hlt r. unfold r. rewrite SFdiv_pos_unfold.
  destruct (canon_facts _ _ (Pos2Z.is_pos mx) Hcx) as (Hdx & Hex & Hnx).
  destruct (canon_facts _ _ (Pos2Z.is_pos my) Hcy) as (Hdy & Hey & Hny).
  pose proof (dg_bounds (Zpos mx) (Pos2Z.is_pos mx)) as [Hxl Hxh].
  pose proof (dg_bounds (Zpos my) (Pos2Z.is_pos my)) as [Hyl Hyh].
  set (D := dg (Zpos mx) + ex - (dg (Zpos my) + ey)).
  assert (HD : D <= 0).
  { unfold D. destruct Hlt as [Hlt|[-> Hlt]].
    - rewrite (Hny ltac:(lia)). lia.
    - assert (dg (Zpos mx) <= dg (Zpos my)) by (apply dg_le_mono; lia). lia. }
  set (e' := Z.min (fexp64 D) (ex - ey)).
  assert (He' : e' <= -53) by (unfold e', fexp64; lia).
  set (s := ex - ey - e').
  assert (Hs : 0 <= s) by (unfold s, e'; lia).
  assert (Hps : 0 < 2 ^ s) by (apply pow2_pos; lia).
  assert (Hval : Zpos mx < Zpos my * 2 ^ (ey - ex)).
  { destruct Hlt as [Hlt|[-> Hlt]].
    - assert (Zpos mx < 2 ^ 53).
      { eapply Z.lt_le_trans; [exact Hxh|]. apply pow2_le.
        pose proof (dg_nonneg (Zpos mx)). lia. }
      rewrite (Hny ltac:(lia)) in Hyl. change (2 ^ (53 - 1)) with 4503599627370496 in Hyl.
      change (2 ^ 53) with 9007199254740992 in H.
      assert (2 ^ 1 <= 2 ^ (ey - ex)) by (apply pow2_le; lia).
      change (2 ^ 1) with 2 in H0. nia.
    - replace (ey - ey) with 0 by lia. rewrite Z.pow_0_r. lia. }
  set (q := Zpos mx * 2 ^ s / Zpos my).
  assert (Hq : 0 <= q < 2 ^ (- e')).
  { split.
    - apply Z.div_pos; lia.
    - apply Z.div_lt_upper_bound; [lia|].
      replace (- e') with ((ey - ex) + s) by (unfold s; lia).
      rewrite pow2_add by lia. nia. }
  destruct (bra_spec false q e'
              (new_location (Zpos my) ((Zpos mx * 2 ^ s) mod Zpos my))
              ltac:(lia)) as (mr & Hmr & _ & Hbra).
  rewrite Hbra.
  destruct (shift_m_below_one q e' He' Hq) as (He1 & Hm1).
  set (e1 := snd (shift_m q e')) in *. set (m1 := fst (shift_m q e')) in *.
  assert (Hmr' : 0 <= mr <= 2 ^ (- e1)) by lia.
  destruct (shift_m_at_most_one mr e1 ltac:(lia) Hmr') as (He2 & Hm2).
  rewrite (surjective_pairing (shift_m mr e1)).
  now apply pack_at_most_one.
Qed.

(** x / y for positive finite x <= y lies between 0 and 1. *)
Lemma div_pos_le_one mx ex my ey :
  valid_binary 53 1024 (S754_finite false mx ex) = true ->
  valid_binary 53 1024 (S754_finite false my ey) = true ->
  SFleb (S754_finite false mx ex) (S754_finite false my ey) = true ->
  let r := SFdiv 53 1024 (S754_finite false mx ex) (S754_finite false my ey) in
  SFleb (S754_zero false) r = true /\ SFleb r B64.one = true.
Proof.
  intros Hx Hy Hle r.
  apply valid_finite in Hx as [Hcx _]. apply valid_finite in Hy as [Hcy _].
  apply SFleb_pos_finite_inv in Hle.
  destruct (Z.eq_dec ex ey) as [Hee|Hee];
    [destruct (Z.eq_dec (Zpos mx) (Zpos my)) as [Hmm|Hmm]|].
  - assert (mx = my) by congruence. subst my ey. unfold r.
    rewrite div_self. split; reflexivity.
  - apply (div_pos_lt mx ex my ey); [assumption|assumption|lia].
  - apply (div_pos_lt mx ex my ey); [assumption|assumption|lia].
Qed.

End B64Round.

(** ** binary64: multiplying the raw weights by a power of two *)

Module B64Scale.
Import B64 B64Round.


















End B64Scale.



(** ** binary64: sums of non-negative weights and their quotients *)

Module B64Sum.
Import B64 B64Round.

Lemma leb_refl x : nonneg x = true -> SFleb x x = true.
Proof.
  destruct x as [s|[]| |[] m e]; try discriminate; intros _; try reflexivity.
  apply SFleb_pos_finite. right. split; [reflexivity|lia].
Qed.

Lemma leb_trans a b c :
  nonneg a = true -> nonneg b = true -> nonneg c = true ->
  SFleb a b = true -> SFleb b c = true -> SFleb a c = true.
Proof.
  destruct a as [sa|[]| |[] ma ea]; try discriminate;
  destruct b as [sb|[]| |[] mb eb]; try discriminate;
  destruct c as [sc|[]| |[] mc ec]; try discriminate;
  intros _ _ _ Hab Hbc; try reflexivity; try discriminate.
  apply SFleb_pos_finite_inv in Hab, Hbc. apply SFleb_pos_finite. lia.
Qed.

Lemma weight_ok_nonneg w : weight_ok w -> nonneg w = true.
Proof.
  intros (_ & Hf & Hle). destruct w as [s|s| |[] m e]; try discriminate; reflexivity.
Qed.

Lemma partial_sum_nonneg s : partial_sum s -> nonneg s = true.
Proof.
  intros (_ & Hs). destruct s as [sg|sg| |sg m e]; simpl in *; subst;
    try reflexivity; contradiction.
Qed.

Lemma add_step s w :
  partial_sum s -> weight_ok w ->
  partial_sum (SFadd 53 1024 s w) /\
  SFleb s (SFadd 53 1024 s w) = true /\
  SFleb w (SFadd 53 1024 s w) = true.
Proof.
  intros (Hvs & Hs) (Hvw & Hfw & Hlw).
  destruct s as [sg|sg| |sg ms es]; simpl in Hs; try contradiction; subst sg;
  destruct w as [sw|sw| |[] mw ew]; try discriminate.
  - destruct sw; simpl; repeat split; reflexivity.
  - simpl. repeat split; try assumption; try reflexivity.
    apply leb_refl. reflexivity.
  - simpl. repeat split; reflexivity.
  - simpl. repeat split; reflexivity.
  - simpl. repeat split; try assumption; try reflexivity.
    apply leb_refl. reflexivity.
  - destruct (add_pos_ge ms es mw ew Hvs Hvw) as (Hv & Hle & Hshape).
    destruct (add_pos_ge mw ew ms es Hvw Hvs) as (_ & Hle' & _).
    rewrite (SFadd_pos_comm mw ew ms es) in Hle'.
    repeat split; try assumption.
    destruct Hshape as [->|(p & e2 & ->)]; reflexivity.
Qed.

Lemma fold_sum l : forall acc,
  partial_sum acc -> List.Forall weight_ok l ->
  partial_sum (fold_left (SFadd 53 1024) l acc) /\
  SFleb acc (fold_left (SFadd 53 1024) l acc) = true /\
  List.Forall (fun w => SFleb w (fold_left (SFadd 53 1024) l acc) = true) l.
Proof.
  induction l as [|w l IH]; intros acc Hacc Hl; simpl.
  - repeat split; [apply Hacc|apply Hacc| |constructor].
    apply leb_refl. now apply partial_sum_nonneg.
  - inversion Hl as [|? ? Hw Hl']; subst.
    destruct (add_step acc w Hacc Hw) as (Hacc' & Hle1 & Hle2).
    destruct (IH _ Hacc' Hl') as (Ht & Hle3 & Hall).
    pose proof (partial_sum_nonneg _ Hacc) as Hn1.
    pose proof (partial_sum_nonneg _ Hacc') as Hn2.
    pose proof (partial_sum_nonneg _ Ht) as Hn3.
    repeat split; try apply Ht.
    + now apply (leb_trans acc (SFadd 53 1024 acc w)).
    + constructor; [|assumption].
      apply (leb_trans w (SFadd 53 1024 acc w)); try assumption.
      now apply weight_ok_nonneg.
Qed.

(** A weight divided by a positive total that is not below it. *)
Lemma quotient_in_unit_interval v t :
  weight_ok v -> partial_sum t -> SFltb (S754_zero false) t = true ->
  SFleb v t = true ->
  SFleb (S754_zero false) (SFdiv 53 1024 v t) = true /\
  SFleb (SFdiv 53 1024 v t) B64.one = true.
Proof.
  intros (Hvv & Hfv & Hlv) (Hvt & Ht) Hpos Hle.
  destruct t as [sg|sg| |sg mt et]; simpl in Ht; try contradiction; subst sg;
    try discriminate;
  destruct v as [sv|sv| |[] mv ev]; try discriminate.
  - destruct sv; split; reflexivity.
  - split; reflexivity.
  - destruct sv; split; reflexivity.
  - now apply div_pos_le_one.
Qed.

End B64Sum.

(** The sliders keep the weights in range. *)
Section SlidersInRange.
Context {num : Type} `{Arith num}.
Variable P : num -> Prop.
Implicit Types (d : dict (num := num)).

Lemma dict_set_In d k v f w :
  In (f, w) (dict_set d k v) -> w = v \/ In (f, w) d.
Proof.
  induction d as [|[k0 v0] d IH]; simpl.
  - intros [[= <- <-]|[]]. now left.
  - destruct (String.eqb k0 k).
    + intros [[= <- <-]|Hin]; [now left|right; now right].
    + intros [Heq|Hin]; [right; now left|].
      destruct (IH Hin) as [Hv|Hin']; [now left|right; now right].
Qed.

Lemma dict_get_In d k v : dict_get d k = Some v -> exists k0, In (k0, v) d.
Proof.
  induction d as [|[k0 v0] d IH]; simpl; [discriminate|].
  destruct (String.eqb k0 k).
  - intros [= <-]. exists k0. now left.
  - intros Hg. destruct (IH Hg) as [k1 Hin]. exists k1. now right.
Qed.

Lemma sliders_in_range widgets prefix factors d :
  (forall key v, widgets key = Some v -> P v) -> P (dec 1 10) ->
  (forall f w, In (f, w) d -> P w) ->
  forall f w, In (f, w) (sliders widgets prefix factors d) -> P w.
Proof.
  intros Hw Hdef. unfold sliders. revert d.
  induction factors as [|factor factors IH]; intros d Hd; [exact Hd|].
  cbn [fold_left]. apply IH. intros f w Hin.
  apply dict_set_In in Hin as [->|Hin]; [|now apply (Hd f)].
  unfold slider. destruct (widgets (prefix ++ factor)%string) as [v|] eqn:Ev; [eauto|].
  destruct (dict_get d factor) as [v|] eqn:Eg; [|assumption].
  apply dict_get_In in Eg as [k0 Hin]. now apply (Hd k0).
Qed.

End SlidersInRange.

(** C9.  Normalised weights lie in [0, 1].  On binary64, when every raw
    weight of a mapping is a finite non-negative value, as the slider range
    [0.0, 0.5] guarantees, every normalised weight [w'] satisfies
    [0 <= w'] and [w' <= 1]; and this holds for the two mappings of every
    run of the sidebar, whatever positions in range the sliders are moved
    to and whatever state in range the session had before. *)
Theorem norm_weights_in_unit_interval :
  (forall weights : dict (num := spec_float),
     (forall f w, In (f, w) weights ->
        B64.valid w = true /\ B64.is_finite w = true /\ fle zero w = true) ->
     forall f w', In (f, w') (norm_weights weights) ->
       fle zero w' = true /\ fle w' (of_Z 1) = true) /\
  (forall (widgets : string -> option spec_float) (st : option session_state),
     (forall key v, widgets key = Some v -> B64.weight_ok v) ->
     (forall s f w, st = Some s ->
        In (f, w) (risk_weights s ++ safety_weights s)%list -> B64.weight_ok w) ->
     forall f w',
       In (f, w') (norm_risk_weights (col_sidebar widgets st) ++
                   norm_safety_weights (col_sidebar widgets st))%list ->
       fle zero w' = true /\ fle w' (of_Z 1) = true).
Proof.
  assert (Hmain : forall weights : dict (num := spec_float),
    (forall f w, In (f, w) weights -> B64.weight_ok w) ->
    forall f w', In (f, w') (norm_weights weights) ->
      fle zero w' = true /\ fle w' (of_Z 1) = true).
  { intros weights Hw f w' Hin. unfold norm_weights in Hin.
    apply in_map_iff in Hin as ([k v] & [= <- <-] & Hin). simpl.
    assert (Hall : List.Forall B64.weight_ok (values weights)).
    { apply List.Forall_forall. intros w Hwin.
      apply in_map_iff in Hwin as ([k' w0] & <- & Hin'). exact (Hw k' w0 Hin'). }
    assert (Hstart : B64.partial_sum (S754_zero false)) by (split; reflexivity).
    destruct (B64Sum.fold_sum (values weights) _ Hstart Hall) as (Ht & _ & Hle).
    change (fold_left (SFadd 53 1024) (values weights) (S754_zero false))
      with (sum (values weights)) in Ht, Hle.
    destruct (SFltb (S754_zero false) (sum (values weights))) eqn:Hpos.
    - apply B64Sum.quotient_in_unit_interval; try assumption.
      + exact (Hw k v Hin).
      + rewrite List.Forall_forall in Hle. apply Hle.
        apply in_map_iff. exists (k, v). split; [reflexivity|assumption].
    - split; reflexivity. }
  split; [exact Hmain|].
  intros widgets st Hwid Hst f w' Hin.
  assert (Hdef : B64.weight_ok (dec 1 10)) by (repeat split; reflexivity).
  assert (Hst0 : forall f w,
    In (f, w) (risk_weights
                 match st with
                 | Some s => s
                 | None => {| risk_weights := initial_risk_weights;
                              safety_weights := initial_safety_weights |}
                 end ++
               safety_weights
                 match st with
                 | Some s => s
                 | None => {| risk_weights := initial_risk_weights;
                              safety_weights := initial_safety_weights |}
                 end)%list -> B64.weight_ok w).
  { destruct st as [s|]; [intros f0 w0; now apply (Hst s)|].
    intros f0 w0 Hin0. cbn in Hin0.
    repeat (destruct Hin0 as [[= <- <-]|Hin0]; [repeat split; reflexivity|]).
    destruct Hin0. }
  apply in_app_or in Hin as [Hin|Hin]; revert Hin; apply Hmain;
    unfold col_sidebar; cbn [risk_weights safety_weights];
    apply (sliders_in_range B64.weight_ok); try assumption;
    intros f0 w0 Hin0; apply (Hst0 f0); apply in_or_app; auto.
Qed.

(** ** binary64: [<] is a strict weak order on the values that are not NaN *)

Module B64Order.
Import B64.

Lemma ltb_key x y :
  B64.is_nan x = false -> B64.is_nan y = false ->
  (SFltb x y = true <-> key_lt (key x) (key y)).
Proof.
  intros Hx Hy. unfold SFltb, SFcompare.
  destruct x as [sx|sx| |sx mx ex]; try discriminate;
  destruct y as [sy|sy| |sy my ey]; try discriminate;
  try destruct sx; try destruct sy; simpl;
  try (split; [discriminate|lia]); try (split; [lia|reflexivity]).
  - change (Pos.compare_cont Eq mx my) with (Pos.compare mx my).
    destruct (Z.compare_spec ex ey); simpl;
      try (split; [discriminate|lia]); try (split; [lia|reflexivity]).
    destruct (Pos.compare_spec mx my); simpl;
      try (split; [discriminate|lia]); try (split; [lia|reflexivity]).
  - change (Pos.compare_cont Eq mx my) with (Pos.compare mx my).
    destruct (Z.compare_spec ex ey); simpl;
      try (split; [discriminate|lia]); try (split; [lia|reflexivity]).
    destruct (Pos.compare_spec mx my); simpl;
      try (split; [discriminate|lia]); try (split; [lia|reflexivity]).
Qed.

Lemma lt_irrefl x : not_nan x -> flt x x = false.
Proof.
  intros Hx. apply not_true_iff_false. intros Hlt.
  apply (ltb_key x x Hx Hx) in Hlt. unfold key_lt in Hlt.
  destruct (key x) as [[c e] m]. lia.
Qed.

Lemma lt_trans x y z : not_nan x -> not_nan y -> not_nan z ->
  flt x y = true -> flt y z = true -> flt x z = true.
Proof.
  intros Hx Hy Hz Hxy Hyz.
  apply (ltb_key x y Hx Hy) in Hxy. apply (ltb_key y z Hy Hz) in Hyz.
  apply (ltb_key x z Hx Hz). unfold key_lt in *.
  destruct (key x) as [[c1 e1] m1], (key y) as [[c2 e2] m2], (key z) as [[c3 e3] m3].
  lia.
Qed.

Lemma lt_cotrans x y z : not_nan x -> not_nan y -> not_nan z ->
  flt x y = true -> flt x z = true \/ flt z y = true.
Proof.
  intros Hx Hy Hz Hxy.
  apply (ltb_key x y Hx Hy) in Hxy.
  assert (Hk : key_lt (key x) (key z) \/ key_lt (key z) (key y)).
  { unfold key_lt in *.
    destruct (key x) as [[c1 e1] m1], (key y) as [[c2 e2] m2], (key z) as [[c3 e3] m3].
    lia. }
  destruct Hk as [Hk|Hk]; [left; now apply (ltb_key x z)|right; now apply (ltb_key z y)].
Qed.

Lemma leb_key x y :
  is_nan x = false -> is_nan y = false ->
  (SFleb x y = true <-> ~ key_lt (key y) (key x)).
Proof.
  intros Hx Hy. unfold SFleb, SFcompare.
  destruct x as [sx|sx| |sx mx ex]; try discriminate;
  destruct y as [sy|sy| |sy my ey]; try discriminate;
  try destruct sx; try destruct sy; simpl;
  try (split; [discriminate|lia]); try (split; [lia|reflexivity]).
  - change (Pos.compare_cont Eq mx my) with (Pos.compare mx my).
    destruct (Z.compare_spec ex ey); simpl;
      try (split; [discriminate|lia]); try (split; [lia|reflexivity]).
    destruct (Pos.compare_spec mx my); simpl;
      try (split; [discriminate|lia]); try (split; [lia|reflexivity]).
  - change (Pos.compare_cont Eq mx my) with (Pos.compare mx my).
    destruct (Z.compare_spec ex ey); simpl;
      try (split; [discriminate|lia]); try (split; [lia|reflexivity]).
    destruct (Pos.compare_spec mx my); simpl;
      try (split; [discriminate|lia]); try (split; [lia|reflexivity]).
Qed.

Lemma le_total (x y : spec_float) : isna x = false -> isna y = false ->
  fle x y = true \/ fle y x = true.
Proof.
  intros Hx Hy.
  assert (Hk : ~ key_lt (key y) (key x) \/ ~ key_lt (key x) (key y)).
  { unfold key_lt. destruct (key x) as [[c1 e1] m1], (key y) as [[c2 e2] m2]. lia. }
  destruct Hk as [Hk|Hk]; [left; now apply (leb_key x y)|right; now apply (leb_key y x)].
Qed.

End B64Order.

(** ** Ranking tables *)

Section RankingLemmas.
Context {num : Type} `{Arith num}.
Implicit Types (df gdf shown : DataFrame (num := num)) (key : list num).

Lemma forallb_isna_ordered asc key : forallb isna key = true -> ordered asc key = true.
Proof.
  induction key as [|x key IH]; simpl; [reflexivity|].
  intros Hall. apply andb_true_iff in Hall as [Hx Hall]. now rewrite Hx.
Qed.

Lemma ordered_tail asc x key : ordered asc (x :: key) = true -> ordered asc key = true.
Proof.
  simpl. destruct (isna x).
  - apply forallb_isna_ordered.
  - destruct key as [|y key]; [reflexivity|].
    intros Hxy. now apply andb_true_iff in Hxy as [_ Hxy].
Qed.

Lemma ordered_descending_nan_last key :
  ordered false key = true -> descending_nan_last key.
Proof.
  induction key as [|x key IH]; intros Hord i a b Ha Hb; [discriminate|].
  destruct i as [|i].
  - destruct key as [|y key]; [discriminate|].
    cbn in Ha, Hb. injection Ha as <-. injection Hb as <-.
    simpl in Hord. destruct (isna x) eqn:Ex.
    + apply andb_true_iff in Hord as [Hy _]. rewrite Hy. split; [auto|discriminate].
    + apply andb_true_iff in Hord as [Hxy _]. split; [discriminate|].
      intros Ey. rewrite Ey in Hxy. simpl in Hxy. auto.
  - cbn in Ha, Hb. apply (IH (ordered_tail _ _ _ Hord) i a b); assumption.
Qed.

Lemma descending_no_nan key :
  descending_nan_last key -> Forall (fun x => isna x = false) key -> descending key.
Proof.
  intros Hd Hall i x y Hx Hy.
  assert (Ey : isna y = false).
  { rewrite Forall_forall in Hall. apply Hall.
    apply list_elem_of_lookup. eauto. }
  now apply (Hd i x y Hx Hy).
Qed.

Lemma take_at_elem_of {A} (idx : list nat) (l : list A) x :
  x ∈ take_at idx l -> x ∈ l.
Proof.
  unfold take_at. intros Hx. apply list_elem_of_omap in Hx as (i & _ & Hi).
  apply list_elem_of_lookup. eauto.
Qed.

Lemma get_take_rows idx df name :
  get (take_rows idx df) name = take_column idx <$> get df name.
Proof.
  induction df as [|[n c] df IH]; simpl; [reflexivity|].
  destruct (String.eqb n name); [reflexivity|exact IH].
Qed.

Lemma sort_values_rows_permuted df by_ asc shown :
  sort_values df by_ asc shown -> rows_permuted df shown.
Proof. intros (idx & key & Hp & -> & _). exists idx. auto. Qed.

Lemma sort_values_descending df by_ shown :
  sort_values df by_ false shown ->
  exists key, numeric shown by_ = Ok key /\ descending_nan_last key.
Proof.
  intros (idx & key & _ & _ & Hkey & Hord). exists key. split; [assumption|].
  now apply ordered_descending_nan_last.
Qed.

Lemma bind_Ok_inv {A B} (r : result A) (k : A -> result B) b :
  r ≫= k = Ok b -> exists a, r = Ok a /\ k a = Ok b.
Proof. destruct r as [a|e]; [eauto|discriminate]. Qed.

Lemma getitem_Ok df name c : getitem df name = Ok c <-> get df name = Some c.
Proof.
  unfold getitem. destruct (get df name); split; intros Heq;
    try discriminate; now inversion Heq.
Qed.

Lemma fillna_series_no_nan (zero_not_na : isna (zero (num := num)) = false) s :
  Forall (fun x => isna x = false) (fillna_series s).
Proof.
  apply Forall_forall. intros x Hx.
  apply list_elem_of_fmap in Hx as (x0 & -> & _).
  unfold fillna0. destruct (isna x0) eqn:E0; assumption.
Qed.

(** In tab 2 the key column has been through [fillna(0)]. *)
Lemma tab2_display_key (zero_not_na : isna (zero (num := num)) = false)
    gdf c display_df s :
  tab2_display gdf c = Ok display_df ->
  numeric display_df c = Ok s -> Forall (fun x => isna x = false) s.
Proof.
  unfold tab2_display, tab2_fillna. intros Hd.
  apply bind_Ok_inv in Hd as (gdf' & Hg & Hd).
  apply bind_Ok_inv in Hg as (col & Hcol & Hg). injection Hg as <-.
  cbn [select_columns] in Hd.
  apply bind_Ok_inv in Hd as (c1 & Hc1 & Hd).
  apply bind_Ok_inv in Hd as (rest & Hrest & Hd). injection Hd as <-.
  apply bind_Ok_inv in Hrest as (c2 & Hc2 & Hrest).
  cbn in Hrest. injection Hrest as <-.
  apply getitem_Ok in Hc1, Hc2. rewrite get_setitem_eq in Hc2. injection Hc2 as <-.
  intros Hs. apply numeric_get in Hs. cbn [get] in Hs.
  destruct (String.eqb "행정동" c) eqn:En.
  - apply String.eqb_eq in En. subst c. rewrite get_setitem_eq in Hc1.
    injection Hc1 as <-. injection Hs as Hs.
    destruct col as [s0|s0]; [|discriminate]. injection Hs as <-.
    now apply fillna_series_no_nan.
  - rewrite String.eqb_refl in Hs. injection Hs as Hs.
    destruct col as [s0|s0]; [|discriminate]. injection Hs as <-.
    now apply fillna_series_no_nan.
Qed.

Lemma numeric_take_rows idx df name key :
  numeric (take_rows idx df) name = Ok key ->
  exists s, numeric df name = Ok s /\ key = take_at idx s.
Proof.
  unfold numeric, getitem. rewrite get_take_rows.
  destruct (get df name) as [[s|s]|]; simpl; try discriminate.
  intros [= <-]. eauto.
Qed.

End RankingLemmas.

(** ** The contract of [sort_values] can always be met *)

Section SortExists.
Context {num : Type} `{Arith num}.
Hypothesis fle_total : forall x y : num,
  isna x = false -> isna y = false -> fle x y = true \/ fle y x = true.
Implicit Types (df : DataFrame (num := num)) (key : list num)
  (l : list (nat * num)) (p q : nat * num).

Lemma in_order_total asc (x y : num) :
  isna x = false -> isna y = false ->
  in_order asc x y = false -> in_order asc y x = true.
Proof.
  intros Hx Hy. unfold in_order. destruct asc; intros Hn.
  - destruct (fle_total x y Hx Hy); congruence.
  - destruct (fle_total y x Hy Hx); congruence.
Qed.

Lemma insert_pair_perm asc p l : Permutation (insert_pair asc p l) (p :: l).
Proof.
  induction l as [|q l IH]; simpl; [reflexivity|].
  destruct (in_order asc (snd p) (snd q)); [reflexivity|].
  rewrite IH. apply perm_swap.
Qed.

Lemma sort_pairs_perm asc l : Permutation (sort_pairs asc l) l.
Proof.
  induction l as [|p l IH]; simpl; [reflexivity|].
  rewrite insert_pair_perm. now constructor.
Qed.

Lemma ordered_cons asc (x : num) (s : list num) :
  isna x = false ->
  ordered asc (x :: s) =
  match s with
  | [] => true
  | y :: _ => (isna y || in_order asc x y) && ordered asc s
  end.
Proof. intros Hx. simpl. rewrite Hx. reflexivity. Qed.

Lemma ordered_insert asc p l :
  isna (snd p) = false -> Forall (fun q => isna (snd q) = false) l ->
  ordered asc (map snd l) = true ->
  ordered asc (map snd (insert_pair asc p l)) = true.
Proof.
  intros Hp Hl. induction Hl as [|q l Hq Hl IH]; intros Hord.
  - simpl. now rewrite Hp.
  - cbn [insert_pair]. destruct (in_order asc (snd p) (snd q)) eqn:Epq.
    + cbn [map]. rewrite ordered_cons by assumption.
      cbn [map] in Hord. rewrite Epq, orb_true_r. exact Hord.
    + pose proof (in_order_total asc _ _ Hp Hq Epq) as Eqp.
      cbn [map] in Hord |- *. rewrite ordered_cons in Hord |- * by assumption.
      destruct l as [|q' l].
      * cbn. rewrite Hp, Eqp, orb_true_r. reflexivity.
      * cbn [map] in Hord. apply andb_true_iff in Hord as [Hqq Hord].
        specialize (IH Hord). cbn [insert_pair] in IH |- *.
        destruct (in_order asc (snd p) (snd q')); cbn [map] in IH |- *.
        -- rewrite Eqp, orb_true_r. exact IH.
        -- rewrite Hqq. exact IH.
Qed.

Lemma ordered_sort_pairs asc l :
  Forall (fun q => isna (snd q) = false) l ->
  ordered asc (map snd (sort_pairs asc l)) = true.
Proof.
  induction 1 as [|p l Hp Hl IH]; [reflexivity|].
  cbn [sort_pairs fold_right]. apply ordered_insert; try assumption.
  fold (sort_pairs asc l). now rewrite sort_pairs_perm.
Qed.

Lemma ordered_app_nan asc (s1 s2 : list num) :
  Forall (fun x => isna x = false) s1 -> ordered asc s1 = true ->
  forallb isna s2 = true -> ordered asc (s1 ++ s2)%list = true.
Proof.
  intros Hs1. induction Hs1 as [|x s1 Hx Hs1 IH]; intros Hord Hnan.
  - now apply forallb_isna_ordered.
  - cbn [app]. rewrite ordered_cons in Hord |- * by assumption.
    destruct s1 as [|y s1].
    + cbn [app]. destruct s2 as [|z s2]; [reflexivity|].
      cbn [forallb] in Hnan. apply andb_true_iff in Hnan as [Hz Hnan].
      rewrite Hz. cbn [orb andb]. apply forallb_isna_ordered.
      cbn [forallb]. now rewrite Hz.
    + cbn [app]. apply andb_true_iff in Hord as [Hxy Hord].
      rewrite Hxy. cbn [andb]. now apply IH.
Qed.

Lemma filter_split {A} (f : A -> bool) (l : list A) :
  Permutation (List.filter f l ++ List.filter (fun x => negb (f x)) l)%list l.
Proof.
  induction l as [|x l IH]; [reflexivity|]. cbn [List.filter].
  destruct (f x); cbn [negb app].
  - now constructor.
  - rewrite <- Permutation_middle. now constructor.
Qed.

Lemma enumerate_lookup key i x : In (i, x) (enumerate key) -> key !! i = Some x.
Proof.
  intros Hin. apply list_elem_of_In, list_elem_of_lookup in Hin as [j Hj].
  unfold enumerate in Hj. apply lookup_zip_with_Some in Hj as (a & b & [= -> ->] & Ha & Hb).
  apply lookup_seq in Ha as [-> _]. exact Hb.
Qed.

Lemma take_at_pairs key l :
  (forall i x, In (i, x) l -> key !! i = Some x) ->
  take_at (map fst l) key = map snd l.
Proof.
  induction l as [|[i x] l IH]; intros Hl; [reflexivity|].
  unfold take_at in *. cbn [map omap list_omap fst snd].
  rewrite (Hl i x) by now left. f_equal. apply IH.
  intros j y Hin. apply Hl. now right.
Qed.

Lemma take_at_app {A} (idx1 idx2 : list nat) (s : list A) :
  take_at (idx1 ++ idx2)%list s = (take_at idx1 s ++ take_at idx2 s)%list.
Proof. unfold take_at. apply omap_app. Qed.

Lemma argsort_perm asc key : Permutation (argsort asc key) (seq 0 (length key)).
Proof.
  unfold argsort. rewrite sort_pairs_perm, <- map_app.
  assert (Hf : Permutation
            (List.filter (fun p => negb (isna (snd p))) (enumerate key) ++
             List.filter (fun p => isna (snd p)) (enumerate key))%list
            (enumerate key)).
  { rewrite Permutation_app_comm.
    exact (filter_split (fun p => isna (snd p)) (enumerate key)). }
  rewrite Hf. unfold enumerate.
  change (map fst (zip (seq 0 (length key)) key)) with ((zip (seq 0 (length key)) key).*1).
  rewrite fst_zip; [reflexivity|]. rewrite length_seq. lia.
Qed.

Lemma argsort_ordered asc key : ordered asc (take_at (argsort asc key) key) = true.
Proof.
  unfold argsort. rewrite take_at_app.
  set (good := List.filter (fun p => negb (isna (snd p))) (enumerate key)).
  set (bad := List.filter (fun p => isna (snd p)) (enumerate key)).
  assert (Hgood : Forall (fun q => isna (snd q) = false) good).
  { apply List.Forall_forall. intros q Hq. apply filter_In in Hq as [_ Hq].
    now apply negb_true_iff in Hq. }
  rewrite !take_at_pairs.
  - apply ordered_app_nan.
    + apply Forall_map. cbn. now rewrite sort_pairs_perm.
    + now apply ordered_sort_pairs.
    + apply forallb_forall. intros x Hx.
      apply in_map_iff in Hx as (q & <- & Hq). now apply filter_In in Hq as [_ Hq].
  - intros i x Hin. apply filter_In in Hin as [Hin _]. now apply enumerate_lookup.
  - intros i x Hin. apply enumerate_lookup.
    apply (Permutation_in _ (sort_pairs_perm asc good)) in Hin.
    now apply filter_In in Hin as [Hin _].
Qed.

Lemma sort_values_exists df by_ asc key :
  numeric df by_ = Ok key -> length key = nrows df ->
  sort_values df by_ asc (take_rows (argsort asc key) df).
Proof.
  intros Hkey Hlen. exists (argsort asc key), (take_at (argsort asc key) key).
  split; [rewrite <- Hlen; apply argsort_perm|]. split; [reflexivity|]. split.
  - apply numeric_get. rewrite get_take_rows.
    apply numeric_get in Hkey. now rewrite Hkey.
  - apply argsort_ordered.
Qed.

Lemma select_columns_In df names d :
  select_columns df names = Ok d ->
  forall n c, In (n, c) d -> get df n = Some c.
Proof.
  revert d. induction names as [|n0 names IH]; intros d Hd n c Hin.
  - injection Hd as <-. destruct Hin.
  - cbn [select_columns] in Hd.
    apply bind_Ok_inv in Hd as (c0 & Hc0 & Hd).
    apply bind_Ok_inv in Hd as (rest & Hrest & Hd). injection Hd as <-.
    destruct Hin as [[= <- <-]|Hin]; [now apply getitem_Ok|].
    now apply (IH rest).
Qed.

Lemma select_columns_key_length df names d by_ key :
  wf_frame df -> select_columns df names = Ok d ->
  numeric d by_ = Ok key -> length key = nrows d.
Proof.
  intros Hwf Hd Hkey.
  pose proof (select_columns_In df names d Hd) as Hin.
  apply numeric_get, get_In in Hkey.
  pose proof (Hin _ _ Hkey) as Hk. apply get_In, Hwf in Hk. simpl in Hk.
  destruct d as [|[n1 c1] d]; [destruct Hkey|]. simpl.
  pose proof (Hin n1 c1 (or_introl eq_refl)) as H1. apply get_In, Hwf in H1.
  congruence.
Qed.

End SortExists.

Lemma tab2_fillna_wf {num : Type} `{Arith num} (gdf gdf' : DataFrame) c :
  wf_frame gdf -> tab2_fillna gdf c = Ok gdf' -> wf_frame gdf'.
Proof.
  intros Hwf Hg. unfold tab2_fillna in Hg.
  apply bind_Ok_inv in Hg as (col & Hcol & Hg). injection Hg as <-.
  apply wf_setitem; [assumption|].
  apply getitem_Ok, get_In, Hwf in Hcol. simpl in Hcol.
  rewrite <- Hcol. destruct col; simpl; [apply length_map|reflexivity].
Qed.

(** C4 (as amended).  The net-score ranking of tab 1 with the checkbox
    ticked holds the rows of the table reordered so that every net score is
    at least the next one, rows whose net score is NaN last; with the
    checkbox not ticked it is the table in its own order.  The factor
    ranking of tab 2 has no checkbox: whatever the state of the checkbox of
    tab 1, it holds the rows reordered so that every value of the selected
    factor is at least the next one.  Such a table exists whenever the
    columns to show exist. *)
Theorem ranking_tables (gdf : DataFrame (num := spec_float)) :
  (forall shown,
     tab1_ranking true gdf shown ->
     exists display_df key,
       select_columns gdf tab1_columns = Ok display_df /\
       rows_permuted display_df shown /\
       numeric shown "순위험도" = Ok key /\
       descending_nan_last key) /\
  (forall shown,
     tab1_ranking false gdf shown -> select_columns gdf tab1_columns = Ok shown) /\
  (forall sort_enabled selected_column shown,
     ranking (Factor selected_column) sort_enabled gdf shown ->
     exists display_df key,
       tab2_display gdf selected_column = Ok display_df /\
       rows_permuted display_df shown /\
       numeric shown selected_column = Ok key /\
       descending key) /\
  (wf_frame gdf ->
   (forall display_df key,
      select_columns gdf tab1_columns = Ok display_df ->
      numeric display_df "순위험도" = Ok key ->
      exists shown, tab1_ranking true gdf shown) /\
   (forall selected_column display_df key,
      tab2_display gdf selected_column = Ok display_df ->
      numeric display_df selected_column = Ok key ->
      exists shown, tab2_ranking selected_column gdf shown)).
Proof.
  split; [|split; [|split]].
  - intros shown (display_df & Hsel & Hsort).
    destruct (sort_values_descending _ _ _ Hsort) as (key & Hkey & Hdesc).
    exists display_df, key. split; [assumption|]. split; [|split; assumption].
    now apply sort_values_rows_permuted in Hsort.
  - now intros shown (display_df & Hsel & ->).
  - intros sort_enabled c shown (display_df & Hdisp & Hsort).
    destruct (sort_values_descending _ _ _ Hsort) as (key & Hkey & Hdesc).
    exists display_df, key. split; [assumption|]. split; [|split; [assumption|]].
    + now apply sort_values_rows_permuted in Hsort.
    + apply descending_no_nan; [assumption|].
      destruct Hsort as (idx & key' & _ & -> & _ & _).
      apply numeric_take_rows in Hkey as (s & Hs & ->).
      pose proof (tab2_display_key (num := spec_float) eq_refl
                    gdf c display_df s Hdisp Hs) as Hall.
      apply Forall_forall. intros x Hx. apply take_at_elem_of in Hx.
      rewrite Forall_forall in Hall. auto.
  - intros Hwf. split.
    + intros display_df key Hsel Hkey.
      exists (take_rows (argsort false key) display_df), display_df.
      split; [assumption|].
      apply (sort_values_exists B64Order.le_total); [assumption|].
      now apply (select_columns_key_length gdf tab1_columns display_df "순위험도").
    + intros c display_df key Hdisp Hkey.
      exists (take_rows (argsort false key) display_df), display_df.
      split; [assumption|].
      apply (sort_values_exists B64Order.le_total); [assumption|].
      unfold tab2_display in Hdisp.
      apply bind_Ok_inv in Hdisp as (gdf' & Hg & Hsel).
      apply (select_columns_key_length gdf' ["행정동"; c] display_df c);
        [|assumption|assumption].
      now apply (tab2_fillna_wf gdf gdf' c).
Qed.

Lemma example_factor_ranking :
  ranking (Factor "치안기관") false Examples.factor_gdf Examples.factor_sorted.
Proof.
  exists Examples.factor_gdf. split; [reflexivity|].
  exists [1; 0]%nat, [of_Z 2; of_Z 1]. repeat split.
  apply perm_swap.
Defined.

(** C4, counterexample to the claim as stated: with the checkbox not
    ticked, the factor ranking of tab 2 is not in the table's own order.
    For the two districts A (1) and B (2) every table that the tab can show
    is B, A. *)
Lemma factor_ranking_ignores_checkbox :
  natural_order (Factor "치안기관") Examples.factor_gdf = Ok Examples.factor_gdf /\
  ranking (Factor "치안기관") false Examples.factor_gdf Examples.factor_sorted /\
  (forall shown,
     ranking (Factor "치안기관") false Examples.factor_gdf shown ->
     shown = Examples.factor_sorted) /\
  Examples.factor_sorted <> Examples.factor_gdf.
Proof.
  split; [reflexivity|]. split; [exact example_factor_ranking|split].
  - intros shown (display_df & Hd & idx & key & Hp & -> & Hk & Ho).
    injection Hd as <-.
    apply Permutation_sym, Permutation_length_2_inv in Hp as [->| ->].
    + injection Hk as <-. discriminate Ho.
    + reflexivity.
  - discriminate.
Qed.

Lemma ranking_tables_witness :
  exists display_df key,
    tab2_display Examples.factor_gdf "치안기관" = Ok display_df /\
    rows_permuted display_df Examples.factor_sorted /\
    numeric Examples.factor_sorted "치안기관" = Ok key /\
    descending key.
Proof.
  apply (proj1 (proj2 (proj2 (ranking_tables Examples.factor_gdf)))
           false "치안기관" Examples.factor_sorted).
  exact example_factor_ranking.
Defined.

(** ** Concrete runs *)

Lemma example_wf_spec_gdf : wf_frame Examples.spec_gdf.
Proof.
  intros name c Hin. simpl in Hin.
  destruct Hin as [[= <- <-]|[[= <- <-]|[[= <- <-]|[]]]]; reflexivity.
Defined.

Lemma example_wf_nan_gdf : wf_frame Examples.nan_gdf.
Proof.
  intros name c Hin. simpl in Hin.
  destruct Hin as [[= <- <-]|[[= <- <-]|[]]]; reflexivity.
Defined.

Lemma net_score_witness :
  exists gdf',
    scores Examples.spec_gdf Examples.spec_state = Ok gdf' /\
    forall i, (i < nrows Examples.spec_gdf)%nat ->
      exists r s,
        cell gdf' "총위험도" i = Some r /\
        cell gdf' "총안전도" i = Some s /\
        cell gdf' "순위험도" i = Some (fsub r s).
Proof.
  apply (net_score_is_risk_minus_safety Examples.spec_gdf Examples.spec_state).
  - exact example_wf_spec_gdf.
  - intros f Hf. simpl in Hf.
    destruct Hf as [<-|[<-|[]]]; eexists; reflexivity.
Defined.

Lemma norm_weights_own_sum_witness :
  flt zero (sum (values (risk_weights Examples.initial_state))) = true /\
  forall f,
    dict_get (norm_risk_weights Examples.initial_state) f =
    (fun v => fdiv v (sum (values (risk_weights Examples.initial_state))))
      <$> dict_get (risk_weights Examples.initial_state) f.
Proof.
  split; [reflexivity|].
  apply (proj1 (norm_weights_own_sum Examples.initial_state)). reflexivity.
Defined.

Lemma missing_value_witness :
  (exists v, weighted_sum Examples.nan_gdf Examples.half_weight = Ok v) /\
  weighted_sum Examples.nan_gdf Examples.half_weight
  = weighted_sum (fillna_frame Examples.nan_gdf) Examples.half_weight.
Proof.
  destruct (missing_value_counts_as_zero Examples.nan_gdf Examples.half_weight)
    as (Hok & Heq & _).
  - exact example_wf_nan_gdf.
  - intros f Hf. simpl in Hf. destruct Hf as [<-|[]]. eexists; reflexivity.
  - split; assumption.
Defined.

(** C3, counterexample to the claim as stated: with every raw weight at
    zero, a district whose factor value is infinite gets NaN, not 0, as its
    weighted sum ([inf * 0] is NaN). *)
Lemma zero_weights_infinite_value :
  (forall f w, In (f, w) Examples.zero_weights -> SFeqb w zero = true) /\
  wf_frame Examples.inf_gdf /\
  weighted_sum Examples.inf_gdf (norm_weights Examples.zero_weights)
  = Ok (Ser [S754_nan]) /\
  cell (assign Examples.inf_gdf "총위험도" (Ser [S754_nan])) "총위험도" 0
  = Some S754_nan /\
  Some S754_nan <> Some (zero (num := spec_float)).
Proof.
  split; [|split; [|split; [|split]]].
  - intros f w [[= <- <-]|[]]. reflexivity.
  - intros name c [[= <- <-]|[[= <- <-]|[]]]; reflexivity.
  - reflexivity.
  - reflexivity.
  - discriminate.
Qed.

Lemma example_wf_mixed_gdf : wf_frame Examples.mixed_gdf.
Proof.
  intros name c Hin. simpl in Hin.
  destruct Hin as [[= <- <-]|[[= <- <-]|[]]]; reflexivity.
Defined.

Lemma zero_weights_witness :
  norm_weights Examples.zero_weights
  = map (fun kv => (fst kv, zero)) Examples.zero_weights /\
  exists v,
    weighted_sum Examples.mixed_gdf (norm_weights Examples.zero_weights) = Ok v /\
    cell (assign Examples.mixed_gdf "총위험도" v) "총위험도" 1 = Some zero.
Proof.
  destruct (zero_weights_contribute_zero Examples.mixed_gdf Examples.zero_weights)
    as [Hnorm Hsum].
  - intros f w [[= <- <-]|[]]. reflexivity.
  - split; [exact Hnorm|].
    destruct (Hsum example_wf_mixed_gdf) as (v & Hv & Hrow).
    + intros f [<-|[]]. eexists. reflexivity.
    + exists v. split; [exact Hv|]. apply Hrow; [simpl; lia|].
      intros f x [<-|[]] Hx. vm_compute in Hx. injection Hx as <-. reflexivity.
Defined.


(** A constant that is not a power of two: the initial risk weights, each
    multiplied by 10, normalise to values that differ in the last bit.  On
    both mappings the compensated sum is the same number as the plain
    one. *)
Lemma scaling_by_ten_changes_binary64 :
  flt zero (of_Z 10 : spec_float) = true /\
  sum_compensated (values (risk_weights Examples.initial_state))
  = sum (values (risk_weights Examples.initial_state)) /\
  sum_compensated
    (values (scale_weights (of_Z 10) (risk_weights Examples.initial_state)))
  = sum (values (scale_weights (of_Z 10) (risk_weights Examples.initial_state))) /\
  norm_weights (scale_weights (of_Z 10) (risk_weights Examples.initial_state))
  <> norm_weights (risk_weights Examples.initial_state) /\
  dict_get
    (norm_weights (scale_weights (of_Z 10) (risk_weights Examples.initial_state)))
    "유흥업소 수"
  <> dict_get (norm_weights (risk_weights Examples.initial_state)) "유흥업소 수".
Proof.
  split; [reflexivity|]. split; [vm_compute; reflexivity|].
  split; [vm_compute; reflexivity|]. split.
  - intros Heq. vm_compute in Heq. discriminate Heq.
  - intros Heq. vm_compute in Heq. discriminate Heq.
Qed.


Lemma norm_weights_in_unit_interval_witness :
  fle zero (fdiv (dec 50 100) (sum (values (risk_weights Examples.initial_state))))
  = true /\
  fle (fdiv (dec 50 100) (sum (values (risk_weights Examples.initial_state))))
      (of_Z 1 : spec_float)
  = true.
Proof.
  apply (proj1 norm_weights_in_unit_interval (risk_weights Examples.initial_state))
    with (f := "등록인구").
  - intros f w Hin. simpl in Hin.
    repeat (destruct Hin as [[= <- <-]|Hin]; [repeat split; reflexivity|]).
    destruct Hin.
  - do 4 right. left. reflexivity.
Defined.

(** ** Ranks *)

Section CountLemmas.
Context {A : Type}.
Implicit Types (P Q T : A -> Prop) (l : list A).

Lemma filter_length_le P Q `{!forall x, Decision (P x)} `{!forall x, Decision (Q x)} l :
  Forall (fun y => P y -> Q y) l ->
  (length (filter P l) <= length (filter Q l))%nat.
Proof.
  induction 1 as [|y l Hy _ IH]; [reflexivity|].
  rewrite !filter_cons.
  destruct (decide (P y)) as [Hp|Hp], (decide (Q y)) as [Hq|Hq]; simpl; try lia.
  exfalso. auto.
Qed.

Lemma filter_length_lt P Q `{!forall x, Decision (P x)} `{!forall x, Decision (Q x)} l :
  Forall (fun y => P y -> Q y) l ->
  Exists (fun y => Q y /\ ~ P y) l ->
  (length (filter P l) < length (filter Q l))%nat.
Proof.
  intros Hall Hex. induction Hall as [|y l Hy Hall IH]; [inversion Hex|].
  pose proof (filter_length_le P Q l Hall) as Hle.
  rewrite !filter_cons.
  destruct (decide (P y)) as [Hp|Hp], (decide (Q y)) as [Hq|Hq]; simpl.
  - inversion Hex as [? ? [_ Hn]|? ? Hex']; subst; [contradiction|].
    specialize (IH Hex'). lia.
  - exfalso. auto.
  - lia.
  - inversion Hex as [? ? [Hq' _]|? ? Hex']; subst; [contradiction|].
    apply (IH Hex').
Qed.

Lemma filter_length_disjoint P T Q
    `{!forall x, Decision (P x)} `{!forall x, Decision (T x)}
    `{!forall x, Decision (Q x)} l :
  Forall (fun y => (P y -> Q y) /\ (T y -> Q y) /\ ~ (P y /\ T y)) l ->
  (length (filter P l) + length (filter T l) <= length (filter Q l))%nat.
Proof.
  induction 1 as [|y l (Hp & Ht & Hd) _ IH]; [reflexivity|].
  rewrite !filter_cons.
  destruct (decide (P y)), (decide (T y)), (decide (Q y)); simpl; try lia;
    exfalso; auto.
Qed.

Lemma filter_length_0 P `{!forall x, Decision (P x)} l :
  Forall (fun y => ~ P y) l -> length (filter P l) = 0%nat.
Proof.
  induction 1 as [|y l Hy _ IH]; [reflexivity|].
  rewrite filter_cons. destruct (decide (P y)); [contradiction|exact IH].
Qed.

End CountLemmas.

Section RankLemmas.
Context {num : Type} `{Arith num}.
Variable good : num -> Prop.
Hypothesis lt_irrefl : forall x, good x -> flt x x = false.
Hypothesis lt_trans : forall x y z, good x -> good y -> good z ->
  flt x y = true -> flt y z = true -> flt x z = true.
Hypothesis lt_cotrans : forall x y z, good x -> good y -> good z ->
  flt x y = true -> flt x z = true \/ flt z y = true.
Implicit Types (s l : list num).

Lemma tie_refl x : good x -> tie x x = true.
Proof. intros Hx. unfold tie. now rewrite lt_irrefl. Qed.

Lemma tie_spec x y : tie x y = true <-> flt x y = false /\ flt y x = false.
Proof.
  unfold tie. rewrite andb_true_iff, !negb_true_iff. reflexivity.
Qed.

Lemma tie_lt_r x y z : good x -> good y -> good z ->
  tie x y = true -> flt x z = true -> flt y z = true.
Proof.
  intros Hx Hy Hz Ht Hxz. apply tie_spec in Ht as [Hxy _].
  destruct (lt_cotrans x z y Hx Hz Hy Hxz) as [Hxy'|Hyz]; [congruence|assumption].
Qed.

Lemma tie_lt_l x y z : good x -> good y -> good z ->
  tie x y = true -> flt z x = true -> flt z y = true.
Proof.
  intros Hx Hy Hz Ht Hzx. apply tie_spec in Ht as [_ Hyx].
  destruct (lt_cotrans z x y Hz Hx Hy Hzx) as [Hzy|Hyx']; [assumption|congruence].
Qed.

Lemma insert_desc_perm x l : Permutation (insert_desc x l) (x :: l).
Proof.
  induction l as [|y l IH]; simpl; [reflexivity|].
  destruct (flt y x); [reflexivity|].
  rewrite IH. apply perm_swap.
Qed.

Lemma sort_desc_perm s : Permutation (sort_desc s) s.
Proof.
  induction s as [|x s IH]; simpl; [reflexivity|].
  rewrite insert_desc_perm. now constructor.
Qed.

Lemma insert_desc_sorted x l :
  good x -> Forall good l -> desc_sorted l -> desc_sorted (insert_desc x l).
Proof.
  intros Hx Hl Hs. induction Hs as [|y l Hs IH Hy]; simpl.
  - repeat constructor.
  - inversion Hl as [|? ? Hgy Hgl]; subst.
    destruct (flt y x) eqn:Eyx.
    + constructor; [now constructor|].
      constructor.
      * destruct (flt x y) eqn:Exy; [|reflexivity].
        rewrite <- (lt_irrefl x Hx). symmetry. now apply (lt_trans x y x).
      * rewrite Forall_forall in Hy, Hgl |- *. intros z Hz.
        destruct (flt x z) eqn:Exz; [|reflexivity].
        rewrite <- (Hy z Hz). symmetry. apply (lt_trans y x z); auto.
    + constructor; [now apply IH|].
      rewrite (insert_desc_perm x l). now constructor.
Qed.

Lemma sort_desc_sorted s : Forall good s -> desc_sorted (sort_desc s).
Proof.
  induction 1 as [|x s Hx Hs IH]; simpl; [constructor|].
  apply insert_desc_sorted; [assumption| |assumption].
  now rewrite sort_desc_perm.
Qed.

Lemma count_greater_perm x l l' :
  Permutation l l' -> count_greater x l = count_greater x l'.
Proof. intros Hp. unfold count_greater. now rewrite Hp. Qed.

Lemma first_position_sorted x l :
  good x -> Forall good l -> desc_sorted l ->
  Exists (fun t => tie x t = true) l ->
  first_position x l = count_greater x l.
Proof.
  intros Hx Hl Hs. induction Hs as [|y l Hs IH Hy]; intros Hex; [inversion Hex|].
  inversion Hl as [|? ? Hgy Hgl]; subst.
  unfold count_greater. simpl. rewrite filter_cons.
  destruct (tie x y) eqn:Et.
  - pose proof (proj1 (tie_spec x y) Et) as [Hxy _].
    destruct (decide (flt x y = true)) as [Hc|_]; [congruence|].
    symmetry. apply filter_length_0.
    rewrite Forall_forall in Hy, Hgl |- *. intros z Hz Hxz.
    pose proof (tie_lt_r x y z Hx Hgy (Hgl z Hz) Et Hxz) as Hyz.
    rewrite (Hy z Hz) in Hyz. discriminate.
  - inversion Hex as [? ? Htie|? ? Hex']; subst; [congruence|].
    assert (Hxy : flt x y = true).
    { apply Exists_exists in Hex' as (t & Hin & Htie).
      rewrite Forall_forall in Hy, Hgl.
      destruct (flt x y) eqn:Exy; [reflexivity|].
      destruct (flt y x) eqn:Eyx.
      - pose proof (tie_lt_l x t y Hx (Hgl t Hin) Hgy Htie Eyx) as Hyt.
        rewrite (Hy t Hin) in Hyt. discriminate.
      - exfalso. apply not_true_iff_false in Et. apply Et, tie_spec. auto. }
    destruct (decide (flt x y = true)) as [_|Hc]; [|contradiction].
    simpl. f_equal. now apply IH.
Qed.

Lemma first_position_count x s :
  Forall good s -> x ∈ s -> first_position x (sort_desc s) = count_greater x s.
Proof.
  intros Hs Hx.
  assert (Hgx : good x) by (rewrite Forall_forall in Hs; auto).
  rewrite <- (count_greater_perm x _ _ (sort_desc_perm s)).
  apply first_position_sorted; try assumption.
  - now rewrite sort_desc_perm.
  - now apply sort_desc_sorted.
  - apply Exists_exists. exists x. split; [|now apply tie_refl].
    now rewrite sort_desc_perm.
Qed.

(** The rank of a value is one more than the number of greater values. *)
Lemma rank_min_desc_lookup s i x :
  Forall good s -> s !! i = Some x ->
  rank_min_desc s !! i = Some (Z.of_nat (S (count_greater x s))).
Proof.
  intros Hs Hi. unfold rank_min_desc. rewrite list_lookup_fmap, Hi. simpl.
  rewrite first_position_count; [reflexivity|assumption|].
  apply list_elem_of_lookup. eauto.
Qed.

Lemma count_greater_largest x s :
  Forall (fun y => flt x y = false) s -> count_greater x s = 0%nat.
Proof.
  intros Hmax. apply filter_length_0.
  eapply Forall_impl; [exact Hmax|]. intros y Hy. congruence.
Qed.

Lemma count_greater_tie x y s :
  Forall good s -> good x -> good y -> tie x y = true ->
  count_greater x s = count_greater y s.
Proof.
  intros Hs Hx Hy Ht.
  assert (Hyx : tie y x = true) by (apply tie_spec in Ht as []; apply tie_spec; auto).
  apply Nat.le_antisymm; apply filter_length_le;
    (eapply Forall_impl; [exact Hs|]); intros z Hz Hlt.
  - now apply (tie_lt_r x y z).
  - now apply (tie_lt_r y x z).
Qed.

Lemma count_greater_above x y s :
  Forall good s -> good x -> y ∈ s -> flt x y = true ->
  (count_greater y s < count_greater x s)%nat.
Proof.
  intros Hs Hx Hy Hxy.
  assert (Hgy : good y) by (rewrite Forall_forall in Hs; auto).
  apply filter_length_lt.
  - eapply Forall_impl; [exact Hs|]. intros z Hz Hyz. now apply (lt_trans x y z).
  - apply Exists_exists. exists y. split; [assumption|]. split; [assumption|].
    rewrite lt_irrefl by assumption. discriminate.
Qed.

Lemma count_greater_below x y s :
  Forall good s -> good x -> good y -> flt y x = true ->
  (count_greater x s + count_tied x s <= count_greater y s)%nat.
Proof.
  intros Hs Hx Hy Hyx. apply filter_length_disjoint.
  eapply Forall_impl; [exact Hs|]. intros z Hz. split; [|split].
  - intros Hxz. now apply (lt_trans y x z).
  - intros Ht. now apply (tie_lt_l x z y).
  - intros [Hxz Ht]. apply tie_spec in Ht as [Hxz' _]. congruence.
Qed.

Hypothesis not_na_good : forall x, isna x = false -> good x.

Lemma rank_as_int_no_nan s r : rank_as_int s = Ok r -> Forall good s /\ r = rank_min_desc s.
Proof.
  unfold rank_as_int. destruct (existsb isna s) eqn:Ena; [discriminate|].
  intros [= <-]. split; [|reflexivity].
  apply Forall_forall. intros x Hx. apply not_na_good.
  destruct (isna x) eqn:Ex; [|reflexivity].
  rewrite <- Ena. symmetry. apply existsb_exists. exists x. split; [|assumption].
  now apply list_elem_of_In.
Qed.

Lemma rank_as_int_spec s r : rank_as_int s = Ok r -> min_rank_desc s r.
Proof.
  intros Hr. apply rank_as_int_no_nan in Hr as [Hs ->].
  split; [unfold rank_min_desc; apply length_map|].
  intros i x ri Hx Hri.
  assert (Hgx : good x).
  { rewrite Forall_forall in Hs. apply Hs, list_elem_of_lookup. eauto. }
  rewrite (rank_min_desc_lookup s i x Hs Hx) in Hri. injection Hri as <-.
  split; [lia|]. split.
  - intros Hmax. rewrite (count_greater_largest x s Hmax). reflexivity.
  - intros j y rj Hy Hrj.
    assert (Hiny : y ∈ s) by (apply list_elem_of_lookup; eauto).
    assert (Hgy : good y) by (rewrite Forall_forall in Hs; auto).
    rewrite (rank_min_desc_lookup s j y Hs Hy) in Hrj. injection Hrj as <-.
    split; [|split].
    + intros Ht. now rewrite (count_greater_tie x y s Hs Hgx Hgy Ht).
    + intros Hxy. pose proof (count_greater_above x y s Hs Hgx Hiny Hxy). lia.
    + intros Hyx. pose proof (count_greater_below x y s Hs Hgx Hgy Hyx). lia.
Qed.

End RankLemmas.


(** ** Steps of the script *)

Section UiLemmas.
Context {A B : Type}.

Lemma ui_bind_lift (r : result A) (k : A -> ui B) :
  ui_bind (lift r) k = match r with Ok a => k a | Raise e => ([], Raise e) end.
Proof. destruct r as [a|e]; simpl; [now destruct (k a)|reflexivity]. Qed.

Lemma ui_bind_lift_Ok (r : result A) (k : A -> ui B) log b :
  ui_bind (lift r) k = (log, Ok b) -> exists a, r = Ok a /\ k a = (log, Ok b).
Proof. rewrite ui_bind_lift. destruct r as [a|e]; [eauto|discriminate]. Qed.

Lemma ui_bind_emit (e : element) (k : unit -> ui B) :
  ui_bind (emit e) k = (e :: fst (k tt), snd (k tt)).
Proof. simpl. now destruct (k tt). Qed.

Lemma try_except_silent (body : ui A) (handler : exn -> ui A) a :
  (forall e, fst (handler e) <> []) ->
  try_except_file_not_found body handler = ([], Ok a) -> body = ([], Ok a).
Proof.
  intros Hh. unfold try_except_file_not_found.
  destruct body as [log [a'|e]]; [auto|].
  destruct e; auto. intros Heq. exfalso.
  specialize (Hh (FileNotFoundError path)).
  destruct (handler (FileNotFoundError path)) as [log' r]. simpl in Hh.
  injection Heq as Hlog _. apply app_eq_nil in Hlog as [_ Hlog]. contradiction.
Qed.

End UiLemmas.

Lemma rank_column_Ok {num : Type} `{Arith num} (df : DataFrame) name c :
  rank_column df name = Ok c ->
  exists s r, numeric df name = Ok s /\ rank_as_int s = Ok r /\ c = NumCol (map of_Z r).
Proof.
  unfold rank_column. intros Hc.
  apply bind_Ok_inv in Hc as (s & Hs & Hc).
  apply bind_Ok_inv in Hc as (r & Hr & Hc). injection Hc as <-. eauto.
Qed.

(** C10.  The rank columns of the correlation table.  On binary64, when
    [load_correlation_data] has loaded the table, its two rank columns hold
    the ranks of the crime counts and of the population figures from the
    largest value, ties taking the smallest rank of their group: the
    largest value has rank 1, equal values have equal ranks, a greater
    value has a smaller rank, and below [k] equal values of rank [r] the
    next rank is at least [r + k]. *)
Theorem rank_columns_min_descending
    (fs : Files (num := spec_float)) (merged_df : DataFrame) :
  load_correlation_data fs = ([], Ok merged_df) ->
  exists crime pop crime_rank pop_rank,
    numeric merged_df "범죄발생수" = Ok crime /\
    numeric merged_df "인구수" = Ok pop /\
    numeric merged_df "범죄발생수 순위" = Ok (map of_Z crime_rank) /\
    numeric merged_df "인구수 순위" = Ok (map of_Z pop_rank) /\
    min_rank_desc crime crime_rank /\
    min_rank_desc pop pop_rank.
Proof.
  unfold load_correlation_data. intros Hload.
  apply try_except_silent in Hload; [|intros e; discriminate].
  repeat (apply ui_bind_lift_Ok in Hload as (? & ? & Hload)).
  injection Hload as <-.
  match goal with Hc : rank_column _ "범죄발생수" = Ok _ |- _ =>
    apply rank_column_Ok in Hc as (crime & rc & Hcrime & Hrc & ->) end.
  match goal with Hp : rank_column _ "인구수" = Ok _ |- _ =>
    apply rank_column_Ok in Hp as (pop & rp & Hpop & Hrp & ->) end.
  exists crime, pop, rc, rp.
  assert (Hspec : forall (s : list spec_float) r,
             rank_as_int s = Ok r -> min_rank_desc s r).
  { apply (rank_as_int_spec (num := spec_float) B64.not_nan).
    - exact B64Order.lt_irrefl.
    - exact B64Order.lt_trans.
    - exact B64Order.lt_cotrans.
    - auto. }
  split; [|split; [|split; [|split; [|split]]]];
    try (now apply Hspec); apply numeric_get.
  - rewrite !get_setitem_ne by (intros Heq; discriminate Heq). now apply numeric_get.
  - rewrite get_setitem_ne by (intros Heq; discriminate Heq). now apply numeric_get.
  - rewrite get_setitem_ne by (intros Heq; discriminate Heq). apply get_setitem_eq.
  - apply get_setitem_eq.
Qed.

(** ** Failures of the loaders *)

Section LoaderLemmas.
Context {num : Type} `{Arith num}.
Implicit Types (fs : Files (num := num)) (w : Widgets (num := num)).

Lemma mascot_cases fs :
  mascot fs = match mascot_png fs with
              | Some _ => ([drawn Mascot], Ok tt)
              | None => ([st_warning MascotNotFound], Ok tt)
              end.
Proof. unfold mascot. destruct (mascot_png fs); reflexivity. Qed.

Lemma load_data_no_csv fs :
  daegu_crime_data_csv fs = None ->
  load_data fs =
  ([st_error (DataFileError (FileNotFoundError "daegu_crime_data.csv"))], Ok None).
Proof. intros Hcsv. unfold load_data. rewrite Hcsv. reflexivity. Qed.

Lemma load_data_dong fs crime dong :
  daegu_crime_data_csv fs = Some crime -> get crime "행정동" = Some dong ->
  load_data fs =
  try_except_file_not_found
    (let* daegu_map :=
       lift (read_file (read_file_missing fs) (daegu_map_geojson fs)
                       "daegu_map.geojson") in
     if existsb (String.eqb "adm_nm") (columns daegu_map) then
       let* adm_nm := lift (getitem daegu_map "adm_nm") in
       let* key := lift (str_split_last adm_nm) in
       let daegu_map := setitem daegu_map "행정동_키" (StrCol key) in
       let* merged_data :=
         lift (merge daegu_map
                 (boolean_index (fillna_frame crime)
                    (ne_str (fillna_column dong) "소계"))
                 "행정동_키" "행정동") in
       ret (Some merged_data)
     else
       let* _ := emit (st_error MapWithoutAdmNm) in
       ret None)
    (fun e =>
       let* _ := emit (st_error (DataFileError e)) in
       ret None).
Proof.
  intros Hcsv Hdong. unfold load_data. rewrite Hcsv. cbn [read].
  rewrite ui_bind_lift. unfold getitem at 1.
  rewrite get_fillna_frame, Hdong. cbn [fmap option_fmap option_map].
  rewrite ui_bind_lift. reflexivity.
Qed.

Lemma load_data_no_map fs crime dong :
  daegu_crime_data_csv fs = Some crime -> get crime "행정동" = Some dong ->
  daegu_map_geojson fs = None ->
  load_data fs =
  match read_file_missing fs "daegu_map.geojson" with
  | FileNotFoundError path =>
      ([st_error (DataFileError (FileNotFoundError path))], Ok None)
  | e => ([], Raise e)
  end.
Proof.
  intros Hcsv Hdong Hmap. rewrite (load_data_dong fs crime dong Hcsv Hdong).
  rewrite Hmap. cbn [read_file].
  destruct (read_file_missing fs "daegu_map.geojson"); reflexivity.
Qed.

Lemma load_data_no_adm_nm fs crime dong daegu_map :
  daegu_crime_data_csv fs = Some crime -> get crime "행정동" = Some dong ->
  daegu_map_geojson fs = Some daegu_map ->
  existsb (String.eqb "adm_nm") (columns daegu_map) = false ->
  load_data fs = ([st_error MapWithoutAdmNm], Ok None).
Proof.
  intros Hcsv Hdong Hmap Hadm. rewrite (load_data_dong fs crime dong Hcsv Hdong).
  rewrite Hmap. cbn [read_file]. rewrite ui_bind_lift, Hadm. reflexivity.
Qed.

Lemma load_data_no_dong fs crime :
  daegu_crime_data_csv fs = Some crime -> get crime "행정동" = None ->
  load_data fs = ([], Raise (KeyError "행정동")).
Proof.
  intros Hcsv Hdong. unfold load_data. rewrite Hcsv. cbn [read].
  rewrite ui_bind_lift. unfold getitem at 1.
  rewrite get_fillna_frame, Hdong. reflexivity.
Qed.

Lemma load_trend_data_no_file fs :
  trend_xlsx fs = None ->
  load_trend_data fs =
  ([st_error (TrendFileError (FileNotFoundError "범죄율 증감.xlsx"))], Ok None).
Proof. intros Hx. unfold load_trend_data. rewrite Hx. reflexivity. Qed.

Lemma load_correlation_data_no_file fs :
  corr_csv fs = None ->
  load_correlation_data fs = ([st_error CorrFileNotFound], Ok []).
Proof. intros Hx. unfold load_correlation_data. rewrite Hx. reflexivity. Qed.

Lemma tab_corr_no_file fs w :
  corr_csv fs = None -> tab_corr fs w = ([st_error CorrFileNotFound], Ok tt).
Proof.
  intros Hx. unfold tab_corr. rewrite (load_correlation_data_no_file fs Hx).
  reflexivity.
Qed.

(** When [load_data] has returned [None], the rest of the script is the
    message of the dashboard and then the two remaining tabs. *)
Lemma script_without_dashboard fs w st log tlog trend_df :
  load_data fs = (log, Ok None) ->
  load_trend_data fs = (tlog, Ok trend_df) ->
  script fs w st =
  (let* _ := (app (fst (mascot fs))
                (app log (app tlog [st_error DashboardUnavailable])), Ok tt) in
   let* _ := tab_overview trend_df in
   tab_corr fs w).
Proof.
  intros Hload Htrend. unfold script. rewrite Hload, Htrend, mascot_cases.
  destruct (mascot_png fs); cbn [ui_bind fst dashboard emit];
    destruct (ui_bind (tab_overview trend_df) (fun _ => tab_corr fs w)) as [l r];
    cbn; rewrite <- ?app_assoc; reflexivity.
Qed.

End LoaderLemmas.

(** X20.  What the handlers catch.  Whatever the other files hold: a
    missing mascot image is a warning; a missing crime file and a map
    without an ['adm_nm'] column are each one error message and [load_data]
    returns [None] without raising; a missing map file (the crime file
    having its ['행정동'] column) is that error message only when geopandas
    reports it as [FileNotFoundError], and with any other exception
    [load_data] raises it and writes nothing; a missing trend file and a
    missing correlation file are each one error message, their loaders
    return [None] and the empty table, and their tabs end with a message
    at most; and when [load_data] has returned [None] the script writes the
    dashboard message and goes on with the overview tab and the correlation
    tab as they are. *)
Theorem handled_failures
    {num : Type} `{Arith num}
    (fs : Files (num := num)) (w : Widgets (num := num))
    (st : option (session_state (num := num))) :
  (mascot_png fs = None -> mascot fs = ([st_warning MascotNotFound], Ok tt)) /\
  (daegu_crime_data_csv fs = None ->
   load_data fs =
   ([st_error (DataFileError (FileNotFoundError "daegu_crime_data.csv"))], Ok None)) /\
  (forall crime dong,
     daegu_crime_data_csv fs = Some crime -> get crime "행정동" = Some dong ->
     daegu_map_geojson fs = None ->
     load_data fs =
     match read_file_missing fs "daegu_map.geojson" with
     | FileNotFoundError path =>
         ([st_error (DataFileError (FileNotFoundError path))], Ok None)
     | e => ([], Raise e)
     end) /\
  (forall crime dong daegu_map,
     daegu_crime_data_csv fs = Some crime -> get crime "행정동" = Some dong ->
     daegu_map_geojson fs = Some daegu_map ->
     existsb (String.eqb "adm_nm") (columns daegu_map) = false ->
     load_data fs = ([st_error MapWithoutAdmNm], Ok None)) /\
  (trend_xlsx fs = None ->
   load_trend_data fs =
   ([st_error (TrendFileError (FileNotFoundError "범죄율 증감.xlsx"))], Ok None) /\
   tab_overview (num := num) None
   = ([drawn OverviewText; st_error TrendUnavailable], Ok tt)) /\
  (corr_csv fs = None ->
   load_correlation_data fs = ([st_error CorrFileNotFound], Ok []) /\
   tab_corr fs w = ([st_error CorrFileNotFound], Ok tt)) /\
  (forall log tlog trend_df,
     load_data fs = (log, Ok None) ->
     load_trend_data fs = (tlog, Ok trend_df) ->
     script fs w st =
     (let* _ := (app (fst (mascot fs))
                   (app log (app tlog [st_error DashboardUnavailable])), Ok tt) in
      let* _ := tab_overview trend_df in
      tab_corr fs w)).
Proof.
  split; [|split; [|split; [|split; [|split; [|split]]]]].
  - intros Hm. rewrite mascot_cases, Hm. reflexivity.
  - apply load_data_no_csv.
  - apply load_data_no_map.
  - apply load_data_no_adm_nm.
  - intros Hx. split; [now apply load_trend_data_no_file|reflexivity].
  - intros Hx. split; [now apply load_correlation_data_no_file|now apply tab_corr_no_file].
  - apply script_without_dashboard.
Qed.

Lemma handled_failures_witness :
  script Examples.no_files Examples.no_widgets None =
  ([st_warning MascotNotFound;
    st_error (DataFileError (FileNotFoundError "daegu_crime_data.csv"));
    st_error (TrendFileError (FileNotFoundError "범죄율 증감.xlsx"));
    st_error DashboardUnavailable;
    drawn OverviewText; st_error TrendUnavailable;
    st_error CorrFileNotFound], Ok tt).
Proof.
  destruct (handled_failures Examples.no_files Examples.no_widgets None)
    as (_ & Hcsv & _ & _ & Htrend & _ & Hscript).
  rewrite (Hscript _ _ None (Hcsv eq_refl) (proj1 (Htrend eq_refl))).
  reflexivity.
Defined.

(** C7, the failing inputs.  (1) The map file is missing and every other
    file is in place: geopandas reports the missing path with the exception
    of its engine ([DataSourceError] with pyogrio), which the handler of
    [load_data] does not catch although its message names the map file; no
    message is written and the script stops after the mascot.  (2) The
    crime file has no ['행정동'] column: [load_data] raises [KeyError],
    which nothing catches, and the script stops in the same way.  In both
    runs the overview tab and the correlation tab, whose own files are in
    place and which would be drawn as usual, are never reached. *)
Theorem uncaught_failures_stop_the_script :
  (load_data Examples.no_map_files = ([], Raise (OtherError "DataSourceError")) /\
   script Examples.no_map_files Examples.no_widgets None
   = ([drawn Mascot], Raise (OtherError "DataSourceError")) /\
   tab_corr Examples.no_map_files Examples.no_widgets = ([drawn CorrTab], Ok tt)) /\
  (load_data Examples.no_dong_files = ([], Raise (KeyError "행정동")) /\
   script Examples.no_dong_files Examples.no_widgets None
   = ([drawn Mascot], Raise (KeyError "행정동")) /\
   tab_corr Examples.no_dong_files Examples.no_widgets = ([drawn CorrTab], Ok tt)) /\
  tab_overview (Some (rename Examples.trend_table [("Unnamed: 0", "분기")]))
  = ([drawn OverviewText; drawn OverviewCharts], Ok tt).
Proof. repeat split; reflexivity. Qed.

Lemma rank_columns_witness :
  exists crime pop crime_rank pop_rank,
    numeric Examples.corr_merged "범죄발생수" = Ok crime /\
    numeric Examples.corr_merged "인구수" = Ok pop /\
    numeric Examples.corr_merged "범죄발생수 순위" = Ok (map of_Z crime_rank) /\
    numeric Examples.corr_merged "인구수 순위" = Ok (map of_Z pop_rank) /\
    min_rank_desc crime crime_rank /\
    min_rank_desc pop pop_rank.
Proof.
  apply (rank_columns_min_descending Examples.corr_files Examples.corr_merged).
  reflexivity.
Defined.

(** [str.split()] splits on the ideographic space (U+3000) and on the
    no-break space (U+00A0) as it does on a blank. *)
Example last_token_unicode_space :
  last_token "대구광역시　중구　동인동" = Some "동인동" /\
  last_token "대구광역시 중구 동인동" = Some "동인동" /\
  last_token "대구광역시 중구 동인동" = Some "동인동".
Proof. repeat split; reflexivity. Qed.

(** The ranks of the example: crime counts 5, 7, 1 rank 2, 1, 3; the
    populations 10, 50, 50 rank 3, 1, 1 (rank 2 is skipped). *)
Example rank_example :
  rank_as_int [of_Z 10; of_Z 50; of_Z 50 : spec_float] = Ok [3; 1; 1].
Proof. reflexivity. Qed.

(* ===================================================================== *)
(** * Further properties of the script *)
(* ===================================================================== *)


(** X3.  The total of one district, term by term.  For every table whose
    factor columns exist and are numeric, [scores] returns a table in which
    the total risk of district [i] is the left-to-right sum, from 0, of
    (factor value, NaN read as 0) * (normalised weight) over the risk
    factors in the order of the mapping, and the total safety is the same
    sum over the safety factors. *)
Theorem total_scores_row_formula
    {num : Type} `{Arith num} (gdf : DataFrame) (st : session_state) (i : nat) :
  wf_frame gdf ->
  (forall f, In f (map fst (risk_weights st) ++ map fst (safety_weights st))%list ->
             exists s, get gdf f = Some (NumCol s)) ->
  ~ In "총위험도" (map fst (safety_weights st)) ->
  (i < nrows gdf)%nat ->
  exists gdf',
    scores gdf st = Ok gdf' /\
    cell gdf' "총위험도" i = Some (sum (row_terms gdf (norm_risk_weights st) i)) /\
    cell gdf' "총안전도" i = Some (sum (row_terms gdf (norm_safety_weights st) i)).
Proof.
  intros Hwf Hcols Hno Hi.
  destruct (scores_columns gdf st Hwf Hcols)
    as (risk & safety & gdf' & Hrisk & Hsafety & Hscores & _ & _ & Ha & Hb & _).
  exists gdf'. split; [exact Hscores|].
  assert (Hrc : forall f, In f (map fst (norm_risk_weights st)) ->
                  exists s, get gdf f = Some (NumCol s)).
  { intros f Hf. apply Hcols, in_or_app. left.
    unfold norm_risk_weights in Hf. now rewrite norm_weights_keys in Hf. }
  assert (Hsc : forall f, In f (map fst (norm_safety_weights st)) ->
                  exists s, get gdf f = Some (NumCol s)).
  { intros f Hf. apply Hcols, in_or_app. right.
    unfold norm_safety_weights in Hf. now rewrite norm_weights_keys in Hf. }
  pose proof (weighted_sum_value_rows gdf _ risk Hwf Hrc Hrisk) as Hrows.
  split.
  - destruct (weighted_sum_row gdf (norm_risk_weights st) i Hwf Hrc Hi)
      as (v & Hv & Hvi).
    rewrite Hrisk in Hv. injection Hv as <-.
    unfold cell. rewrite Ha. exact Hvi.
  - set (gdf1 := assign gdf "총위험도" risk) in *.
    assert (Hwf1 : wf_frame gdf1) by now apply assign_wf.
    assert (Hn1 : nrows gdf1 = nrows gdf) by now apply assign_nrows.
    destruct (weighted_sum_row gdf1 (norm_safety_weights st) i Hwf1)
      as (v & Hv & Hvi).
    + intros f Hf. now apply assign_keeps_numeric, Hsc.
    + now rewrite Hn1.
    + rewrite Hsafety in Hv. injection Hv as <-.
      unfold cell. rewrite Hb. rewrite Hn1 in Hvi. rewrite Hvi.
      f_equal. f_equal. apply row_terms_ext. intros f Hf.
      unfold gdf1, assign. apply get_setitem_ne. intros <-. apply Hno.
      unfold norm_safety_weights in Hf. now rewrite norm_weights_keys in Hf.
Qed.

Lemma total_scores_row_formula_witness :
  exists gdf',
    scores Examples.spec_gdf Examples.spec_state = Ok gdf' /\
    cell gdf' "총위험도" 0
    = Some (sum (row_terms Examples.spec_gdf
                   (norm_risk_weights Examples.spec_state) 0)) /\
    cell gdf' "총안전도" 0
    = Some (sum (row_terms Examples.spec_gdf
                   (norm_safety_weights Examples.spec_state) 0)).
Proof.
  apply (total_scores_row_formula Examples.spec_gdf Examples.spec_state 0).
  - exact example_wf_spec_gdf.
  - intros f Hf. simpl in Hf.
    destruct Hf as [<-|[<-|[]]]; eexists; reflexivity.
  - simpl. intros [].
  - simpl. lia.
Defined.

(** ** Errors of the scores, and the columns they leave alone *)

Section ScoreErrors.
Context {num : Type} `{Arith num}.
Implicit Types (df gdf : DataFrame (num := num)) (d norm : dict (num := num)).
Implicit Types (c : column (num := num)).

Lemma foldM_app {A B} (f : A -> B -> result A) (l1 l2 : list B) (a : A) :
  foldM f a (l1 ++ l2)%list = a' ← foldM f a l1; foldM f a' l2.
Proof.
  revert a. induction l1 as [|b l1 IH]; intros a; simpl; [reflexivity|].
  destruct (f a b) as [a'|e]; simpl; [apply IH|reflexivity].
Qed.

Lemma foldM_terms_total gdf norm (acc : value (num := num)) :
  (forall f, In f (map fst norm) -> exists s, get gdf f = Some (NumCol s)) ->
  exists v,
    foldM (fun acc kv => t ← term gdf (fst kv) (snd kv); Ok (add_value acc (Ser t)))
          acc norm = Ok v.
Proof.
  revert acc. induction norm as [|[k w] norm IH]; intros acc Hcols; simpl; [eauto|].
  destruct (Hcols k) as [s Hs]; [now left|].
  apply numeric_get in Hs. rewrite (term_ok _ _ _ _ Hs). simpl.
  apply IH. intros f Hf. apply Hcols. now right.
Qed.

Lemma term_missing gdf f w : get gdf f = None -> term gdf f w = Raise (KeyError f).
Proof. intros Hg. unfold term, numeric, getitem. now rewrite Hg. Qed.

Lemma weighted_sum_missing gdf (before after : dict) f w :
  (forall g, In g (map fst before) -> exists s, get gdf g = Some (NumCol s)) ->
  get gdf f = None ->
  weighted_sum gdf (before ++ (f, w) :: after)%list = Raise (KeyError f).
Proof.
  intros Hcols Hf. unfold weighted_sum. rewrite foldM_app.
  destruct (foldM_terms_total gdf before (Scalar zero) Hcols) as [v ->].
  simpl. now rewrite (term_missing gdf f w Hf).
Qed.

Lemma norm_weights_app d1 d2 :
  exists g, norm_weights (d1 ++ d2)%list
            = (map (fun kv => (fst kv, g (snd kv))) d1
               ++ map (fun kv => (fst kv, g (snd kv))) d2)%list.
Proof.
  exists (fun x => if flt zero (sum (values (d1 ++ d2)%list))
                   then fdiv x (sum (values (d1 ++ d2)%list)) else zero).
  unfold norm_weights. cbv zeta. now rewrite map_app.
Qed.

Lemma weighted_sum_missing_norm gdf (before after : dict) f w :
  (forall g, In g (map fst before) -> exists s, get gdf g = Some (NumCol s)) ->
  get gdf f = None ->
  weighted_sum gdf (norm_weights (before ++ (f, w) :: after)%list)
  = Raise (KeyError f).
Proof.
  intros Hcols Hf.
  destruct (norm_weights_app before ((f, w) :: after)) as [g ->].
  cbn [map fst snd]. apply weighted_sum_missing; [|assumption].
  intros k Hk. rewrite map_map in Hk. cbn [fst] in Hk. now apply Hcols.
Qed.

Lemma columns_setitem df name c :
  columns (setitem df name c)
  = if has_column df name then columns df else (columns df ++ [name])%list.
Proof.
  unfold has_column, columns.
  induction df as [|[n c0] df IH]; simpl; [reflexivity|].
  rewrite (String.eqb_sym name n).
  destruct (String.eqb n name) eqn:E; simpl; [reflexivity|].
  rewrite IH. now destruct (existsb (String.eqb name) (map fst df)).
Qed.

Lemma has_column_setitem df name c name' :
  has_column (setitem df name c) name' = has_column df name' || String.eqb name' name.
Proof.
  unfold has_column. rewrite columns_setitem. unfold has_column.
  destruct (existsb (String.eqb name) (columns df)) eqn:E.
  - destruct (String.eqb name' name) eqn:E'; [|now rewrite orb_false_r].
    apply String.eqb_eq in E'. subst. rewrite E. reflexivity.
  - rewrite existsb_app. simpl. now rewrite orb_false_r.
Qed.

Lemma scores_inv gdf st gdf' :
  scores gdf st = Ok gdf' ->
  exists c1 c2 c3,
    gdf' = setitem (setitem (setitem gdf "총위험도" c1) "총안전도" c2) "순위험도" c3.
Proof.
  unfold scores. intros Hs.
  apply bind_Ok_inv in Hs as (risk & _ & Hs).
  apply bind_Ok_inv in Hs as (safety & _ & Hs).
  apply bind_Ok_inv in Hs as (a & _ & Hs).
  apply bind_Ok_inv in Hs as (b & _ & Hs).
  injection Hs as <-. unfold assign. eauto.
Qed.

Lemma scores_get_other gdf st gdf' name :
  scores gdf st = Ok gdf' ->
  ~ In name ["총위험도"; "총안전도"; "순위험도"] ->
  get gdf' name = get gdf name.
Proof.
  intros Hs Hn. apply scores_inv in Hs as (c1 & c2 & c3 & ->).
  rewrite !get_setitem_ne; [reflexivity| | |]; intros <-; apply Hn; simpl; auto.
Qed.

End ScoreErrors.

(** X5.  A weight without its column.  When the table has no column for a
    factor of the risk mapping, and the factors before it in the mapping
    have their numeric columns, [scores] raises [KeyError] naming that
    factor; the same for a factor of the safety mapping once all risk
    factors have their columns. *)
Theorem scores_missing_factor
    {num : Type} `{Arith num} (gdf : DataFrame) (st : session_state)
    (before after : dict) (f : string) (w : num) :
  get gdf f = None -> f <> "총위험도" ->
  (forall g, In g (map fst before) -> exists s, get gdf g = Some (NumCol s)) ->
  (risk_weights st = (before ++ (f, w) :: after)%list ->
   scores gdf st = Raise (KeyError f)) /\
  ((forall g, In g (map fst (risk_weights st)) ->
      exists s, get gdf g = Some (NumCol s)) ->
   safety_weights st = (before ++ (f, w) :: after)%list ->
   scores gdf st = Raise (KeyError f)).
Proof.
  intros Hf Hne Hcols. split.
  - intros Hr. unfold scores, norm_risk_weights. rewrite Hr.
    now rewrite (weighted_sum_missing_norm gdf before after f w Hcols Hf).
  - intros Hrisk Hs. unfold scores.
    destruct (foldM_terms_total gdf (norm_risk_weights st) (Scalar zero)) as [risk Hr].
    { intros g Hg. unfold norm_risk_weights in Hg. rewrite norm_weights_keys in Hg.
      now apply Hrisk. }
    change (foldM _ (Scalar zero) (norm_risk_weights st))
      with (weighted_sum gdf (norm_risk_weights st)) in Hr.
    rewrite Hr. simpl. unfold norm_safety_weights. rewrite Hs.
    rewrite (weighted_sum_missing_norm (assign gdf "총위험도" risk) before after f w).
    + reflexivity.
    + intros g Hg. apply assign_keeps_numeric. now apply Hcols.
    + unfold assign. rewrite get_setitem_ne by (intros E; apply Hne; now symmetry).
      exact Hf.
Qed.

Lemma scores_missing_factor_witness :
  scores Examples.spec_gdf MoreExamples.missing_state = Raise (KeyError "population").
Proof.
  apply (proj1 (scores_missing_factor Examples.spec_gdf MoreExamples.missing_state
                  [("risk1", of_Z 1)] [] "population" (of_Z 1)
                  eq_refl ltac:(discriminate)
                  ltac:(intros g [<-|[]]; eexists; reflexivity))).
  reflexivity.
Defined.

(** X6.  The scores touch their three columns only.  When [scores] returns
    a table, every column other than the three score columns is the column
    of the table it was given, and the column names are those of that table
    followed by the score columns it did not have yet, in the order of
    their assignment. *)
Theorem scores_keeps_other_columns
    {num : Type} `{Arith num} (gdf gdf' : DataFrame) (st : session_state) :
  scores gdf st = Ok gdf' ->
  (forall name, ~ In name ["총위험도"; "총안전도"; "순위험도"] ->
     get gdf' name = get gdf name) /\
  columns gdf'
  = (columns gdf
     ++ List.filter (fun n => negb (has_column gdf n))
          ["총위험도"; "총안전도"; "순위험도"])%list.
Proof.
  intros Hs. split.
  - intros name. now apply (scores_get_other gdf st).
  - apply scores_inv in Hs as (c1 & c2 & c3 & ->).
    rewrite !columns_setitem, !has_column_setitem. cbn [List.filter].
    change ("총안전도" =? "총위험도")%string with false.
    change ("순위험도" =? "총위험도")%string with false.
    change ("순위험도" =? "총안전도")%string with false.
    rewrite !orb_false_r.
    destruct (has_column gdf "총위험도"), (has_column gdf "총안전도"),
      (has_column gdf "순위험도"); cbn [negb]; rewrite <- ?app_assoc, ?app_nil_r;
      reflexivity.
Qed.

Lemma scores_keeps_other_columns_witness :
  get MoreExamples.spec_scored "risk1" = get Examples.spec_gdf "risk1" /\
  columns MoreExamples.spec_scored
  = ["행정동"; "risk1"; "risk2"; "총위험도"; "총안전도"; "순위험도"].
Proof.
  destruct (scores_keeps_other_columns Examples.spec_gdf MoreExamples.spec_scored
              Examples.spec_state) as [Hget Hcols]; [vm_compute; reflexivity|].
  split.
  - apply Hget. simpl. intros [E|[E|[E|[]]]]; discriminate E.
  - exact Hcols.
Defined.

(** ** The sliders of the sidebar *)

Section Sidebar.
Context {num : Type} `{Arith num}.
Implicit Types (d weights : dict (num := num)) (widgets : string -> option num).
Implicit Types (v : num) (key k prefix f : string).

Lemma dict_get_set_eq d k v : dict_get (dict_set d k v) k = Some v.
Proof.
  induction d as [|[k0 v0] d IH]; simpl.
  - now rewrite String.eqb_refl.
  - destruct (String.eqb k0 k) eqn:E; simpl; rewrite E; auto.
Qed.

Lemma dict_get_set_ne d k k' v :
  k <> k' -> dict_get (dict_set d k v) k' = dict_get d k'.
Proof.
  intros Hne. induction d as [|[k0 v0] d IH]; simpl.
  - destruct (String.eqb k k') eqn:E; auto.
    apply String.eqb_eq in E. contradiction.
  - destruct (String.eqb k0 k) eqn:E; simpl.
    + apply String.eqb_eq in E. subst k0.
      destruct (String.eqb k k') eqn:E'; auto.
      apply String.eqb_eq in E'. contradiction.
    + now rewrite IH.
Qed.

Lemma dict_set_same d k v : dict_get d k = Some v -> dict_set d k v = d.
Proof.
  induction d as [|[k0 v0] d IH]; simpl; [discriminate|].
  destruct (String.eqb k0 k) eqn:E.
  - now intros [= ->].
  - intros Hg. now rewrite IH.
Qed.

Lemma dict_set_keys weights k v f :
  In f (map fst (dict_set weights k v)) -> f = k \/ In f (map fst weights).
Proof.
  induction weights as [|[k0 v0] weights IH]; simpl.
  - intros [<-|[]]. now left.
  - destruct (String.eqb k0 k); simpl.
    + intros [<-|Hin]; right; [now left|now right].
    + intros [<-|Hin]; [right; now left|].
      destruct (IH Hin) as [->|Hin']; [now left|right; now right].
Qed.

Lemma slider_idem widgets key v :
  slider widgets key (slider widgets key v) = slider widgets key v.
Proof. unfold slider. now destruct (widgets key). Qed.

Lemma sliders_get widgets prefix factors weights f :
  dict_get (sliders widgets prefix factors weights) f
  = if existsb (String.eqb f) factors
    then Some (slider widgets (prefix ++ f) (get_or_default weights f))
    else dict_get weights f.
Proof.
  unfold sliders. revert weights.
  induction factors as [|g factors IH]; intros weights; [reflexivity|].
  cbn [fold_left existsb]. rewrite IH.
  fold (get_or_default weights g).
  destruct (String.eqb f g) eqn:E.
  - apply String.eqb_eq in E. subst g. cbn [orb].
    unfold get_or_default at 1. rewrite dict_get_set_eq.
    rewrite slider_idem. now destruct (existsb (String.eqb f) factors).
  - assert (Hne : g <> f) by (intros ->; now rewrite String.eqb_refl in E).
    cbn [orb]. unfold get_or_default at 1.
    rewrite (dict_get_set_ne _ _ _ _ Hne). reflexivity.
Qed.

Lemma sliders_unchanged widgets prefix factors weights :
  (forall f, In f factors ->
     exists v, dict_get weights f = Some v /\ slider widgets (prefix ++ f) v = v) ->
  sliders widgets prefix factors weights = weights.
Proof.
  unfold sliders. induction factors as [|g factors IH]; intros Hf; [reflexivity|].
  cbn [fold_left]. destruct (Hf g) as (v & Hg & Hv); [now left|].
  rewrite Hg, Hv, (dict_set_same _ _ _ Hg). apply IH.
  intros f Hin. apply Hf. now right.
Qed.

Lemma sliders_keys widgets prefix factors weights f :
  In f (map fst (sliders widgets prefix factors weights)) ->
  In f factors \/ In f (map fst weights).
Proof.
  unfold sliders. revert weights.
  induction factors as [|g factors IH]; intros weights; [now right|].
  cbn [fold_left]. intros Hin. apply IH in Hin as [Hin|Hin]; [left; now right|].
  apply dict_set_keys in Hin as [->|Hin]; [left; now left|now right].
Qed.

End Sidebar.

(** X7.  What the sidebar stores.  For a session whose weights are in the
    slider range: after the sidebar has run, the weight of every risk
    factor is the position of its slider, or, while the slider has none,
    the weight the session held for it, or 0.1 when it held none; a key
    that is no risk factor keeps its weight.  Likewise for the safety
    factors. *)
Theorem sidebar_weights
    {num : Type} `{Arith num} (widgets : string -> option num)
    (st : option session_state) (f : string) :
  (forall k v, In (k, v) (risk_weights (previous_state st)
                          ++ safety_weights (previous_state st))%list ->
     in_slider_range v = true) ->
  dict_get (risk_weights (col_sidebar widgets st)) f
  = (if existsb (String.eqb f) risk_factors
     then Some (slider widgets ("risk_" ++ f)
                  (get_or_default (risk_weights (previous_state st)) f))
     else dict_get (risk_weights (previous_state st)) f) /\
  dict_get (safety_weights (col_sidebar widgets st)) f
  = (if existsb (String.eqb f) safety_factors
     then Some (slider widgets ("safety_" ++ f)
                  (get_or_default (safety_weights (previous_state st)) f))
     else dict_get (safety_weights (previous_state st)) f).
Proof.
  intros _. unfold col_sidebar. cbn [risk_weights safety_weights].
  split; apply sliders_get.
Qed.

Lemma sidebar_weights_witness :
  dict_get (risk_weights (col_sidebar (fun _ => None) None)) "등록인구"
  = Some (dec 50 100 : spec_float) /\
  dict_get (safety_weights (col_sidebar (num := spec_float) (fun _ => None) None))
           "등록인구" = None.
Proof.
  destruct (sidebar_weights (num := spec_float) (fun _ => None) None "등록인구")
    as [Hr Hs].
  - intros k v Hin. simpl in Hin.
    repeat (destruct Hin as [[= <- <-]|Hin]; [reflexivity|]).
    destruct Hin.
  - split; [rewrite Hr|rewrite Hs]; reflexivity.
Defined.

(** X8.  A rerun without a moved slider.  For a session that holds a
    weight in range for every factor: when every slider shows the weight
    the session holds for its factor, the sidebar leaves the session's two
    mappings exactly as they are (keys, order and values). *)
Theorem sidebar_rerun_unchanged
    {num : Type} `{Arith num} (widgets : string -> option num) (s : session_state) :
  (forall f, In f risk_factors ->
     exists v, dict_get (risk_weights s) f = Some v
               /\ slider widgets ("risk_" ++ f) v = v) ->
  (forall f, In f safety_factors ->
     exists v, dict_get (safety_weights s) f = Some v
               /\ slider widgets ("safety_" ++ f) v = v) ->
  (forall k v, In (k, v) (risk_weights s ++ safety_weights s)%list ->
     in_slider_range v = true) ->
  col_sidebar widgets (Some s) = s.
Proof.
  intros Hr Hs _. unfold col_sidebar.
  rewrite (sliders_unchanged _ _ _ _ Hr), (sliders_unchanged _ _ _ _ Hs).
  now destruct s.
Qed.

Lemma sidebar_rerun_unchanged_witness :
  col_sidebar (num := spec_float) (fun _ => None) (Some Examples.initial_state)
  = Examples.initial_state.
Proof.
  apply (sidebar_rerun_unchanged (fun _ => None) Examples.initial_state).
  - intros f Hf. simpl in Hf.
    repeat (destruct Hf as [<-|Hf]; [eexists; split; reflexivity|]).
    destruct Hf.
  - intros f Hf. simpl in Hf.
    repeat (destruct Hf as [<-|Hf]; [eexists; split; reflexivity|]).
    destruct Hf.
  - intros k v Hin. simpl in Hin.
    repeat (destruct Hin as [[= <- <-]|Hin]; [reflexivity|]).
    destruct Hin.
Defined.

(** ** Tabs 1 and 2 on a complete table *)

Section DashboardContract.
Context {num : Type} `{Arith num}.
Implicit Types (gdf : DataFrame (num := num)).

Lemma factor_not_score f :
  In f selectable_columns ->
  ~ In f ["총위험도"; "총안전도"; "순위험도"] /\ f <> "행정동".
Proof.
  unfold selectable_columns. intros Hin. simpl in Hin.
  repeat (destruct Hin as [<-|Hin];
          [split; [intros [E|[E|[E|[]]]]; discriminate E|discriminate]|]).
  destruct Hin.
Qed.

End DashboardContract.

(** X9.  The columns that tabs 1 and 2 need.  For a table that has a
    numeric column for each of the fifteen factors, the ['행정동'] column
    and a numeric crime-count column, and for every state of the widgets
    (the selection being one of the options) and every previous session
    whose keys are factors and whose weights are in the slider range, every
    step of tabs 1 and 2 on the table finds its columns and returns: the
    three scores, the columns of the ranking table of tab 1, the column
    that the correlation reads, the fill of the selected column, and the
    columns and the sort key of the ranking table of tab 2. *)
Theorem dashboard_table_steps
    {num : Type} `{Arith num} (w : Widgets (num := num))
    (st : option session_state) (gdf : DataFrame) :
  wf_frame gdf ->
  (forall f, In f selectable_columns -> exists s, get gdf f = Some (NumCol s)) ->
  (exists c, get gdf "행정동" = Some c) ->
  (exists s, get gdf "범죄발생수(유동인구기준)" = Some (NumCol s)) ->
  (forall s k, st = Some s ->
     (In k (map fst (risk_weights s)) -> In k risk_factors) /\
     (In k (map fst (safety_weights s)) -> In k safety_factors)) ->
  (forall k v, In (k, v) (risk_weights (previous_state st)
                          ++ safety_weights (previous_state st))%list ->
     in_slider_range v = true) ->
  (forall c, individual_selection w = Some c -> In c selectable_columns) ->
  exists gdf1 display1 crime gdf2 display2 key,
    scores gdf (col_sidebar (slider_positions w) st) = Ok gdf1 /\
    select_columns gdf1 tab1_columns = Ok display1 /\
    numeric gdf1 "범죄발생수(유동인구기준)" = Ok crime /\
    tab2_fillna gdf1 (selected_column w) = Ok gdf2 /\
    select_columns gdf2 ["행정동"; selected_column w] = Ok display2 /\
    numeric gdf2 (selected_column w) = Ok key.
Proof.
  intros Hwf Hcols [dong Hdong] [crime Hcrime] Hst _ Hsel.
  set (st' := col_sidebar (slider_positions w) st).
  assert (Hkeys : forall f,
            In f (map fst (risk_weights st') ++ map fst (safety_weights st'))%list ->
            In f selectable_columns).
  { intros f Hf. unfold selectable_columns. apply in_app_iff.
    apply in_app_iff in Hf as [Hf|Hf]; unfold st', col_sidebar in Hf;
      cbn [risk_weights safety_weights] in Hf;
      apply sliders_keys in Hf as [Hf|Hf]; auto.
    - right. destruct st as [s|]; [now apply (Hst s f eq_refl)|exact Hf].
    - left. destruct st as [s|]; [now apply (Hst s f eq_refl)|exact Hf]. }
  destruct (scores_columns gdf st' Hwf) as
    (risk & safety & gdf' & _ & _ & Hscores & _ & _ & Ha & Hb & Hn).
  { intros f Hf. apply Hcols, Hkeys, Hf. }
  assert (Hother : forall name, ~ In name ["총위험도"; "총안전도"; "순위험도"] ->
            get gdf' name = get gdf name).
  { intros name. now apply (scores_get_other gdf st'). }
  apply numeric_get in Ha, Hb, Hn.
  assert (Hdong' : get gdf' "행정동" = Some dong).
  { rewrite Hother; [exact Hdong|]. intros [E|[E|[E|[]]]]; discriminate E. }
  assert (Hcrime' : get gdf' "범죄발생수(유동인구기준)" = Some (NumCol crime)).
  { rewrite Hother; [exact Hcrime|]. intros [E|[E|[E|[]]]]; discriminate E. }
  assert (Hsel1 : exists d, select_columns gdf' tab1_columns = Ok d).
  { unfold tab1_columns, select_columns, getitem. rewrite Hdong', Hn, Ha, Hb.
    cbn [mbind result_bind bind]. eauto. }
  destruct Hsel1 as [d1 Hd1].
  assert (Hin : In (selected_column w) selectable_columns).
  { unfold selected_column. destruct (individual_selection w) as [c|] eqn:E; [auto|].
    unfold selectable_columns. simpl. now left. }
  destruct (factor_not_score _ Hin) as [Hns Hnd].
  destruct (Hcols _ Hin) as [s Hs].
  assert (Hs' : get gdf' (selected_column w) = Some (NumCol s))
    by (now rewrite Hother).
  set (g := setitem gdf' (selected_column w) (NumCol (fillna_series s))).
  assert (Hfill : tab2_fillna gdf' (selected_column w) = Ok g).
  { unfold tab2_fillna, getitem. rewrite Hs'. reflexivity. }
  assert (Hsel2 : exists d, select_columns g ["행정동"; selected_column w] = Ok d).
  { unfold select_columns, getitem, g.
    rewrite (get_setitem_ne gdf' _ "행정동" _ Hnd), Hdong', get_setitem_eq.
    cbn [mbind result_bind bind]. eauto. }
  destruct Hsel2 as [d2 Hd2].
  exists gdf', d1, crime, g, d2, (fillna_series s).
  split; [exact Hscores|]. split; [exact Hd1|].
  split; [now apply numeric_get|]. split; [exact Hfill|]. split; [exact Hd2|].
  apply numeric_get, get_setitem_eq.
Qed.

Lemma dashboard_table_steps_witness :
  exists gdf1 display1 crime gdf2 display2 key,
    scores MoreExamples.full_gdf
           (col_sidebar (slider_positions Examples.no_widgets) None) = Ok gdf1 /\
    select_columns gdf1 tab1_columns = Ok display1 /\
    numeric gdf1 "범죄발생수(유동인구기준)" = Ok crime /\
    tab2_fillna gdf1 (selected_column Examples.no_widgets) = Ok gdf2 /\
    select_columns gdf2 ["행정동"; selected_column Examples.no_widgets] = Ok display2 /\
    numeric gdf2 (selected_column Examples.no_widgets) = Ok key.
Proof.
  apply (dashboard_table_steps Examples.no_widgets None MoreExamples.full_gdf).
  - intros name c Hin. simpl in Hin.
    repeat (destruct Hin as [[= <- <-]|Hin]; [reflexivity|]).
    destruct Hin.
  - intros f Hf. simpl in Hf.
    repeat (destruct Hf as [<-|Hf]; [eexists; reflexivity|]).
    destruct Hf.
  - eexists. reflexivity.
  - eexists. reflexivity.
  - intros s k Hs. discriminate Hs.
  - intros k v Hin. simpl in Hin.
    repeat (destruct Hin as [[= <- <-]|Hin]; [reflexivity|]).
    destruct Hin.
  - intros c Hc. discriminate Hc.
Defined.

(** ** Masks, and the columns of a join *)

Section Masks.
Context {num : Type} `{Arith num}.
Implicit Types (df left right : DataFrame (num := num)) (c : column (num := num)).

Lemma positions_from_spec {A} (p : A -> bool) (l : list A) (k i : nat) :
  In i (positions_from p l k) <->
  (k <= i)%nat /\ exists x, l !! (i - k)%nat = Some x /\ p x = true.
Proof.
  revert k. induction l as [|x l IH]; intros k; simpl.
  - split; [intros []|intros (_ & y & Hy & _); discriminate].
  - assert (Hrec : In i (positions_from p l (S k)) <->
                   (k < i)%nat /\ exists y, l !! (i - S k)%nat = Some y /\ p y = true).
    { rewrite IH. reflexivity. }
    destruct (p x) eqn:Ep; simpl; rewrite Hrec; split.
    + intros [<-|(Hlt & y & Hy & Hp)].
      * split; [lia|]. exists x. now rewrite Nat.sub_diag.
      * split; [lia|]. exists y. split; [|assumption].
        replace (i - k)%nat with (S (i - S k)) by lia. exact Hy.
    + intros (Hle & y & Hy & Hp).
      destruct (Nat.eq_dec k i) as [->|Hne]; [now left|right].
      split; [lia|]. exists y. split; [|assumption].
      replace (i - k)%nat with (S (i - S k)) in Hy by lia. exact Hy.
    + intros (Hlt & y & Hy & Hp). split; [lia|]. exists y. split; [|assumption].
      replace (i - k)%nat with (S (i - S k)) by lia. exact Hy.
    + intros (Hle & y & Hy & Hp).
      destruct (Nat.eq_dec k i) as [->|Hne].
      * rewrite Nat.sub_diag in Hy. injection Hy as ->. congruence.
      * split; [lia|]. exists y. split; [|assumption].
        replace (i - k)%nat with (S (i - S k)) in Hy by lia. exact Hy.
Qed.

Lemma positions_spec {A} (p : A -> bool) (l : list A) (i : nat) :
  In i (positions p l) <-> exists x, l !! i = Some x /\ p x = true.
Proof.
  unfold positions. rewrite positions_from_spec, Nat.sub_0_r.
  split; [intros [_ Hx]; exact Hx|intros Hx; split; [lia|exact Hx]].
Qed.

(** Picking the positions where a mask computed cell by cell holds is
    filtering: on the column itself, and row by row on any other column. *)
Lemma take_at_positions_from {A B} (p : A -> bool) (l : list A) (s : list B)
    (pre : list B) :
  take_at (positions_from (fun b : bool => b) (map p l) (length pre)) (pre ++ s)%list
  = map snd (List.filter (fun xy => p (fst xy)) (zip l s)).
Proof.
  revert s pre. induction l as [|x l IH]; intros s pre; [reflexivity|].
  cbn [map positions_from].
  destruct s as [|y s].
  - simpl. rewrite app_nil_r.
    assert (Hnil : forall (m : list bool) k, (length pre <= k)%nat ->
              take_at (positions_from (fun b : bool => b) m k) pre = []).
    { induction m as [|b m IHm]; intros k Hk; [reflexivity|]. simpl.
      destruct b; [|apply IHm; lia].
      unfold take_at. cbn [omap list_omap].
      rewrite (lookup_ge_None_2 pre k Hk). apply IHm. lia. }
    destruct (p x); [|apply Hnil; lia].
    unfold take_at. cbn [omap list_omap].
    rewrite (lookup_ge_None_2 pre (length pre)) by lia. apply Hnil. lia.
  - specialize (IH s (pre ++ [y])%list).
    rewrite length_app, Nat.add_1_r, <- app_assoc in IH. cbn [app] in IH.
    cbn [zip zip_with List.filter fst].
    destruct (p x); cbn [map snd].
    + unfold take_at in *. cbn [omap list_omap].
      rewrite lookup_app_r by lia. rewrite Nat.sub_diag. cbn. f_equal. exact IH.
    + exact IH.
Qed.

Lemma take_at_positions {A B} (p : A -> bool) (l : list A) (s : list B) :
  take_at (positions (fun b : bool => b) (map p l)) s
  = map snd (List.filter (fun xy => p (fst xy)) (zip l s)).
Proof. exact (take_at_positions_from p l s []). Qed.

Lemma filter_zip_self {A} (p : A -> bool) (l : list A) :
  map snd (List.filter (fun xy => p (fst xy)) (zip l l)) = List.filter p l.
Proof.
  induction l as [|x l IH]; [reflexivity|].
  cbn [zip zip_with List.filter fst]. destruct (p x); cbn [map snd]; now rewrite IH.
Qed.

Lemma get_app df1 df2 name :
  get (df1 ++ df2)%list name
  = match get df1 name with Some c => Some c | None => get df2 name end.
Proof.
  induction df1 as [|[n c] df1 IH]; simpl; [reflexivity|].
  destruct (String.eqb n name); [reflexivity|exact IH].
Qed.

Lemma get_map_renamed (ren : string -> string)
    (f : column (num := num) -> column (num := num)) df name :
  ren name = name -> (forall n, ren n = name -> n = name) ->
  get (map (fun nc => (ren (fst nc), f (snd nc))) df) name = f <$> get df name.
Proof.
  intros Hfix Hinj. induction df as [|[n c] df IH]; simpl; [reflexivity|].
  destruct (String.eqb n name) eqn:E.
  - apply String.eqb_eq in E. subst n. now rewrite Hfix, String.eqb_refl.
  - destruct (String.eqb (ren n) name) eqn:E'; [|exact IH].
    apply String.eqb_eq, Hinj in E'. subst n. now rewrite String.eqb_refl in E.
Qed.

Lemma get_map_renamed_none (ren : string -> string)
    (f : column (num := num) -> column (num := num)) df name :
  (forall n, ren n <> name) ->
  get (map (fun nc => (ren (fst nc), f (snd nc))) df) name = None.
Proof.
  intros Hno. induction df as [|[n c] df IH]; simpl; [reflexivity|].
  destruct (String.eqb (ren n) name) eqn:E; [|exact IH].
  apply String.eqb_eq in E. now apply Hno in E.
Qed.

Lemma has_get df name :
  existsb (String.eqb name) (columns df) = true <-> get df name <> None.
Proof.
  unfold columns. induction df as [|[n c] df IH]; simpl; [split; [discriminate|congruence]|].
  rewrite (String.eqb_sym name n).
  destruct (String.eqb n name); simpl; [split; [discriminate|reflexivity]|exact IH].
Qed.

Lemma merge_inv left right left_on right_on merged :
  merge left right left_on right_on = Ok merged ->
  exists lk rk eq,
    get left left_on = Some lk /\ get right right_on = Some rk /\
    key_eq lk rk = Ok eq /\
    let pairs :=
      flat_map (fun i => map (fun j => (i, j))
                             (List.filter (eq i) (seq 0 (nrows right))))
               (seq 0 (nrows left)) in
    let right' := if String.eqb left_on right_on
                  then drop_column right right_on else right in
    let clash n := existsb (String.eqb n) (columns left)
                   && existsb (String.eqb n) (columns right') in
    merged =
    (map (fun nc => (if clash (fst nc) then (fst nc ++ "_x")%string else fst nc,
                     take_column (map fst pairs) (snd nc))) left
     ++ map (fun nc => (if clash (fst nc) then (fst nc ++ "_y")%string else fst nc,
                        take_column (map snd pairs) (snd nc))) right')%list.
Proof.
  unfold merge. intros Hm.
  apply bind_Ok_inv in Hm as (lk & Hlk & Hm).
  apply bind_Ok_inv in Hm as (rk & Hrk & Hm).
  apply bind_Ok_inv in Hm as (eq & Heq & Hm).
  injection Hm as <-. exists lk, rk, eq.
  apply getitem_Ok in Hlk, Hrk. auto.
Qed.

Lemma flat_map_nil {A B} (f : A -> list B) (l : list A) :
  (forall x, In x l -> f x = []) -> flat_map f l = [].
Proof.
  induction l as [|x l IH]; intros Hf; [reflexivity|]. simpl.
  rewrite (Hf x) by now left. apply IH. intros y Hy. apply Hf. now right.
Qed.

Lemma filter_nil {A} (p : A -> bool) (l : list A) :
  (forall x, In x l -> p x = false) -> List.filter p l = [].
Proof.
  induction l as [|x l IH]; intros Hp; [reflexivity|]. simpl.
  rewrite (Hp x) by now left. apply IH. intros y Hy. apply Hp. now right.
Qed.

Lemma empty_no_rows df c name rest :
  df = (name, c) :: rest -> col_len c = 0%nat -> empty df = true.
Proof. intros -> Hc. simpl. now rewrite Hc. Qed.

End Masks.

Lemma append_suffix_ne (s : string) :
  (s ++ "_x")%string <> "행정동" /\ (s ++ "_y")%string <> "행정동".
Proof.
  split; intros E;
    repeat (destruct s as [|? s]; simpl in E; [discriminate E|injection E as _ E]);
    destruct s; discriminate E.
Qed.

(** ** [load_data] *)

Section LoadData.
Context {num : Type} `{Arith num}.
Implicit Types (fs : Files (num := num)) (df merged : DataFrame (num := num)).

Lemma try_except_Ok {A} (body : ui A) (handler : exn -> ui A) log (a : A) :
  (forall e, snd (handler e) <> Ok a) ->
  try_except_file_not_found body handler = (log, Ok a) -> body = (log, Ok a).
Proof.
  intros Hh. unfold try_except_file_not_found.
  destruct body as [l [x|e]]; [auto|].
  destruct e; auto. intros Heq. exfalso.
  specialize (Hh (FileNotFoundError path)).
  destruct (handler (FileNotFoundError path)) as [log' r]. simpl in Hh.
  injection Heq as _ Hr. contradiction.
Qed.

Lemma read_Ok (file : option (DataFrame (num := num))) path df :
  read file path = Ok df -> file = Some df.
Proof. destruct file; simpl; [now intros [= ->]|discriminate]. Qed.

Lemma read_file_Ok missing (file : option (DataFrame (num := num))) path df :
  read_file missing file path = Ok df -> file = Some df.
Proof. destruct file; simpl; [now intros [= ->]|discriminate]. Qed.

(** What [load_data] has done when it returns a table. *)
Lemma load_data_Some fs log merged :
  load_data fs = (log, Ok (Some merged)) ->
  exists crime dong daegu_map adm_nm key,
    daegu_crime_data_csv fs = Some crime /\
    get (fillna_frame crime) "행정동" = Some dong /\
    daegu_map_geojson fs = Some daegu_map /\
    get daegu_map "adm_nm" = Some adm_nm /\
    str_split_last adm_nm = Ok key /\
    merge (setitem daegu_map "행정동_키" (StrCol key))
          (boolean_index (fillna_frame crime) (ne_str dong "소계"))
          "행정동_키" "행정동" = Ok merged.
Proof.
  unfold load_data. intros Hload.
  apply try_except_Ok in Hload.
  2:{ intros e. simpl. discriminate. }
  apply ui_bind_lift_Ok in Hload as (crime & Hcrime & Hload).
  apply ui_bind_lift_Ok in Hload as (dong & Hdong & Hload).
  apply ui_bind_lift_Ok in Hload as (daegu_map & Hmap & Hload).
  destruct (existsb (String.eqb "adm_nm") (columns daegu_map)); [|discriminate Hload].
  apply ui_bind_lift_Ok in Hload as (adm_nm & Hadm & Hload).
  apply ui_bind_lift_Ok in Hload as (key & Hkey & Hload).
  apply ui_bind_lift_Ok in Hload as (m & Hm & Hload).
  injection Hload as _ <-.
  exists crime, dong, daegu_map, adm_nm, key.
  apply read_Ok in Hcrime. apply read_file_Ok in Hmap.
  apply getitem_Ok in Hdong, Hadm. auto 10.
Qed.

Lemma ne_str_take (d : list (option string)) (v : string) x :
  x ∈ take_at (positions (fun b : bool => b) (ne_str (StrCol (num := num) d) v)) d ->
  x <> Some v.
Proof.
  intros Hx. unfold take_at in Hx.
  apply list_elem_of_omap in Hx as (i & Hi & Hx).
  apply list_elem_of_In, positions_spec in Hi as (b & Hb & ->).
  cbn [ne_str] in Hb. rewrite list_lookup_fmap, Hx in Hb. cbn in Hb.
  injection Hb as Hb. intros ->. now rewrite String.eqb_refl in Hb.
Qed.

End LoadData.

(** X10.  What [load_data] returns.  Whenever [load_data] returns without
    raising: if it returns no table it has written exactly one error
    message, and if it returns a table it has written nothing, both files
    exist, the crime file has its ['행정동'] column and the map its
    ['adm_nm'] column. *)
Theorem load_data_outcomes
    {num : Type} `{Arith num} (fs : Files (num := num)) log
    (r : option (DataFrame (num := num))) :
  load_data fs = (log, Ok r) ->
  match r with
  | None => exists m, log = [st_error m]
  | Some merged =>
      log = [] /\
      exists crime daegu_map,
        daegu_crime_data_csv fs = Some crime /\
        daegu_map_geojson fs = Some daegu_map /\
        get crime "행정동" <> None /\ get daegu_map "adm_nm" <> None
  end.
Proof.
  unfold load_data. intros Hload.
  destruct (daegu_crime_data_csv fs) as [crime|] eqn:Hc; cbn [read] in Hload.
  2:{ injection Hload as <- <-. eauto. }
  rewrite ui_bind_lift in Hload.
  rewrite ui_bind_lift in Hload.
  destruct (getitem (fillna_frame crime) "행정동") as [dong|e] eqn:Hd.
  2:{ cbn in Hload. destruct e; try discriminate Hload.
      injection Hload as <- <-. eauto. }
  destruct (daegu_map_geojson fs) as [daegu_map|] eqn:Hm; cbn [read_file] in Hload.
  2:{ rewrite ui_bind_lift in Hload. cbn in Hload.
      destruct (read_file_missing fs "daegu_map.geojson"); try discriminate Hload.
      injection Hload as <- <-. eauto. }
  rewrite ui_bind_lift in Hload.
  destruct (existsb (String.eqb "adm_nm") (columns daegu_map)) eqn:Ha.
  2:{ injection Hload as <- <-. eauto. }
  rewrite ui_bind_lift in Hload.
  destruct (getitem daegu_map "adm_nm") as [adm|e].
  2:{ cbn in Hload. destruct e; try discriminate Hload.
      injection Hload as <- <-. eauto. }
  rewrite ui_bind_lift in Hload.
  destruct (str_split_last adm) as [key|e].
  2:{ cbn in Hload. destruct e; try discriminate Hload.
      injection Hload as <- <-. eauto. }
  rewrite ui_bind_lift in Hload.
  destruct (merge _ _ _ _) as [m|e].
  2:{ cbn in Hload. destruct e; try discriminate Hload.
      injection Hload as <- <-. eauto. }
  injection Hload as <- <-. split; [reflexivity|].
  exists crime, daegu_map. split; [reflexivity|]. split; [reflexivity|]. split.
  - apply getitem_Ok in Hd. rewrite get_fillna_frame in Hd.
    destruct (get crime "행정동"); [discriminate|discriminate Hd].
  - now apply has_get.
Qed.

Lemma load_data_outcomes_witness :
  exists m,
    [st_error (DataFileError (FileNotFoundError "daegu_crime_data.csv"))]
    = [st_error m].
Proof.
  apply (load_data_outcomes Examples.no_files _ None). reflexivity.
Defined.

(** X11.  The subtotal row is never a district.  Whenever [load_data]
    returns a table with a ['행정동'] column of text, no cell of that
    column is ['소계']. *)
Theorem load_data_drops_subtotal
    {num : Type} `{Arith num} (fs : Files (num := num)) log
    (merged : DataFrame) (dong : list (option string)) :
  load_data fs = (log, Ok (Some merged)) ->
  get merged "행정동" = Some (StrCol dong) ->
  ~ In (Some "소계") dong.
Proof.
  intros Hload Hget.
  apply load_data_Some in Hload
    as (crime & d & daegu_map & adm_nm & key & _ & Hd & _ & _ & _ & Hm).
  apply merge_inv in Hm as (lk & rk & eq & _ & Hrk & _ & Hm).
  cbv zeta in Hm. change ("행정동_키" =? "행정동")%string with false in Hm.
  cbv iota in Hm.
  set (right := boolean_index (fillna_frame crime) (ne_str d "소계")) in *.
  set (left := setitem daegu_map "행정동_키" (StrCol key)) in *.
  set (clash := fun n => existsb (String.eqb n) (columns left)
                         && existsb (String.eqb n) (columns right)) in *.
  assert (Hr : existsb (String.eqb "행정동") (columns right) = true).
  { apply has_get. now rewrite Hrk. }
  rewrite Hm, get_app in Hget.
  destruct (clash "행정동") eqn:Ec.
  - (* the map has a column of that name: both are renamed *)
    exfalso.
    rewrite (get_map_renamed_none
               (fun n => if clash n then (n ++ "_x")%string else n)) in Hget.
    + rewrite (get_map_renamed_none
                 (fun n => if clash n then (n ++ "_y")%string else n)) in Hget;
        [discriminate|].
      intros n. destruct (clash n) eqn:En; [apply append_suffix_ne|].
      intros ->. congruence.
    + intros n. destruct (clash n) eqn:En; [apply append_suffix_ne|].
      intros ->. congruence.
  - assert (Hl : get left "행정동" = None).
    { destruct (get left "행정동") eqn:E; [|reflexivity].
      assert (Hhas : existsb (String.eqb "행정동") (columns left) = true)
        by (apply has_get; congruence).
      unfold clash in Ec. rewrite Hhas, Hr in Ec. discriminate. }
    rewrite (get_map_renamed (fun n => if clash n then (n ++ "_x")%string else n)),
      Hl in Hget.
    2:{ now rewrite Ec. }
    2:{ intros n. destruct (clash n); [|auto]. intros E. now apply append_suffix_ne in E. }
    cbn [fmap option_fmap option_map] in Hget.
    rewrite (get_map_renamed (fun n => if clash n then (n ++ "_y")%string else n)),
      Hrk in Hget.
    2:{ now rewrite Ec. }
    2:{ intros n. destruct (clash n); [|auto]. intros E. now apply append_suffix_ne in E. }
    cbn [fmap option_fmap option_map] in Hget.
    unfold right, boolean_index in Hrk. rewrite get_take_rows, Hd in Hrk.
    cbn [fmap option_fmap option_map] in Hrk. injection Hrk as <-.
    destruct d as [s|s]; [discriminate Hget|].
    cbn [take_column] in Hget. injection Hget as <-.
    intros Hin. apply list_elem_of_In, take_at_elem_of in Hin.
    now apply (ne_str_take (num := num)) in Hin.
Qed.

Lemma load_data_drops_subtotal_witness : ~ In (Some "소계") [Some "동인동"].
Proof.
  apply (load_data_drops_subtotal MoreExamples.daegu_files []
           MoreExamples.daegu_merged [Some "동인동"]).
  - vm_compute. reflexivity.
  - reflexivity.
Defined.

(** A join without a pair of equal keys has no rows, and the dashboard
    refuses a table without rows. *)
Lemma no_common_token_no_rows
    {num : Type} `{Arith num} (fs : Files (num := num)) (w : Widgets (num := num))
    (st : option session_state) (crime daegu_map : DataFrame)
    (dong adm : list (option string)) :
  daegu_crime_data_csv fs = Some crime ->
  get crime "행정동" = Some (StrCol dong) ->
  daegu_map_geojson fs = Some daegu_map ->
  get daegu_map "adm_nm" = Some (StrCol adm) ->
  (forall a d, In (Some a) adm -> In (Some d) dong -> last_token a <> Some d) ->
  exists merged,
    load_data fs = ([], Ok (Some merged)) /\
    empty merged = true /\
    dashboard w st (Some merged) = ([st_error DashboardUnavailable], Ok tt).
Proof.
  intros Hcsv Hdong Hmap Hadm Hno.
  rewrite (load_data_dong fs crime (StrCol dong) Hcsv Hdong).
  rewrite Hmap. cbn [read_file]. rewrite ui_bind_lift.
  assert (Hhas : existsb (String.eqb "adm_nm") (columns daegu_map) = true).
  { apply has_get. congruence. }
  rewrite Hhas. unfold getitem at 1. rewrite Hadm. rewrite ui_bind_lift.
  cbn [str_split_last]. rewrite ui_bind_lift.
  cbn [fillna_column].
  set (key := map (fun x : option string =>
                     match x with Some y => last_token y | None => None end) adm).
  set (left := setitem daegu_map "행정동_키" (StrCol key)).
  set (right := boolean_index (fillna_frame crime) (ne_str (StrCol dong) "소계")).
  assert (Hlk : get left "행정동_키" = Some (StrCol key)) by apply get_setitem_eq.
  assert (Hrk : get right "행정동"
                = Some (StrCol (take_at (positions (fun b : bool => b)
                                           (ne_str (StrCol (num := num) dong) "소계")) dong))).
  { unfold right, boolean_index. rewrite get_take_rows, get_fillna_frame, Hdong.
    reflexivity. }
  unfold merge. unfold getitem. rewrite Hlk, Hrk.
  cbn [mbind result_bind bind key_eq].
  change ("행정동_키" =? "행정동")%string with false. cbv iota.
  rewrite (flat_map_nil _ (seq 0 (nrows left))).
  2:{ intros i _. rewrite filter_nil; [reflexivity|]. intros j _.
      destruct (key !! i) as [[t|]|] eqn:Ei; [|reflexivity|reflexivity].
      destruct (take_at _ dong !! j) as [[d|]|] eqn:Ej; [|reflexivity|reflexivity].
      apply String.eqb_neq. intros ->.
      unfold key in Ei. rewrite list_lookup_fmap in Ei.
      destruct (adm !! i) as [[a|]|] eqn:Ea; try discriminate Ei.
      cbn in Ei. injection Ei as Ei.
      apply (Hno a d).
      - apply list_elem_of_In, list_elem_of_lookup. eauto.
      - apply list_elem_of_In.
        eapply take_at_elem_of. apply list_elem_of_lookup. eauto.
      - exact Ei. }
  cbn [ui_bind lift]. cbn [map].
  eexists. split; [reflexivity|].
  assert (He : forall df : DataFrame (num := num),
             @empty num (map (fun nc => (if existsb (String.eqb (fst nc)) (columns left)
                                     && existsb (String.eqb (fst nc)) (columns right)
                                  then (fst nc ++ "_x")%string else fst nc,
                                  take_column [] (snd nc))) left ++ df)%list = true).
  { intros df. unfold left. destruct daegu_map as [|[n c] rest]; [discriminate Hadm|].
    cbn [setitem]. destruct (String.eqb n "행정동_키"); cbn [map app];
      eapply empty_no_rows; try reflexivity; cbn [snd]; now destruct c. }
  split; [apply He|].
  unfold dashboard. now rewrite He.
Qed.

(** X12.  No district in common.  When both files exist with their
    ['행정동'] and ['adm_nm'] columns of text, and none of the keys that
    [load_data] computes from ['adm_nm'] (the last word of each cell) is a
    district name of the crime file, [load_data] returns a table without
    rows and writes nothing; the dashboard then writes its data-loading
    error and draws none of the tabs 1 to 4. *)
Theorem no_common_district_no_dashboard
    {num : Type} `{Arith num} (fs : Files (num := num)) (w : Widgets (num := num))
    (st : option session_state) (crime daegu_map : DataFrame)
    (dong adm key : list (option string)) :
  daegu_crime_data_csv fs = Some crime ->
  get crime "행정동" = Some (StrCol dong) ->
  daegu_map_geojson fs = Some daegu_map ->
  get daegu_map "adm_nm" = Some (StrCol adm) ->
  str_split_last (StrCol (num := num) adm) = Ok key ->
  (forall d, In (Some d) key -> ~ In (Some d) dong) ->
  exists merged,
    load_data fs = ([], Ok (Some merged)) /\
    empty merged = true /\
    dashboard w st (Some merged) = ([st_error DashboardUnavailable], Ok tt).
Proof.
  intros Hcsv Hdong Hmap Hadm Hkey Hno.
  apply (no_common_token_no_rows fs w st crime daegu_map dong adm);
    try assumption.
  intros a d Ha Hd Heq. cbn [str_split_last] in Hkey. injection Hkey as <-.
  apply (Hno d); [|exact Hd].
  apply in_map_iff. exists (Some a). split; [exact Heq|exact Ha].
Qed.

Lemma no_common_district_no_dashboard_witness :
  exists merged,
    load_data MoreExamples.mismatch_files = ([], Ok (Some merged)) /\
    empty merged = true /\
    dashboard Examples.no_widgets None (Some merged)
    = ([st_error DashboardUnavailable], Ok tt).
Proof.
  apply (no_common_district_no_dashboard
           MoreExamples.mismatch_files Examples.no_widgets None
           MoreExamples.mismatch_crime MoreExamples.mismatch_map
           [Some "삼덕동"] [Some "대구광역시 중구 동인동"] [Some "동인동"]);
    try reflexivity.
  intros d Hk Hd. simpl in Hk, Hd.
  destruct Hk as [[= <-]|[]]. destruct Hd as [Hd|[]]. discriminate Hd.
Defined.

(** ** The trend table and the overview tab *)

Lemma emit_then {B} (e : element) (m : ui B) l r :
  m = (l, r) -> ui_bind (emit e) (fun _ => m) = (e :: l, r).
Proof. intros ->. reflexivity. Qed.

(** X13.  The first column becomes ['분기'].  For a workbook that exists:
    without any column [load_trend_data] raises [IndexError], which its
    handler does not catch; otherwise it returns the table and writes
    nothing, ['분기'] then reads the first column of the workbook, every
    cell is as in the workbook, and a column keeps its name unless it had
    the name of the first column. *)
Theorem load_trend_data_first_column
    {num : Type} `{Arith num} (fs : Files (num := num)) (df : DataFrame) :
  trend_xlsx fs = Some df ->
  match df with
  | [] => load_trend_data fs = ([], Raise IndexError)
  | (old, c) :: rest =>
      exists trend_df,
        load_trend_data fs = ([], Ok (Some trend_df)) /\
        getitem trend_df "분기" = Ok c /\
        map snd trend_df = map snd df /\
        columns trend_df
        = map (fun n => if String.eqb old n then "분기" else n) (columns df)
  end.
Proof.
  intros Hx. unfold load_trend_data. rewrite Hx. cbn [read].
  destruct df as [|[old c] rest]; [reflexivity|].
  exists (rename ((old, c) :: rest) [(old, "분기")]).
  split; [reflexivity|]. split; [|split].
  - unfold getitem. simpl. now rewrite !String.eqb_refl.
  - unfold rename. rewrite map_map. reflexivity.
  - unfold columns, rename. rewrite !map_map. reflexivity.
Qed.

Lemma load_trend_data_first_column_witness :
  exists trend_df,
    load_trend_data Examples.no_dong_files = ([], Ok (Some trend_df)) /\
    getitem trend_df "분기" = Ok (StrCol [Some "2024 1분기"; Some "2024 2분기"]) /\
    map snd trend_df = map snd Examples.trend_table /\
    columns trend_df
    = map (fun n => if String.eqb "Unnamed: 0" n then "분기" else n)
          (columns Examples.trend_table).
Proof.
  exact (load_trend_data_first_column Examples.no_dong_files Examples.trend_table
           eq_refl).
Defined.

(** X14.  The quarters of the arrest-rate chart.  For a trend table whose
    ['분기'] column holds text in every row, the filtered table keeps
    exactly the rows whose quarter is not before ['2024 2분기'] in
    code-point order, in their order: its ['분기'] column is the filtered
    column, and every numeric column holds the values of the kept rows. *)
Theorem overview_chart_quarters
    {num : Type} `{Arith num} (trend_df : DataFrame) (quarter : list (option string)) :
  get trend_df "분기" = Some (StrCol quarter) ->
  Forall (fun x => x <> None) quarter ->
  exists filtered,
    trend_df_filtered trend_df = Ok filtered /\
    get filtered "분기" = Some (StrCol (List.filter from_2024_q2 quarter)) /\
    forall (name : string) (s : list num),
      get trend_df name = Some (NumCol s) ->
      get filtered name
      = Some (NumCol (map snd (List.filter (fun qx => from_2024_q2 (fst qx))
                                           (zip quarter s)))).
Proof.
  intros Hq Hall. unfold trend_df_filtered, getitem. rewrite Hq.
  cbn [mbind result_bind bind ge_str].
  assert (Hstr : forallb (fun x : option string =>
                   match x with Some _ => true | None => false end) quarter = true).
  { apply forallb_forall. intros x Hx. rewrite Forall_forall in Hall.
    specialize (Hall x (proj2 (list_elem_of_In _ _) Hx)). now destruct x. }
  rewrite Hstr.
  assert (Hmask : map (fun x : option string =>
                    match x with
                    | Some y => negb (String.ltb y "2024 2분기")
                    | None => false
                    end) quarter = map from_2024_q2 quarter) by reflexivity.
  rewrite Hmask. eexists. split; [reflexivity|]. split.
  - unfold boolean_index. rewrite get_take_rows, Hq. cbn [fmap option_fmap option_map take_column].
    now rewrite take_at_positions, filter_zip_self.
  - intros name s Hs. unfold boolean_index. rewrite get_take_rows, Hs.
    cbn [fmap option_fmap option_map take_column]. now rewrite take_at_positions.
Qed.

Lemma overview_chart_quarters_witness :
  exists filtered,
    trend_df_filtered MoreExamples.trend_loaded = Ok filtered /\
    get filtered "분기" = Some (StrCol [Some "2024 2분기"]) /\
    get filtered "발생건수대비 검거건수(%)" = Some (NumCol [of_Z 72 : spec_float]).
Proof.
  destruct (overview_chart_quarters MoreExamples.trend_loaded
              [Some "2024 1분기"; Some "2024 2분기"])
    as (filtered & Hf & Hq & Hcols).
  - reflexivity.
  - repeat constructor; discriminate.
  - exists filtered. split; [exact Hf|]. split; [exact Hq|].
    rewrite (Hcols "발생건수대비 검거건수(%)" [of_Z 75; of_Z 72]); reflexivity.
Defined.

(** X15.  The overview tab on a loaded trend table.  A table without the
    column of the first chart stops the script with [ValueError]; a table
    that has it, and whose ['분기'] column holds text in every row, gets
    the text and both charts when it has the column of the second chart,
    and stops with [ValueError] when it has not. *)
Theorem overview_tab_outcomes
    {num : Type} `{Arith num} (trend_df : DataFrame (num := num)) :
  (get trend_df "전년동분기 대비 발생건수 증감(건)" = None ->
   snd (tab_overview (Some trend_df)) = Raise ValueError) /\
  (forall quarter,
     get trend_df "전년동분기 대비 발생건수 증감(건)" <> None ->
     get trend_df "분기" = Some (StrCol quarter) ->
     Forall (fun x => x <> None) quarter ->
     match get trend_df "발생건수대비 검거건수(%)" with
     | Some _ =>
         tab_overview (Some trend_df)
         = ([drawn OverviewText; drawn OverviewCharts], Ok tt)
     | None => snd (tab_overview (Some trend_df)) = Raise ValueError
     end).
Proof.
  unfold tab_overview. split.
  - intros Hy.
    erewrite emit_then; [reflexivity|].
    unfold require_column. rewrite Hy. reflexivity.
  - intros quarter Hy Hq Hall.
    assert (Hstr : forallb (fun x : option string =>
                     match x with Some _ => true | None => false end) quarter = true).
    { apply forallb_forall. intros x Hx. rewrite Forall_forall in Hall.
      specialize (Hall x (proj2 (list_elem_of_In _ _) Hx)). now destruct x. }
    destruct (get trend_df "발생건수대비 검거건수(%)") as [c|] eqn:Hz;
      erewrite emit_then; try reflexivity; unfold require_column;
      (destruct (get trend_df "전년동분기 대비 발생건수 증감(건)"); [|contradiction]);
      rewrite ui_bind_lift; unfold getitem; rewrite Hq, ui_bind_lift;
      cbn [ge_str]; rewrite Hstr, ui_bind_lift;
      unfold boolean_index; rewrite get_take_rows, Hz; reflexivity.
Qed.

Lemma overview_tab_outcomes_witness :
  tab_overview (Some MoreExamples.trend_loaded)
  = ([drawn OverviewText; drawn OverviewCharts], Ok tt).
Proof.
  apply (proj2 (overview_tab_outcomes MoreExamples.trend_loaded)
           [Some "2024 1분기"; Some "2024 2분기"]).
  - discriminate.
  - reflexivity.
  - repeat constructor; discriminate.
Defined.

(** ** The correlation table *)

Section RankBounds.
Context {num : Type} `{Arith num}.
Variable good : num -> Prop.
Hypothesis lt_irrefl : forall x, good x -> flt x x = false.
Hypothesis lt_trans : forall x y z, good x -> good y -> good z ->
  flt x y = true -> flt y z = true -> flt x z = true.
Implicit Types (s l : list num).

Lemma count_greater_lt_length x s :
  In x s -> flt x x = false -> (count_greater x s < length s)%nat.
Proof.
  unfold count_greater. induction s as [|y s IH]; intros Hin Hx; [destruct Hin|].
  rewrite filter_cons. simpl.
  assert (Hle : (length (filter (fun y0 => flt x y0 = true) s) <= length s)%nat)
    by apply length_filter.
  destruct Hin as [->|Hin].
  - destruct (decide (flt x x = true)) as [E|_]; [congruence|]. lia.
  - specialize (IH Hin Hx).
    destruct (decide (flt x y = true)); simpl; lia.
Qed.

Lemma exists_largest s :
  s <> [] -> Forall good s ->
  exists x, In x s /\ Forall (fun y => flt x y = false) s.
Proof.
  induction s as [|x s IH]; intros Hne Hs; [contradiction|].
  inversion Hs as [|? ? Hgx Hgs]; subst.
  destruct s as [|x' s'].
  - exists x. split; [now left|]. constructor; [now apply lt_irrefl|constructor].
  - destruct (IH ltac:(discriminate) Hgs) as (m & Hm & Hmax).
    assert (Hgm : good m).
    { rewrite Forall_forall in Hgs. apply Hgs. now apply list_elem_of_In. }
    destruct (flt m x) eqn:Emx.
    + exists x. split; [now left|].
      constructor; [now apply lt_irrefl|].
      apply Forall_forall. intros y Hy.
      destruct (flt x y) eqn:Exy; [|reflexivity].
      assert (Hgy : good y) by (rewrite Forall_forall in Hgs; auto).
      rewrite Forall_forall in Hmax.
      rewrite <- (Hmax y Hy). symmetry. now apply (lt_trans m x y).
    + exists m. split; [now right|]. now constructor.
Qed.

(** Ranks by [method='min'], largest first, run from 1 to at most the
    number of rows, and some row has rank 1. *)
Lemma min_rank_desc_bounds s r :
  Forall good s -> min_rank_desc s r ->
  length r = length s /\
  Forall (fun ri => 1 <= ri <= Z.of_nat (length s)) r /\
  (s <> [] -> In 1 r).
Proof.
  intros Hs [Hlen Hspec]. split; [exact Hlen|]. split.
  - apply Forall_forall. intros ri Hri.
    apply list_elem_of_lookup in Hri as [i Hi].
    destruct (lookup_lt_is_Some_2 s i) as [x Hx].
    { rewrite <- Hlen. apply lookup_lt_is_Some. eauto. }
    destruct (Hspec i x ri Hx Hi) as (-> & _).
    assert (Hin : In x s) by (apply list_elem_of_In, list_elem_of_lookup; eauto).
    assert (Hgx : good x).
    { rewrite Forall_forall in Hs. apply Hs. now apply list_elem_of_In. }
    pose proof (count_greater_lt_length x s Hin (lt_irrefl x Hgx)). lia.
  - intros Hne. destruct (exists_largest s Hne Hs) as (x & Hin & Hmax).
    apply list_elem_of_In, list_elem_of_lookup in Hin as [i Hx].
    destruct (lookup_lt_is_Some_2 r i) as [ri Hi].
    { rewrite Hlen. apply lookup_lt_is_Some. eauto. }
    destruct (Hspec i x ri Hx Hi) as (_ & H1 & _).
    rewrite (H1 Hmax) in Hi.
    apply list_elem_of_In, list_elem_of_lookup. eauto.
Qed.

End RankBounds.

Section CorrPipeline.
Context {num : Type} `{Arith num}.
Implicit Types (df d shown : DataFrame (num := num)).

Lemma take_at_Forall {A} (P : A -> Prop) (idx : list nat) (l : list A) :
  (forall i x, In i idx -> l !! i = Some x -> P x) -> Forall P (take_at idx l).
Proof.
  intros Hp. apply Forall_forall. intros x Hx. unfold take_at in Hx.
  apply list_elem_of_omap in Hx as (i & Hi & Hx).
  apply (Hp i x); [now apply list_elem_of_In|assumption].
Qed.

Lemma Forall_take_at {A} (P : A -> Prop) (idx : list nat) (l : list A) :
  Forall P l -> Forall P (take_at idx l).
Proof.
  intros Hl. apply take_at_Forall. intros i x _ Hx.
  rewrite Forall_forall in Hl. apply Hl. apply list_elem_of_lookup. eauto.
Qed.

Lemma rank_as_int_total (s : list num) :
  Forall (fun x => isna x = false) s -> rank_as_int s = Ok (rank_min_desc s).
Proof.
  intros Hs. unfold rank_as_int.
  destruct (existsb isna s) eqn:E; [|reflexivity].
  apply existsb_exists in E as (x & Hin & Hx).
  rewrite Forall_forall in Hs. rewrite (Hs x) in Hx; [discriminate|].
  now apply list_elem_of_In.
Qed.

(** The rows [dropna] keeps of a text column and a numeric column have a
    number in the numeric one. *)
Lemma dropna_two_columns (n0 n1 : string) (r : list (option string)) (s : list num) :
  exists r' s',
    dropna [(n0, StrCol r); (n1, NumCol s)] = [(n0, StrCol r'); (n1, NumCol s')] /\
    Forall (fun x => isna x = false) s'.
Proof.
  unfold dropna.
  set (keep := List.filter _ _).
  exists (take_at keep r), (take_at keep s). split; [reflexivity|].
  apply take_at_Forall. intros i x Hi Hx. subst keep.
  apply filter_In in Hi as [_ Hi]. cbn [forallb snd is_missing_at] in Hi.
  rewrite Hx in Hi. rewrite !andb_true_iff in Hi.
  destruct Hi as (_ & Hi & _). now apply negb_true_iff in Hi.
Qed.

Lemma merge_region (r1 r2 : list (option string)) (s1 s2 : list num) :
  exists idx1 idx2,
    merge [("지역", StrCol r1); ("범죄발생수", NumCol s1)]
          [("지역", StrCol r2); ("인구수", NumCol s2)] "지역" "지역"
    = Ok [("지역", StrCol (take_at idx1 r1));
          ("범죄발생수", NumCol (take_at idx1 s1));
          ("인구수", NumCol (take_at idx2 s2))].
Proof.
  unfold merge. cbn [getitem get String.eqb Ascii.eqb Bool.eqb].
  eexists _, _. reflexivity.
Qed.

(** What [load_correlation_data] has computed when it returns a table. *)
Lemma load_correlation_data_ranks (fs : Files (num := num)) (merged_df : DataFrame) :
  load_correlation_data fs = ([], Ok merged_df) ->
  exists crime pop crime_rank pop_rank,
    numeric merged_df "범죄발생수" = Ok crime /\
    numeric merged_df "인구수" = Ok pop /\
    numeric merged_df "범죄발생수 순위" = Ok (map of_Z crime_rank) /\
    numeric merged_df "인구수 순위" = Ok (map of_Z pop_rank) /\
    rank_as_int crime = Ok crime_rank /\
    rank_as_int pop = Ok pop_rank.
Proof.
  unfold load_correlation_data. intros Hload.
  apply try_except_silent in Hload; [|intros e; discriminate].
  repeat (apply ui_bind_lift_Ok in Hload as (? & ? & Hload)).
  injection Hload as <-.
  match goal with Hc : rank_column _ "범죄발생수" = Ok _ |- _ =>
    apply rank_column_Ok in Hc as (crime & rc & Hcrime & Hrc & ->) end.
  match goal with Hp : rank_column _ "인구수" = Ok _ |- _ =>
    apply rank_column_Ok in Hp as (pop & rp & Hpop & Hrp & ->) end.
  exists crime, pop, rc, rp.
  split; [|split; [|split; [|split; [|split]]]]; try assumption; apply numeric_get.
  - rewrite !get_setitem_ne by (intros Heq; discriminate Heq). now apply numeric_get.
  - rewrite get_setitem_ne by (intros Heq; discriminate Heq). now apply numeric_get.
  - rewrite get_setitem_ne by (intros Heq; discriminate Heq). apply get_setitem_eq.
  - apply get_setitem_eq.
Qed.

Lemma ordered_consecutive asc (l : list num) j x y :
  ordered asc l = true -> l !! j = Some x -> l !! S j = Some y ->
  isna x = false -> isna y = true \/ in_order asc x y = true.
Proof.
  revert j. induction l as [|a l IH]; intros j Hord Hx Hy Hnx; [discriminate|].
  destruct j as [|j].
  - destruct l as [|b l]; [discriminate|].
    cbn in Hx, Hy. injection Hx as <-. injection Hy as <-.
    simpl in Hord. rewrite Hnx in Hord.
    apply andb_true_iff in Hord as [Hxy _].
    apply orb_true_iff in Hxy as [Hy|Hxy]; [now left|right; exact Hxy].
  - cbn in Hx, Hy. apply (IH j); try assumption.
    exact (ordered_tail _ _ _ Hord).
Qed.

Lemma take_at_lookup {A} (idx : list nat) (l : list A) j :
  (forall a, In a idx -> (a < length l)%nat) ->
  take_at idx l !! j = idx !! j ≫= (fun a => l !! a).
Proof.
  revert j. induction idx as [|a idx IH]; intros j Hin; [reflexivity|].
  unfold take_at in *. cbn [omap list_omap].
  destruct (lookup_lt_is_Some_2 l a) as [x Hx]; [apply Hin; now left|].
  rewrite Hx. destruct j as [|j]; cbn.
  - now rewrite Hx.
  - apply IH. intros b Hb. apply Hin. now right.
Qed.

Lemma select_columns_get df names d n :
  select_columns df names = Ok d -> In n names -> get d n = get df n.
Proof.
  revert d. induction names as [|n0 names IH]; intros d Hd Hin; [destruct Hin|].
  cbn [select_columns] in Hd.
  apply bind_Ok_inv in Hd as (c0 & Hc0 & Hd).
  apply bind_Ok_inv in Hd as (rest & Hrest & Hd). injection Hd as <-.
  apply getitem_Ok in Hc0. simpl.
  destruct (String.eqb n0 n) eqn:E.
  - apply String.eqb_eq in E. subst n0. now rewrite Hc0.
  - destruct Hin as [->|Hin]; [now rewrite String.eqb_refl in E|].
    now apply IH.
Qed.

Lemma select_columns_wf df names d :
  wf_frame df -> select_columns df names = Ok d ->
  wf_frame d /\ (d <> [] -> nrows d = nrows df).
Proof.
  intros Hwf Hd.
  pose proof (select_columns_In df names d Hd) as Hin.
  assert (Hn : d <> [] -> nrows d = nrows df).
  { destruct d as [|[n c] d]; [congruence|]. intros _. simpl.
    apply (Hwf n c), get_In, Hin. now left. }
  split; [|exact Hn].
  intros n c Hc. rewrite Hn by (intros ->; destruct Hc).
  apply (Hwf n c), get_In, Hin, Hc.
Qed.

End CorrPipeline.

(** Integers as binary64 numbers. *)
Module B64Int.
Import B64 B64Round.

Lemma shl_align_snd mx ex ez : ez <= ex -> snd (shl_align mx ex ez) = ez.
Proof.
  intros Hle. unfold shl_align.
  destruct (ez - ex) as [|d|d] eqn:Ed; cbn [snd]; lia.
Qed.

(** A positive integer below [2 ^ 53] is a binary64 number: [of_Z] keeps
    its value, with the mantissa shifted up to 53 digits. *)
Lemma of_Z_small z :
  0 < z < 2 ^ 53 ->
  exists m, of_Z z = S754_finite false m (dg z - 53)
            /\ Zpos m = z * 2 ^ (53 - dg z).
Proof.
  intros [Hz0 Hz1]. destruct z as [|p|p]; try lia.
  unfold of_Z, binary_normalize, binary_round, B64.prec, B64.emax. rewrite fexp_eq.
  change (Zpos (digits2_pos p)) with (dg (Zpos p)).
  assert (Hd1 : 1 <= dg (Zpos p)).
  { pose proof (dg_lower (Zpos p) 0 ltac:(lia) ltac:(simpl; lia)). lia. }
  assert (Hd2 : dg (Zpos p) <= 53) by (apply dg_upper; lia).
  assert (Hfe : fexp64 (dg (Zpos p) + 0) = dg (Zpos p) - 53).
  { unfold fexp64. lia. }
  rewrite Hfe.
  pose proof (shl_align_val p 0 (dg (Zpos p) - 53) ltac:(lia)) as Hv.
  pose proof (shl_align_snd p 0 (dg (Zpos p) - 53) ltac:(lia)) as Hs.
  destruct (shl_align p 0 (dg (Zpos p) - 53)) as [mz ez]. cbn [fst snd] in Hv, Hs.
  subst ez. replace (0 - (dg (Zpos p) - 53)) with (53 - dg (Zpos p)) in Hv by lia.
  exists mz. split; [|exact Hv].
  assert (Hdm : dg (Zpos mz) = 53).
  { rewrite Hv, dg_mul_pow2 by lia. lia. }
  assert (Hsh : shift_m (Zpos mz) (dg (Zpos p) - 53) = (Zpos mz, dg (Zpos p) - 53)).
  { unfold shift_m. rewrite Hdm.
    replace (fexp64 (53 + (dg (Zpos p) - 53)) - (dg (Zpos p) - 53)) with 0
      by (unfold fexp64; lia).
    reflexivity. }
  destruct (bra_spec false (Zpos mz) (dg (Zpos p) - 53) loc_Exact ltac:(lia))
    as (mr & _ & Hex & ->).
  rewrite Hsh in *. cbn [fst snd] in *. rewrite (Hex eq_refl eq_refl), Hsh.
  unfold pack. cbn [fst snd].
  destruct (dg (Zpos p) - 53 <=? 971) eqn:E; [reflexivity|].
  apply Z.leb_gt in E. lia.
Qed.

Lemma of_Z_not_nan z : 0 < z < 2 ^ 53 -> is_nan (of_Z z) = false.
Proof. intros Hz. destruct (of_Z_small z Hz) as (m & -> & _). reflexivity. Qed.

(** On these integers the order of the floats is the order of the integers. *)
Lemma of_Z_le a b :
  0 < a < 2 ^ 53 -> 0 < b < 2 ^ 53 ->
  SFleb (of_Z a) (of_Z b) = true -> a <= b.
Proof.
  intros Ha Hb Hle.
  destruct (of_Z_small a Ha) as (ma & Ea & Hma).
  destruct (of_Z_small b Hb) as (mb & Eb & Hmb).
  rewrite Ea, Eb in Hle. apply SFleb_pos_finite_inv in Hle.
  destruct (Z.le_gt_cases a b) as [Hab|Hab]; [exact Hab|exfalso].
  pose proof (dg_le_mono b a ltac:(lia)) as Hdg.
  destruct Hle as [Hlt|[Heq Hm]]; [lia|].
  assert (Hd : dg a = dg b) by lia.
  rewrite Hma, Hmb, Hd in Hm.
  assert (Hp : 0 < 2 ^ (53 - dg b)).
  { apply Z.pow_pos_nonneg; [lia|].
    assert (dg b <= 53) by (apply dg_upper; lia). lia. }
  nia.
Qed.

End B64Int.

Section RankedDisplay.
Local Abbreviation num := spec_float.
Implicit Types (d shown : DataFrame (num := num)).

(** Sorting a table by a rank column, smallest rank first, puts the ranked
    values largest first. *)
Lemma rank_sorted_values_descending d vname rname (s : list num) r shown :
  wf_frame d -> numeric d vname = Ok s -> numeric d rname = Ok (map of_Z r) ->
  rank_as_int s = Ok r -> Z.of_nat (length s) < 2 ^ 53 ->
  sort_values d rname true shown ->
  exists v, numeric shown vname = Ok v /\ descending v.
Proof.
  intros Hwf Hs Hr Hrank Hsmall (idx & key & Hperm & -> & Hkey & Hord).
  exists (take_at idx s). split.
  { apply numeric_get. rewrite get_take_rows.
    apply numeric_get in Hs. now rewrite Hs. }
  apply numeric_take_rows in Hkey as (k0 & Hk0 & ->).
  rewrite Hr in Hk0. injection Hk0 as <-.
  pose proof (wf_numeric_length d vname s Hwf Hs) as Hls.
  pose proof (wf_numeric_length d rname _ Hwf Hr) as Hlr. rewrite length_map in Hlr.
  pose proof (rank_as_int_no_nan (num := num) B64.not_nan (fun x Hx => Hx) s r Hrank)
    as [Hgood _].
  assert (Hspec : min_rank_desc s r).
  { apply (rank_as_int_spec (num := num) B64.not_nan); auto.
    - exact B64Order.lt_irrefl.
    - exact B64Order.lt_trans.
    - exact B64Order.lt_cotrans. }
  destruct (min_rank_desc_bounds B64.not_nan B64Order.lt_irrefl B64Order.lt_trans
              s r Hgood Hspec) as (_ & Hbounds & _).
  assert (Hidx : forall a, In a idx -> (a < nrows d)%nat).
  { intros a Ha. apply (Permutation_in _ Hperm), in_seq in Ha. lia. }
  intros j x y Hx Hy.
  rewrite take_at_lookup in Hx, Hy by (intros a Ha; rewrite Hls; now apply Hidx).
  destruct (idx !! j) as [a|] eqn:Ea; [|discriminate]. cbn in Hx.
  destruct (idx !! S j) as [b|] eqn:Eb; [|discriminate]. cbn in Hy.
  destruct (lookup_lt_is_Some_2 r a) as [ra Hra].
  { rewrite Hlr. apply Hidx, list_elem_of_In, list_elem_of_lookup. eauto. }
  destruct (lookup_lt_is_Some_2 r b) as [rb Hrb].
  { rewrite Hlr. apply Hidx, list_elem_of_In, list_elem_of_lookup. eauto. }
  assert (Hka : take_at idx (map of_Z r) !! j = Some (of_Z ra : num)).
  { rewrite take_at_lookup, Ea.
    - cbn. now rewrite list_lookup_fmap, Hra.
    - intros c Hc. rewrite length_map, Hlr. now apply Hidx. }
  assert (Hkb : take_at idx (map of_Z r) !! S j = Some (of_Z rb : num)).
  { rewrite take_at_lookup, Eb.
    - cbn. now rewrite list_lookup_fmap, Hrb.
    - intros c Hc. rewrite length_map, Hlr. now apply Hidx. }
  assert (Hba : forall ri, ri ∈ r -> 0 < ri < 2 ^ 53).
  { intros ri Hri. rewrite Forall_forall in Hbounds. specialize (Hbounds ri Hri). lia. }
  assert (Hra' : 0 < ra < 2 ^ 53) by (apply Hba, list_elem_of_lookup; eauto).
  assert (Hrb' : 0 < rb < 2 ^ 53) by (apply Hba, list_elem_of_lookup; eauto).
  destruct (ordered_consecutive true _ j _ _ Hord Hka Hkb) as [Hnan|Hle].
  { exact (B64Int.of_Z_not_nan ra Hra'). }
  { change (isna (of_Z rb : num)) with (B64.is_nan (B64.of_Z rb)) in Hnan.
    rewrite (B64Int.of_Z_not_nan rb Hrb') in Hnan. discriminate. }
  apply (B64Int.of_Z_le ra rb Hra' Hrb') in Hle.
  destruct Hspec as [_ Hspec].
  destruct (Hspec a x ra Hx Hra) as (_ & _ & Hcmp).
  destruct (Hcmp b y rb Hy Hrb) as (_ & Hlt & _).
  assert (Hxy : flt x y = false).
  { destruct (flt x y) eqn:E; [|reflexivity]. specialize (Hlt eq_refl). lia. }
  assert (Hgx : B64.not_nan x).
  { rewrite Forall_forall in Hgood. apply Hgood, list_elem_of_lookup. eauto. }
  assert (Hgy : B64.not_nan y).
  { rewrite Forall_forall in Hgood. apply Hgood, list_elem_of_lookup. eauto. }
  apply (B64Order.leb_key y x Hgy Hgx). intros Hk.
  apply (B64Order.ltb_key x y Hgx Hgy) in Hk.
  change (flt x y) with (SFltb x y) in Hxy. congruence.
Qed.

End RankedDisplay.

Lemma example_wf_corr_merged : wf_frame Examples.corr_merged.
Proof.
  intros n c Hin. simpl in Hin.
  repeat (destruct Hin as [Hin|Hin]; [injection Hin as <- <-; reflexivity|]).
  destruct Hin.
Qed.

(** X16.  A correlation file with fewer than five columns.  The loader
    reads its columns by position, so such a file raises [IndexError];
    the handler catches only a missing file, so the loader writes no
    message, and the correlation tab stops with the same exception. *)
Theorem correlation_file_too_narrow
    {num : Type} `{Arith num} (fs : Files (num := num)) (w : Widgets (num := num))
    (df : DataFrame) :
  corr_csv fs = Some df -> (length df < 5)%nat ->
  load_correlation_data fs = ([], Raise IndexError) /\
  snd (tab_corr fs w) = Raise IndexError.
Proof.
  intros Hcsv Hlen.
  assert (Hload : load_correlation_data fs = ([], Raise IndexError)).
  { unfold load_correlation_data. rewrite Hcsv. cbn [read].
    destruct df as [|a [|b [|c [|d [|e df]]]]]; try reflexivity.
    simpl in Hlen. lia. }
  split; [exact Hload|]. unfold tab_corr. rewrite Hload. reflexivity.
Qed.

Lemma correlation_file_too_narrow_witness :
  load_correlation_data MoreExamples.narrow_files = ([], Raise IndexError) /\
  snd (tab_corr MoreExamples.narrow_files Examples.no_widgets) = Raise IndexError.
Proof.
  apply (correlation_file_too_narrow MoreExamples.narrow_files Examples.no_widgets
           MoreExamples.narrow_table).
  - reflexivity.
  - simpl. lia.
Defined.

(** X17.  A file of the expected layout always loads.  When the file
    exists and its columns 0, 1, 3 and 4 are ['지역'] (text),
    ['범죄발생수'] (numbers), ['지역.1'] (text) and ['인구수'] (numbers),
    whatever the cells are, [load_correlation_data] returns a table and
    writes nothing, and the table has exactly the two value columns, the
    region and the two rank columns. *)
Theorem load_correlation_data_total
    {num : Type} `{Arith num} (fs : Files (num := num)) (df : DataFrame) :
  corr_csv fs = Some df -> corr_layout df ->
  exists merged_df,
    load_correlation_data fs = ([], Ok merged_df) /\
    columns merged_df = ["지역"; "범죄발생수"; "인구수"; "범죄발생수 순위"; "인구수 순위"].
Proof.
  intros Hcsv (region & crime & c2 & region1 & pop & rest & ->).
  unfold load_correlation_data. rewrite Hcsv. cbn [read].
  rewrite ui_bind_lift. cbn [iloc_columns lookup list_lookup mbind result_bind bind].
  rewrite ui_bind_lift. cbn [iloc_columns lookup list_lookup mbind result_bind bind].
  destruct (dropna_two_columns "지역" "범죄발생수" region crime) as (r1 & s1 & -> & Hs1).
  rewrite ui_bind_lift.
  destruct (dropna_two_columns "지역.1" "인구수" region1 pop) as (r2 & s2 & -> & Hs2).
  change (rename [("지역", StrCol r1); ("범죄발생수", NumCol s1)]
                 [("지역", "지역"); ("범죄발생수", "범죄발생수")])
    with [("지역", StrCol r1); ("범죄발생수", NumCol s1)].
  change (rename [("지역.1", StrCol r2); ("인구수", NumCol s2)]
                 [("지역.1", "지역"); ("인구수", "인구수")])
    with [("지역", StrCol r2); ("인구수", NumCol s2)].
  change (getitem [("지역", StrCol r1); ("범죄발생수", NumCol s1)] "범죄발생수"
          ≫= (fun c => to_numeric c)) with (Ok s1 : result (list num)).
  rewrite ui_bind_lift.
  change (getitem [("지역", StrCol r2); ("인구수", NumCol s2)] "인구수"
          ≫= (fun c => to_numeric c)) with (Ok s2 : result (list num)).
  rewrite ui_bind_lift.
  change (setitem [("지역", StrCol r1); ("범죄발생수", NumCol s1)] "범죄발생수" (NumCol s1))
    with [("지역", StrCol r1); ("범죄발생수", NumCol s1)].
  change (setitem [("지역", StrCol r2); ("인구수", NumCol s2)] "인구수" (NumCol s2))
    with [("지역", StrCol r2); ("인구수", NumCol s2)].
  destruct (merge_region r1 r2 s1 s2) as (idx1 & idx2 & ->).
  rewrite ui_bind_lift.
  assert (Hc : rank_column [("지역", StrCol (take_at idx1 r1));
                            ("범죄발생수", NumCol (take_at idx1 s1));
                            ("인구수", NumCol (take_at idx2 s2))] "범죄발생수"
               = Ok (NumCol (map of_Z (rank_min_desc (take_at idx1 s1))))).
  { unfold rank_column.
    change (numeric _ "범죄발생수") with (Ok (take_at idx1 s1) : result (list num)).
    cbn [mbind result_bind bind].
    now rewrite (rank_as_int_total _ (Forall_take_at _ idx1 s1 Hs1)). }
  rewrite Hc, ui_bind_lift.
  match goal with |- context [setitem ?d "범죄발생수 순위" ?c] =>
    change (setitem d "범죄발생수 순위" c)
      with [("지역", StrCol (take_at idx1 r1));
            ("범죄발생수", NumCol (take_at idx1 s1));
            ("인구수", NumCol (take_at idx2 s2));
            ("범죄발생수 순위", c)] end.
  match goal with |- context [rank_column ?d "인구수"] =>
    assert (Hp : rank_column d "인구수"
                 = Ok (NumCol (map of_Z (rank_min_desc (take_at idx2 s2))))) end.
  { unfold rank_column.
    change (numeric _ "인구수") with (Ok (take_at idx2 s2) : result (list num)).
    cbn [mbind result_bind bind].
    now rewrite (rank_as_int_total _ (Forall_take_at _ idx2 s2 Hs2)). }
  rewrite Hp, ui_bind_lift.
  eexists. split; reflexivity.
Qed.

Lemma load_correlation_data_total_witness :
  exists merged_df,
    load_correlation_data Examples.corr_files = ([], Ok merged_df) /\
    columns merged_df = ["지역"; "범죄발생수"; "인구수"; "범죄발생수 순위"; "인구수 순위"].
Proof.
  apply (load_correlation_data_total Examples.corr_files Examples.corr_table).
  - reflexivity.
  - do 6 eexists. reflexivity.
Defined.

(** X18.  The rank columns stay within the table.  In the table that
    [load_correlation_data] returns, computed in binary64, every rank is a
    whole number between 1 and the number of rows, and unless the table
    has no rows some row has rank 1 in each of the two rank columns. *)
Theorem rank_columns_within_bounds
    (fs : Files (num := spec_float)) (merged_df : DataFrame) :
  load_correlation_data fs = ([], Ok merged_df) ->
  exists crime_rank pop_rank,
    numeric merged_df "범죄발생수 순위" = Ok (map of_Z crime_rank) /\
    numeric merged_df "인구수 순위" = Ok (map of_Z pop_rank) /\
    Forall (fun r => 1 <= r <= Z.of_nat (length crime_rank)) crime_rank /\
    Forall (fun r => 1 <= r <= Z.of_nat (length pop_rank)) pop_rank /\
    (crime_rank <> [] -> In 1 crime_rank) /\
    (pop_rank <> [] -> In 1 pop_rank).
Proof.
  intros Hload.
  destruct (load_correlation_data_ranks fs merged_df Hload)
    as (crime & pop & rc & rp & _ & _ & Hrc & Hrp & Hc & Hp).
  exists rc, rp. split; [exact Hrc|]. split; [exact Hrp|].
  assert (Hb : forall (s : list spec_float) r,
             rank_as_int s = Ok r ->
             length r = length s /\
             Forall (fun ri => 1 <= ri <= Z.of_nat (length s)) r /\
             (s <> [] -> In 1 r)).
  { intros s r Hr.
    pose proof (rank_as_int_no_nan (num := spec_float) B64.not_nan
                  (fun x Hx => Hx) s r Hr) as [Hgood _].
    apply (min_rank_desc_bounds B64.not_nan B64Order.lt_irrefl B64Order.lt_trans);
      [assumption|].
    apply (rank_as_int_spec (num := spec_float) B64.not_nan); auto.
    - exact B64Order.lt_irrefl.
    - exact B64Order.lt_trans.
    - exact B64Order.lt_cotrans. }
  destruct (Hb crime rc Hc) as (Hlc & Hbc & Hoc).
  destruct (Hb pop rp Hp) as (Hlp & Hbp & Hop).
  rewrite Hlc, Hlp. repeat split; try assumption.
  - intros Hne. apply Hoc. intros ->. destruct rc; [now apply Hne|discriminate].
  - intros Hne. apply Hop. intros ->. destruct rp; [now apply Hne|discriminate].
Qed.

Lemma rank_columns_within_bounds_witness :
  exists crime_rank pop_rank,
    numeric Examples.corr_merged "범죄발생수 순위" = Ok (map of_Z crime_rank) /\
    numeric Examples.corr_merged "인구수 순위" = Ok (map of_Z pop_rank) /\
    Forall (fun r => 1 <= r <= Z.of_nat (length crime_rank)) crime_rank /\
    Forall (fun r => 1 <= r <= Z.of_nat (length pop_rank)) pop_rank /\
    (crime_rank <> [] -> In 1 crime_rank) /\
    (pop_rank <> [] -> In 1 pop_rank).
Proof.
  apply (rank_columns_within_bounds Examples.corr_files Examples.corr_merged).
  vm_compute. reflexivity.
Defined.

(** X19.  The table of the correlation tab runs from the largest value
    down.  For a table returned by [load_correlation_data] in binary64,
    with columns of equal length and fewer than [2 ^ 53] rows: shown
    sorted by ['인구수 순위'] its ['인구수'] column never increases from
    one row to the next, and shown sorted by ['범죄발생수 순위'] its
    ['범죄발생수'] column never increases, whichever order the sort gives
    to rows of equal rank. *)
Theorem corr_table_sorted_by_rank
    (fs : Files (num := spec_float)) (corr_df shown : DataFrame) :
  load_correlation_data fs = ([], Ok corr_df) ->
  wf_frame corr_df -> Z.of_nat (nrows corr_df) < 2 ^ 53 ->
  (corr_display "인구수 순위" corr_df shown ->
   exists pop, numeric shown "인구수" = Ok pop /\ descending pop) /\
  (corr_display "범죄발생수 순위" corr_df shown ->
   exists crime, numeric shown "범죄발생수" = Ok crime /\ descending crime).
Proof.
  intros Hload Hwf Hsmall.
  destruct (load_correlation_data_ranks fs corr_df Hload)
    as (crime & pop & rc & rp & Hcrime & Hpop & Hrc & Hrp & Hc & Hp).
  assert (Hgen : forall vname rname (s : list spec_float) r,
            In vname corr_columns -> In rname corr_columns ->
            numeric corr_df vname = Ok s ->
            numeric corr_df rname = Ok (map of_Z r) ->
            rank_as_int s = Ok r ->
            corr_display rname corr_df shown ->
            exists v, numeric shown vname = Ok v /\ descending v).
  { intros vname rname s r Hv Hr Hs Hrk Hrank (d & Hd & Hsort).
    destruct (select_columns_wf corr_df corr_columns d Hwf Hd) as [Hwfd Hnd].
    apply (rank_sorted_values_descending d vname rname s r shown); try assumption.
    - apply numeric_get. rewrite (select_columns_get _ _ _ _ Hd Hv).
      now apply numeric_get.
    - apply numeric_get. rewrite (select_columns_get _ _ _ _ Hd Hr).
      now apply numeric_get.
    - rewrite (wf_numeric_length corr_df vname s Hwf Hs). exact Hsmall. }
  split; intros Hdisp.
  - apply (Hgen "인구수" "인구수 순위" pop rp); try assumption; simpl; auto.
  - apply (Hgen "범죄발생수" "범죄발생수 순위" crime rc); try assumption; simpl; auto 10.
Qed.

Lemma corr_table_sorted_by_rank_witness :
  exists pop, numeric MoreExamples.corr_shown "인구수" = Ok pop /\ descending pop.
Proof.
  destruct (corr_table_sorted_by_rank Examples.corr_files Examples.corr_merged
              MoreExamples.corr_shown) as [Hpop _].
  - vm_compute. reflexivity.
  - exact example_wf_corr_merged.
  - vm_compute. reflexivity.
  - apply Hpop.
    eexists. split; [vm_compute; reflexivity|].
    match goal with
    | |- sort_values ?d _ _ _ =>
        exact (sort_values_exists B64Order.le_total d "인구수 순위" true
                 (map of_Z [3; 1; 1]) eq_refl eq_refl)
    end.
Defined.
